(** * AptUPI: the payment ledger, the payout coordinator, the rate oracle
      and the UPI QR payload parsers, embedded from the TypeScript sources.

    - [backend/src/services/PaymentService.ts]   : module [Ledger], [Pg], [Oracle]
    - [backend/src/services/UpiService.ts]       : module [Upi]
    - [backend/src/controllers/*.ts]             : module [Controllers], [Backend]
    - [src/components/UPIQRScanner.tsx]          : module [Scanner], [Json]
    - [src/services/paymentService.ts]           : module [Aptos]
    - [TestQRCode.tsx]                           : module [TestQR]

    Conventions.  A JavaScript exception is a value of [outcome]; [try_catch]
    is the [try { } catch { }] statement.  The PostgreSQL table [payments] is
    a finite map from the primary key [id] to the row.  JavaScript numbers are
    rationals ([Q]); instants are milliseconds since the epoch ([Z]).

    The handlers are embedded twice.  [Ledger] and [Controllers] are the
    statements and the handlers on a database that runs every statement it
    is sent and reads every id as the text it is.  [Pg] and [Backend] are
    the same statements and handlers with the checks that the schema of the
    repository puts on the columns, and with queries that can be rejected. *)

From Stdlib Require Import ZArith QArith Qabs Qround String Ascii List.
From Stdlib Require Import DecimalString DecimalZ.
From stdpp Require Import gmap strings.

Local Open Scope string_scope.

(** ** Exceptions *)

Inductive error :=
| HttpError (message : string) (statusCode : Z)   (* createError(message, statusCode) *)
| TypeError                                       (* property read on undefined *)
| Failure (message : string).                     (* new Error(message), rejected promise *)

Inductive outcome (A : Type) :=
| Ok (a : A)
| Threw (e : error).
Arguments Ok {A} a.
Arguments Threw {A} e.

Definition try_catch {A} (body : outcome A) (handler : error -> outcome A) : outcome A :=
  match body with
  | Ok a => Ok a
  | Threw e => handler e
  end.

(** JavaScript truthiness of a possibly absent string / number. *)
Definition truthy_str (v : option string) : bool :=
  match v with
  | Some s => negb (String.eqb s "")
  | None => false
  end.

Definition truthy_num (v : option Q) : bool :=
  match v with
  | Some q => negb (Qeq_bool q 0)
  | None => false
  end.

(** [a || b] where [a] may be absent and [b] is a string. *)
Definition or_else (a : option string) (b : string) : string :=
  match a with
  | Some s => if String.eqb s "" then b else s
  | None => b
  end.

(** ** PaymentService.ts : the ledger

    The rows, and what each statement does to the table when the server
    runs it.  What the server checks before, and a query that is rejected,
    are in [Pg]. *)

Module Ledger.

Inductive PaymentStatus := pending | confirmed | completed | failed.

Definition status_eqb (a b : PaymentStatus) : bool :=
  match a, b with
  | pending, pending | confirmed, confirmed
  | completed, completed | failed, failed => true
  | _, _ => false
  end.

Record Payment := {
  id : string;
  merchantId : string;
  amountINR : Q;
  stablecoinAmount : Q;
  exchangeRate : Q;
  walletAddress : string;
  merchantUpiId : string;
  status : PaymentStatus;
  aptosTransactionHash : option string;
  upiPayoutId : option string;
  createdAt : Z;
  updatedAt : Z
}.

Record CreatePaymentData := {
  cp_merchantId : string;
  cp_amountINR : Q;
  cp_stablecoinAmount : Q;
  cp_exchangeRate : Q;
  cp_walletAddress : string;
  cp_merchantUpiId : string;
  cp_status : PaymentStatus
}.

(** [UPDATE payments SET status = $1, updated_at = $2 ...] on one row. *)
Definition set_status (s : PaymentStatus) (now : Z) (p : Payment) : Payment :=
  {| id := id p; merchantId := merchantId p; amountINR := amountINR p;
     stablecoinAmount := stablecoinAmount p; exchangeRate := exchangeRate p;
     walletAddress := walletAddress p; merchantUpiId := merchantUpiId p;
     status := s;
     aptosTransactionHash := aptosTransactionHash p;
     upiPayoutId := upiPayoutId p;
     createdAt := createdAt p; updatedAt := now |}.

(** [..., aptos_transaction_hash = $3] *)
Definition set_hash (h : string) (p : Payment) : Payment :=
  {| id := id p; merchantId := merchantId p; amountINR := amountINR p;
     stablecoinAmount := stablecoinAmount p; exchangeRate := exchangeRate p;
     walletAddress := walletAddress p; merchantUpiId := merchantUpiId p;
     status := status p;
     aptosTransactionHash := Some h;
     upiPayoutId := upiPayoutId p;
     createdAt := createdAt p; updatedAt := updatedAt p |}.

(** [UPDATE payments SET upi_payout_id = $1, updated_at = $2] on one row. *)
Definition set_payout (payout : string) (now : Z) (p : Payment) : Payment :=
  {| id := id p; merchantId := merchantId p; amountINR := amountINR p;
     stablecoinAmount := stablecoinAmount p; exchangeRate := exchangeRate p;
     walletAddress := walletAddress p; merchantUpiId := merchantUpiId p;
     status := status p;
     aptosTransactionHash := aptosTransactionHash p;
     upiPayoutId := Some payout;
     createdAt := createdAt p; updatedAt := now |}.

(** [getPaymentById], once the server runs the SELECT for the id it is
    given: [null] when there is no row. *)
Definition getPaymentById (key : string) (db : gmap string Payment) : option Payment :=
  db !! key.

(** [updatePaymentStatus(id, status, aptosTransactionHash?)].  The UPDATE
    has no condition on the current status.  When no row matches,
    [result.rows[0]] is undefined and [mapRowToPayment] throws. *)
Definition updatePaymentStatus (key : string) (s : PaymentStatus)
    (hash : option string) (now : Z) (db : gmap string Payment)
    : outcome Payment * gmap string Payment :=
  match db !! key with
  | Some p =>
      let p1 := set_status s now p in
      let p2 := if truthy_str hash
                then match hash with Some h => set_hash h p1 | None => p1 end
                else p1 in
      (Ok p2, <[key := p2]> db)
  | None => (Threw TypeError, db)
  end.

(** [updatePaymentPayout(id, upiPayoutId)], once the server runs the
    UPDATE. *)
Definition updatePaymentPayout (key : string) (payout : string) (now : Z)
    (db : gmap string Payment) : outcome Payment * gmap string Payment :=
  match db !! key with
  | Some p =>
      let p' := set_payout payout now p in
      (Ok p', <[key := p']> db)
  | None => (Threw TypeError, db)
  end.

End Ledger.

(** ** UpiService.ts : the payout provider client *)

Module Upi.

Record UpiPayoutRequest := {
  transactionId : string;
  merchantUpiId : string;
  amount : Q;
  currency : string
}.

Record UpiPayoutResponse := {
  payoutId : string;
  status : string;
  message : string;
  resp_transactionId : option string
}.

(** The body POSTed to [`${baseUrl}/payouts`]. *)
Record PayoutData := {
  payout_id : string;
  pd_amount : Q;
  pd_currency : string;
  beneficiary_upi_id : string;
  beneficiary_name : string;
  purpose : string;
  remarks : string
}.

(** [response.data] of the provider. *)
Record ProviderReply := {
  reply_status : option string;
  reply_transaction_id : option string
}.

(** What surrounds the service while it handles one call: the process
    environment, the random sources and the provider.  [uuidv4 n] is the
    value of the [n]-th call of [uuidv4()] in the process. *)
Record Env := {
  uuidv4 : nat -> string;
  use_mock : bool;   (* NODE_ENV === 'development' || USE_UPI_MOCK === 'true' *)
  Math_random : Q;
  Date_now : Z;
  axios_post_payouts : PayoutData -> outcome ProviderReply;
  secretKey : string;
  hmac_sha256_hex : string -> string -> string   (* key, payload, hex digest *)
}.

(** The part of the process state the service touches. *)
Record State := {
  uuid_calls : nat;               (* how many times uuidv4() was called *)
  provider_log : list PayoutData  (* POSTs sent to the provider, oldest first *)
}.

Definition draw_uuid (E : Env) (st : State) : string * State :=
  (uuidv4 E (uuid_calls st),
   {| uuid_calls := S (uuid_calls st); provider_log := provider_log st |}).

Definition log_post (d : PayoutData) (st : State) : State :=
  {| uuid_calls := uuid_calls st; provider_log := provider_log st ++ [d] |}.

Definition decimal_of_Z (z : Z) : string :=
  NilZero.string_of_int (Z.to_int z).

Definition mockUpiPayout (E : Env) (request : UpiPayoutRequest) (pid : string)
    : UpiPayoutResponse :=
  if Qlt_le_dec (Math_random E) (8 # 10) then
    {| payoutId := pid; status := "PENDING";
       message := "Mock payout initiated successfully";
       resp_transactionId := Some ("mock_txn_" +:+ decimal_of_Z (Date_now E)) |}
  else
    {| payoutId := pid; status := "FAILED";
       message := "Mock payout failed - insufficient balance";
       resp_transactionId := None |}.

Definition make_payoutData (request : UpiPayoutRequest) (pid : string) : PayoutData :=
  {| payout_id := pid;
     pd_amount := amount request;
     pd_currency := currency request;
     beneficiary_upi_id := merchantUpiId request;
     beneficiary_name := "Merchant Name";
     purpose := "PAYMENT";
     remarks := "AptPay payment for transaction " +:+ transactionId request |}.

(** The [try] block of [initiatePayout]. *)
Definition initiatePayout_try (E : Env) (request : UpiPayoutRequest) (st : State)
    : outcome UpiPayoutResponse * State :=
  let '(pid, st1) := draw_uuid E st in
  if use_mock E then (Ok (mockUpiPayout E request pid), st1)
  else
    let payoutData := make_payoutData request pid in
    let st2 := log_post payoutData st1 in
    match axios_post_payouts E payoutData with
    | Threw e => (Threw e, st2)
    | Ok data =>
        (Ok {| payoutId := pid;
               status := or_else (reply_status data) "PENDING";
               message := "Payout initiated successfully";
               resp_transactionId := reply_transaction_id data |}, st2)
    end.

(** [initiatePayout]: the [catch] block draws a second identifier. *)
Definition initiatePayout (E : Env) (request : UpiPayoutRequest) (st : State)
    : outcome UpiPayoutResponse * State :=
  match initiatePayout_try E request st with
  | (Ok r, st') => (Ok r, st')
  | (Threw _, st') =>
      let '(pid2, st'') := draw_uuid E st' in
      (Ok {| payoutId := pid2; status := "FAILED";
             message := "Failed to initiate payout";
             resp_transactionId := None |}, st'')
  end.

(** [verifyWebhookSignature(payload, signature)] *)
Definition verifyWebhookSignature (E : Env) (payload signature : string) : bool :=
  String.eqb signature (hmac_sha256_hex E (secretKey E) payload).


End Upi.

(** ** UpiController.ts and PaymentController.ts *)

Module Controllers.
Import Ledger.

(** Everything a request handler can change. *)
Record World := {
  payments : gmap string Payment;
  upi : Upi.State
}.

(** What surrounds a handler during one request.  [now] is the value of
    [new Date()] in the ledger; [verifyTransaction] is
    [AptosService.verifyTransaction] of the backend, which asks the chain
    for the transaction: its answer is taken as given. *)
Record Env := {
  upiEnv : Upi.Env;
  now : Z;
  verifyTransaction : string -> outcome bool
}.

Definition with_payments (db : gmap string Payment) (w : World) : World :=
  {| payments := db; upi := upi w |}.

Definition with_upi (st : Upi.State) (w : World) : World :=
  {| payments := payments w; upi := st |}.

(** *** POST /api/upi/payout *)

Record PayoutBody := {
  po_transactionId : option string;
  po_merchantUpiId : option string;
  po_amountINR : option Q
}.

Record PayoutReply := {
  pr_payoutId : string;
  pr_status : string;
  pr_message : string
}.

(** [Ok] is [res.json({ success: true, data })], [Threw e] is [next(e)]. *)
Definition initiateUpiPayout (E : Env) (body : PayoutBody) (w : World)
    : outcome PayoutReply * World :=
  if negb (truthy_str (po_transactionId body))
     || negb (truthy_str (po_merchantUpiId body))
     || negb (truthy_num (po_amountINR body))
  then (Threw (HttpError "Missing required fields" 400), w)
  else
    match po_transactionId body, po_merchantUpiId body, po_amountINR body with
    | Some tid, Some mupi, Some amt =>
        match getPaymentById tid (payments w) with
        | None => (Threw (HttpError "Payment not found" 404), w)
        | Some payment =>
            if negb (status_eqb (Ledger.status payment) confirmed)
            then (Threw (HttpError "Payment not confirmed yet" 400), w)
            else
              let request :=
                {| Upi.transactionId := tid; Upi.merchantUpiId := mupi;
                   Upi.amount := amt; Upi.currency := "INR" |} in
              match Upi.initiatePayout (upiEnv E) request (upi w) with
              | (Threw e, st) => (Threw e, with_upi st w)
              | (Ok payout, st) =>
                  let w1 := with_upi st w in
                  match updatePaymentPayout tid (Upi.payoutId payout) (now E)
                          (payments w1) with
                  | (Threw e, db) => (Threw e, with_payments db w1)
                  | (Ok _, db) =>
                      (Ok {| pr_payoutId := Upi.payoutId payout;
                             pr_status := Upi.status payout;
                             pr_message := "UPI payout initiated successfully" |},
                       with_payments db w1)
                  end
              end
        end
    | _, _, _ => (Threw (HttpError "Missing required fields" 400), w)
    end.

(** *** POST /api/upi/webhook *)

(** A field of the JSON body that is absent, or is not a string, is [None]:
    it is different from every string under [===]. *)
Record WebhookRequest := {
  wh_payoutId : option string;
  wh_status : option string;
  wh_transactionId : option string;
  wh_rawBody : string;            (* the bytes the provider signed *)
  wh_signature : option string    (* the signature header *)
}.

(** [let paymentStatus = 'pending'; if (status === 'SUCCESS') ... ] *)
Definition webhook_paymentStatus (st : option string) : PaymentStatus :=
  match st with
  | Some s =>
      if String.eqb s "SUCCESS" then completed
      else if String.eqb s "FAILED" then failed
      else pending
  | None => pending
  end.

(** The signature check is commented out in the source: the handler reads
    neither the raw body nor the signature header. *)
Definition handleUpiWebhook (E : Env) (req : WebhookRequest) (w : World)
    : outcome unit * World :=
  let paymentStatus := webhook_paymentStatus (wh_status req) in
  match wh_transactionId req with
  | Some tid =>
      match updatePaymentStatus tid paymentStatus None (now E) (payments w) with
      | (Ok _, db) => (Ok tt, with_payments db w)
      | (Threw e, db) => (Threw e, with_payments db w)
      end
  | None => (Threw TypeError, w)   (* WHERE id = NULL matches no row *)
  end.

(** *** POST /api/payment/confirm *)

Record ConfirmBody := {
  cf_transactionId : option string;
  cf_aptosTransactionHash : option string
}.

Definition confirmPayment (E : Env) (body : ConfirmBody) (w : World)
    : outcome Payment * World :=
  if negb (truthy_str (cf_transactionId body))
     || negb (truthy_str (cf_aptosTransactionHash body))
  then (Threw (HttpError "Missing required fields" 400), w)
  else
    match cf_transactionId body, cf_aptosTransactionHash body with
    | Some tid, Some hash =>
        match verifyTransaction E hash with
        | Threw e => (Threw e, w)
        | Ok false => (Threw (HttpError "Invalid transaction" 400), w)
        | Ok true =>
            match updatePaymentStatus tid confirmed (Some hash) (now E)
                    (payments w) with
            | (Ok p, db) => (Ok p, with_payments db w)
            | (Threw e, db) => (Threw e, with_payments db w)
            end
        end
    | _, _ => (Threw (HttpError "Missing required fields" 400), w)
    end.

End Controllers.

(** ** PaymentService.ts : OracleService, the exchange-rate cache *)

Module Oracle.

Record CacheEntry := { rate : Q; timestamp : Z }.

Definition cacheTimeout : Z := 60000.

(** The two external rate sources. *)
Inductive source := CoinGecko | ExchangeRateApi.

(** What surrounds one call of [getExchangeRate].  A source answers
    [Some r] when the request succeeds and the field read from the reply
    ([data['usd-coin']?.inr], [data.rates?.INR]) is the number [r]; it
    answers [None] when the request fails or the field is missing. *)
Record Env := {
  Date_now : Z;        (* Date.now() at the cache check *)
  new_Date : Z;        (* new Date() when the entry is stored *)
  coingecko : option Q;
  exchangerate_api : option Q
}.

Definition cacheKey (fromCurrency toCurrency : string) : string :=
  fromCurrency +:+ "-" +:+ toCurrency.

(** [getFallbackUSDCToINRRate]: result and the requests it made. *)
Definition getFallbackUSDCToINRRate (E : Env) : outcome Q * list source :=
  let body : outcome Q :=
    match exchangerate_api E with
    | None => Threw (Failure "request failed")
    | Some inrRate =>
        if negb (truthy_num (Some inrRate))
        then Threw (Failure "Invalid response from exchange rate API")
        else Ok inrRate
    end in
  (try_catch body (fun _ => Ok (84 # 1)), [ExchangeRateApi]).

(** [getUSDCToINRRate] *)
Definition getUSDCToINRRate (E : Env) : outcome Q * list source :=
  let body : outcome Q :=
    match coingecko E with
    | None => Threw (Failure "request failed")
    | Some r =>
        if negb (truthy_num (Some r))
        then Threw (Failure "Invalid response from price API")
        else Ok r
    end in
  match body with
  | Ok r => (Ok r, [CoinGecko])
  | Threw _ =>
      let '(r, reqs) := getFallbackUSDCToINRRate E in
      (r, CoinGecko :: reqs)
  end.

(** The [try] block of [getExchangeRate], up to the value of [rate]. *)
Definition fetch_rate (E : Env) (fromCurrency toCurrency : string)
    : outcome Q * list source :=
  if String.eqb fromCurrency "USDC" && String.eqb toCurrency "INR" then
    getUSDCToINRRate E
  else if String.eqb fromCurrency "INR" && String.eqb toCurrency "USDC" then
    match getUSDCToINRRate E with
    | (Ok usdcToInr, reqs) => (Ok (/ usdcToInr)%Q, reqs)
    | (Threw e, reqs) => (Threw e, reqs)
    end
  else
    (Threw (Failure ("Unsupported currency pair: " +:+ fromCurrency +:+ "/"
                     +:+ toCurrency)), []).

Record Result := {
  value : outcome Q;                 (* what the promise settles to *)
  cache : gmap string CacheEntry;    (* this.cache afterwards *)
  requests : list source             (* external requests made, in order *)
}.

(** The path of [getExchangeRate] after the cache check: the [try] block
    and its [catch]. *)
Definition refresh (E : Env) (fromCurrency toCurrency : string)
    (c : gmap string CacheEntry) : Result :=
  let key := cacheKey fromCurrency toCurrency in
  match fetch_rate E fromCurrency toCurrency with
  | (Ok r, reqs) =>
      {| value := Ok r;
         cache := <[key := {| rate := r; timestamp := new_Date E |}]> c;
         requests := reqs |}
  | (Threw _, reqs) =>
      {| value :=
           match c !! key with
           | Some cached => Ok (rate cached)
           | None =>
               Ok (if String.eqb fromCurrency "USDC" && String.eqb toCurrency "INR"
                   then 84 # 1 else 12 # 1000)
           end;
         cache := c; requests := reqs |}
  end.

(** [getExchangeRate(fromCurrency, toCurrency)] *)
Definition getExchangeRate (E : Env) (fromCurrency toCurrency : string)
    (c : gmap string CacheEntry) : Result :=
  match c !! cacheKey fromCurrency toCurrency with
  | Some cached =>
      if (Date_now E - timestamp cached <? cacheTimeout)%Z
      then {| value := Ok (rate cached); cache := c; requests := [] |}
      else refresh E fromCurrency toCurrency c
  | None => refresh E fromCurrency toCurrency c
  end.

End Oracle.

(** ** UPIQRScanner.tsx : the QR payload parsers *)

Module Scanner.

(** *** String primitives of the JavaScript runtime

    Strings are sequences of ASCII characters; case mapping and white space
    are those of the ASCII range. *)

Definition code (c : ascii) : N := N_of_ascii c.

Definition is_digit (c : ascii) : bool := (48 <=? code c)%N && (code c <=? 57)%N.

(** White space and line terminators removed by [String.prototype.trim]. *)
Definition is_space (c : ascii) : bool :=
  ((9 <=? code c)%N && (code c <=? 13)%N) || (code c =? 32)%N.

Definition lower (c : ascii) : ascii :=
  if (65 <=? code c)%N && (code c <=? 90)%N then ascii_of_N (code c + 32) else c.

Fixpoint toLowerCase (s : string) : string :=
  match s with
  | EmptyString => EmptyString
  | String c r => String (lower c) (toLowerCase r)
  end.

Definition startsWith (s p : string) : bool := String.prefix p s.

Fixpoint includes (s needle : string) : bool :=
  String.prefix needle s ||
  match s with
  | EmptyString => false
  | String _ r => includes r needle
  end.

Fixpoint drop (n : nat) (s : string) : string :=
  match n, s with
  | O, _ => s
  | S n', String _ r => drop n' r
  | S _, EmptyString => EmptyString
  end.

(** [s.replace(pat, by)] with a string pattern: the first occurrence only. *)
Fixpoint replace (pat by_ s : string) : string :=
  if String.prefix pat s then by_ +:+ drop (String.length pat) s
  else match s with
       | EmptyString => EmptyString
       | String c r => String c (replace pat by_ r)
       end.

(** [s.split(sep)] for a one-character separator. *)
Fixpoint split (sep : ascii) (s : string) : list string :=
  match s with
  | EmptyString => [EmptyString]
  | String c r =>
      if Ascii.eqb c sep then EmptyString :: split sep r
      else match split sep r with
           | h :: t => String c h :: t
           | [] => [String c EmptyString]
           end
  end.

Fixpoint strip_start (f : ascii -> bool) (s : string) : string :=
  match s with
  | String c r => if f c then strip_start f r else s
  | EmptyString => EmptyString
  end.

Fixpoint strip_end (f : ascii -> bool) (s : string) : string :=
  match s with
  | EmptyString => EmptyString
  | String c r =>
      match strip_end f r with
      | EmptyString => if f c then EmptyString else String c EmptyString
      | r' => String c r'
      end
  end.

(** [s.trim()] *)
Definition trim (s : string) : string := strip_end is_space (strip_start is_space s).

(** The longest prefix of digits, and what follows it. *)
Fixpoint span_digits (s : string) : string * string :=
  match s with
  | String c r =>
      if is_digit c then let '(d, rest) := span_digits r in (String c d, rest)
      else (EmptyString, s)
  | EmptyString => (EmptyString, EmptyString)
  end.

(** [s.match(/\d+(\.\d+)?/)]: the leftmost match, [None] for [null]. *)
Fixpoint match_decimal (s : string) : option string :=
  match s with
  | EmptyString => None
  | String c r =>
      if is_digit c then
        let '(int_part, rest) := span_digits s in
        match rest with
        | String "." r2 =>
            match span_digits r2 with
            | (EmptyString, _) => Some int_part
            | (frac, _) => Some (int_part +:+ "." +:+ frac)
            end
        | _ => Some int_part
        end
      else match_decimal r
  end.

(** [s.match(/\d+/)] is not [null]. *)
Fixpoint has_digit (s : string) : bool :=
  match s with
  | EmptyString => false
  | String c r => is_digit c || has_digit r
  end.

(** *** The parsed intent *)

Record UPIData := {
  payeeAddress : string;
  payeeName : string;
  amount : string;
  transactionNote : string;
  merchantCode : string;
  transactionRef : string;
  rawData : string
}.

(** The classes of the runtime the scanner calls.  [URL_searchParams s] is
    the list of name-value pairs of [new URL(s).searchParams], [None] when
    the constructor throws.  [JSON_form s] is the result of the JSON branch
    of [parseUPIQRCode] ([JSON.parse] followed by [parseJSONUPIFormat]),
    [None] when that branch does not return. *)
Record Platform := {
  URL_searchParams : string -> option (list (string * string));
  JSON_form : string -> option UPIData
}.

(** A model of the URL Standard for [URL_searchParams], for URLs of the
    shape [scheme://host?query#fragment] with a plain ASCII host name: the
    constructor throws when the input has no scheme; the query runs from
    the first [?] to the first [#] and is read as
    application/x-www-form-urlencoded.  Credentials, ports and host
    validation are not modelled. *)

Definition is_alpha (c : ascii) : bool :=
  ((65 <=? code c)%N && (code c <=? 90)%N) || ((97 <=? code c)%N && (code c <=? 122)%N).

Definition is_scheme_char (c : ascii) : bool :=
  is_alpha c || is_digit c || Ascii.eqb c "+" || Ascii.eqb c "-" || Ascii.eqb c ".".

(** The text before the first [sep] and, when there is one, the text after. *)
Fixpoint break (sep : ascii) (s : string) : string * option string :=
  match s with
  | EmptyString => (EmptyString, None)
  | String c r =>
      if Ascii.eqb c sep then (EmptyString, Some r)
      else let '(a, b) := break sep r in (String c a, b)
  end.

Fixpoint all_chars (f : ascii -> bool) (s : string) : bool :=
  match s with
  | EmptyString => true
  | String c r => f c && all_chars f r
  end.

Fixpoint remove_chars (f : ascii -> bool) (s : string) : string :=
  match s with
  | EmptyString => EmptyString
  | String c r => if f c then remove_chars f r else String c (remove_chars f r)
  end.

Definition is_c0_or_space (c : ascii) : bool := (code c <=? 32)%N.
Definition is_tab_or_newline (c : ascii) : bool :=
  (code c =? 9)%N || (code c =? 10)%N || (code c =? 13)%N.

Definition hex_value (c : ascii) : option N :=
  if is_digit c then Some (code c - 48)%N
  else if (65 <=? code c)%N && (code c <=? 70)%N then Some (code c - 55)%N
  else if (97 <=? code c)%N && (code c <=? 102)%N then Some (code c - 87)%N
  else None.

Fixpoint percent_decode (s : string) : string :=
  match s with
  | EmptyString => EmptyString
  | String c r =>
      let keep := String c (percent_decode r) in
      if Ascii.eqb c "%" then
        match r with
        | String a (String b r2) =>
            match hex_value a, hex_value b with
            | Some x, Some y => String (ascii_of_N (16 * x + y)) (percent_decode r2)
            | _, _ => keep
            end
        | _ => keep
        end
      else keep
  end.

Definition plus_to_space (c : ascii) : ascii :=
  if Ascii.eqb c "+" then " "%char else c.

Fixpoint map_chars (f : ascii -> ascii) (s : string) : string :=
  match s with
  | EmptyString => EmptyString
  | String c r => String (f c) (map_chars f r)
  end.

Definition form_decode (s : string) : string :=
  percent_decode (map_chars plus_to_space s).

Definition urlencoded_pair (segment : string) : string * string :=
  let '(name, v) := break "=" segment in
  (form_decode name, form_decode (default EmptyString v)).

Definition urlencoded_parse (query : string) : list (string * string) :=
  map urlencoded_pair
      (List.filter (fun seg => negb (String.eqb seg "")) (split "&" query)).

Definition whatwg_searchParams (input : string) : option (list (string * string)) :=
  let s := remove_chars is_tab_or_newline
             (strip_end is_c0_or_space (strip_start is_c0_or_space input)) in
  match break ":" s with
  | (scheme, Some rest) =>
      match scheme with
      | String c _ =>
          if is_alpha c && all_chars is_scheme_char scheme then
            let '(before_fragment, _) := break "#" rest in
            let '(_, query) := break "?" before_fragment in
            Some (urlencoded_parse (default EmptyString query))
          else None
      | EmptyString => None
      end
  | (_, None) => None
  end.

(** [params.get(name)]: the value of the first pair named [name]. *)
Fixpoint get (params : list (string * string)) (name : string) : option string :=
  match params with
  | [] => None
  | (k, v) :: rest => if String.eqb k name then Some v else get rest name
  end.

(** [parseUPIURL] *)
Definition parseUPIURL (P : Platform) (data : string) : option UPIData :=
  match URL_searchParams P (replace "upi://" "https://" data) with
  | None => None
  | Some params =>
      let payeeAddress := or_else (get params "pa") "" in
      let payeeName := or_else (get params "pn") "Unknown Merchant" in
      let amount := or_else (get params "am") (or_else (get params "amount") "") in
      let transactionNote := or_else (get params "tn") (or_else (get params "note") "") in
      let merchantCode := or_else (get params "mc") (or_else (get params "mid") "") in
      let transactionRef := or_else (get params "tr") (or_else (get params "tid") "") in
      if String.eqb payeeAddress "" then None
      else Some {| payeeAddress := payeeAddress; payeeName := payeeName;
                   amount := amount; transactionNote := transactionNote;
                   merchantCode := merchantCode; transactionRef := transactionRef;
                   rawData := data |}
  end.

(** The three variables the loop of [parseAlternativeUPIFormat] assigns. *)
Record AltState := {
  alt_payeeAddress : string;
  alt_payeeName : string;
  alt_amount : string
}.

Definition alt_init : AltState :=
  {| alt_payeeAddress := ""; alt_payeeName := "Unknown Merchant"; alt_amount := "" |}.

(** One iteration of [for (const line of lines)]. *)
Definition alt_step (st : AltState) (line : string) : AltState :=
  if includes line "@" then
    {| alt_payeeAddress := line; alt_payeeName := alt_payeeName st;
       alt_amount := alt_amount st |}
  else if includes (toLowerCase line) "amount" || includes (toLowerCase line) "rs" then
    match match_decimal line with
    | Some m => {| alt_payeeAddress := alt_payeeAddress st;
                   alt_payeeName := alt_payeeName st; alt_amount := m |}
    | None => st
    end
  else if (3 <? String.length line)%nat && negb (includes line "@")
          && negb (has_digit line) then
    {| alt_payeeAddress := alt_payeeAddress st; alt_payeeName := line;
       alt_amount := alt_amount st |}
  else st.

Definition alt_lines (data : string) : list string :=
  map trim (split "010" data).

(** [parseAlternativeUPIFormat] *)
Definition parseAlternativeUPIFormat (data : string) : option UPIData :=
  let st := fold_left alt_step (alt_lines data) alt_init in
  if String.eqb (alt_payeeAddress st) "" then None
  else Some {| payeeAddress := alt_payeeAddress st;
               payeeName := alt_payeeName st;
               amount := alt_amount st;
               transactionNote := ""; merchantCode := ""; transactionRef := "";
               rawData := data |}.

(** [parseUPIQRCode] *)
Definition parseUPIQRCode (P : Platform) (data : string) : option UPIData :=
  if startsWith data "upi://pay" then
    match URL_searchParams P data with
    | None => None     (* the outer catch *)
    | Some params =>
        let payeeAddress := or_else (get params "pa") "" in
        let payeeName := or_else (get params "pn") "" in
        let amount := or_else (get params "am") "" in
        let transactionNote := or_else (get params "tn") (or_else (get params "tr") "") in
        let merchantCode := or_else (get params "mc") (or_else (get params "mid") "") in
        let transactionRef := or_else (get params "tr") (or_else (get params "tid") "") in
        if String.eqb payeeAddress "" then None
        else Some {| payeeAddress := payeeAddress; payeeName := payeeName;
                     amount := amount; transactionNote := transactionNote;
                     merchantCode := merchantCode; transactionRef := transactionRef;
                     rawData := data |}
    end
  else if includes (toLowerCase data) "upi://pay?" || includes (toLowerCase data) "upiqr" then
    parseUPIURL P data
  else if includes data "@" &&
          (includes data "paytm" || includes data "phonepe"
           || includes data "gpay" || includes data "ybl") then
    parseAlternativeUPIFormat data
  else JSON_form P data.

End Scanner.

(** ** Observations on the ledger, and concrete scenarios *)

Module Scenario.
Import Ledger Controllers.

(** The status stored for payment [tid]. *)
Definition status_of (tid : string) (w : World) : option PaymentStatus :=
  Ledger.status <$> payments w !! tid.

(** The two handlers that call [updatePaymentStatus]. *)
Inductive ledger_op :=
| OpWebhook (req : WebhookRequest)
| OpConfirm (body : ConfirmBody).

Definition run_op (E : Env) (op : ledger_op) (w : World) : World :=
  match op with
  | OpWebhook req => snd (handleUpiWebhook E req w)
  | OpConfirm body => snd (confirmPayment E body w)
  end.

(** The specification's reading of the state machine: [completed] and
    [failed] are never left, and [completed] is entered from [confirmed]
    only. *)
Definition terminal_statuses_spec : Prop :=
  forall (E : Env) (op : ledger_op) (w : World) (tid : string),
    (status_of tid w = Some completed \/ status_of tid w = Some failed ->
     status_of tid (run_op E op w) = status_of tid w)
    /\ (status_of tid (run_op E op w) = Some completed ->
        status_of tid w <> Some completed ->
        status_of tid w = Some confirmed).

(** The specification's reading of idempotent confirmation: confirming an
    already confirmed or completed payment with the hash it carries
    succeeds and leaves its status and the payout state as they were. *)
Definition idempotent_confirmation_spec : Prop :=
  forall (E : Env) (w : World) (tid hash : string) (p : Payment),
    payments w !! tid = Some p ->
    Ledger.status p = confirmed \/ Ledger.status p = completed ->
    aptosTransactionHash p = Some hash ->
    tid <> "" -> hash <> "" ->
    verifyTransaction E hash = Ok true ->
    let body := {| cf_transactionId := Some tid;
                   cf_aptosTransactionHash := Some hash |} in
    (exists p', fst (confirmPayment E body w) = Ok p')
    /\ status_of tid (snd (confirmPayment E body w)) = status_of tid w
    /\ upi (snd (confirmPayment E body w)) = upi w.

Definition sample_payment (s : PaymentStatus) (h : option string) : Payment :=
  {| id := "tx1"; merchantId := "m1";
     amountINR := 840 # 1; stablecoinAmount := 10 # 1; exchangeRate := 84 # 1;
     walletAddress := "0xabc"; merchantUpiId := "shop@upi";
     status := s; aptosTransactionHash := h; upiPayoutId := None;
     createdAt := 1000; updatedAt := 1000 |}.

Definition sample_world (p : Payment) : World :=
  {| payments := {[ "tx1" := p ]};
     upi := {| Upi.uuid_calls := 0; Upi.provider_log := [] |} |}.

Definition sample_uuid (n : nat) : string :=
  "uuid-" +:+ Upi.decimal_of_Z (Z.of_nat n).

(** A provider that is unreachable.  The digest is a stand-in: no handler
    evaluates it. *)
Definition sample_upiEnv : Upi.Env :=
  {| Upi.uuidv4 := sample_uuid;
     Upi.use_mock := false;
     Upi.Math_random := 1 # 2;
     Upi.Date_now := 5000;
     Upi.axios_post_payouts := fun _ => Threw (Failure "ECONNREFUSED");
     Upi.secretKey := "demo_secret_key";
     Upi.hmac_sha256_hex := fun key payload => key +:+ payload |}.

Definition sample_env : Env :=
  {| upiEnv := sample_upiEnv; now := 5000;
     verifyTransaction := fun _ => Ok true |}.

Definition webhook (st : string) : WebhookRequest :=
  {| wh_payoutId := Some "po1"; wh_status := Some st;
     wh_transactionId := Some "tx1";
     wh_rawBody := "{}"; wh_signature := None |}.

Definition confirm_body (h : string) : ConfirmBody :=
  {| cf_transactionId := Some "tx1"; cf_aptosTransactionHash := Some h |}.

Definition payout_body : PayoutBody :=
  {| po_transactionId := Some "tx1"; po_merchantUpiId := Some "shop@upi";
     po_amountINR := Some (840 # 1) |}.

End Scenario.

(** ** The specification's wording of the heuristic parser, and samples *)

Module ScannerSpec.
Import Scanner.

Definition LF : string := String "010" EmptyString.

(** "line of length > 3 containing no '@' and no digit" *)
Definition plain_long_line (line : string) : bool :=
  (3 <? String.length line)%nat && negb (includes line "@") && negb (has_digit line).

(** "the FIRST line of length > 3 containing no '@' and no digit
    (defaulting to Unknown Merchant if no such line exists)" *)
Definition first_name_line (lines : list string) : string :=
  match List.filter plain_long_line lines with
  | line :: _ => line
  | [] => "Unknown Merchant"
  end.

Definition first_name_spec : Prop :=
  forall (data : string) (r : UPIData),
    parseAlternativeUPIFormat data = Some r ->
    payeeName r = first_name_line (alt_lines data).

(** The lines the loop of the source assigns to [payeeName]: those that
    reach its third branch and pass its test. *)
Definition mentions_amount (line : string) : bool :=
  includes (toLowerCase line) "amount" || includes (toLowerCase line) "rs".

Definition name_line (line : string) : bool :=
  negb (includes line "@") && negb (mentions_amount line) && plain_long_line line.

Definition last_name_line (lines : list string) : string :=
  List.last (List.filter name_line lines) "Unknown Merchant".

Definition tea_shop : string :=
  "shop@paytm" +:+ LF +:+ "Tea Shop" +:+ LF +:+ "Amount: Rs 20".

Definition two_names : string :=
  "a@paytm" +:+ LF +:+ "Alpha" +:+ LF +:+ "Bravo".

(** The runtime with the URL model above and any JSON branch. *)
Definition runtime (json : string -> option UPIData) : Platform :=
  {| URL_searchParams := whatwg_searchParams; JSON_form := json |}.

End ScannerSpec.

Module OracleSample.
Import Oracle.

(** Both rate sources down, seventy seconds after the epoch. *)
Definition outage : Env :=
  {| Date_now := 70000; new_Date := 70000;
     coingecko := None; exchangerate_api := None |}.

(** A cache whose only entry was stored at the epoch. *)
Definition stale_cache (r : Q) : gmap string CacheEntry :=
  {[ "USDC-INR" := {| rate := r; timestamp := 0 |} ]}.

Definition later (t : Z) : Env :=
  {| Date_now := t; new_Date := t;
     coingecko := Some (83 # 1); exchangerate_api := Some (83 # 1) |}.

End OracleSample.

(** ** Sequences of requests to the handlers that update a payment *)

Module Run.
Import Ledger Controllers.

Inductive request :=
| Payout (body : PayoutBody)      (* POST /api/upi/payout *)
| Webhook (req : WebhookRequest)  (* POST /api/upi/webhook *)
| Confirm (body : ConfirmBody).   (* POST /api/payment/confirm *)

Definition handle (E : Env) (rq : request) (w : World) : World :=
  match rq with
  | Payout body => snd (initiateUpiPayout E body w)
  | Webhook req => snd (handleUpiWebhook E req w)
  | Confirm body => snd (confirmPayment E body w)
  end.

(** Requests served one after the other, each in its own surroundings. *)
Fixpoint run (trace : list (Env * request)) (w : World) : World :=
  match trace with
  | [] => w
  | (E, rq) :: rest => run rest (handle E rq w)
  end.

(** The payment a request names. *)
Definition target (rq : request) : option string :=
  match rq with
  | Payout body => po_transactionId body
  | Webhook req => wh_transactionId req
  | Confirm body => cf_transactionId body
  end.

(** The columns no UPDATE of the ledger sets. *)
Definition same_terms (p p' : Payment) : Prop :=
  id p' = id p /\ merchantId p' = merchantId p
  /\ amountINR p' = amountINR p /\ stablecoinAmount p' = stablecoinAmount p
  /\ exchangeRate p' = exchangeRate p /\ walletAddress p' = walletAddress p
  /\ merchantUpiId p' = merchantUpiId p /\ createdAt p' = createdAt p.

Definition is_error {A} (o : outcome A) : bool :=
  match o with
  | Ok _ => false
  | Threw _ => true
  end.

(** The handler answered through [next(error)]. *)
Definition rejected (E : Env) (rq : request) (w : World) : bool :=
  match rq with
  | Payout body => is_error (fst (initiateUpiPayout E body w))
  | Webhook req => is_error (fst (handleUpiWebhook E req w))
  | Confirm body => is_error (fst (confirmPayment E body w))
  end.

End Run.

(** ** UpiService.ts : payout status, and GET /api/upi/status/:payoutId *)

Module UpiQuery.

Record UpiPayoutStatus := {
  sp_payoutId : string;
  sp_status : option string;
  sp_amount : option Q;
  sp_merchantUpiId : option string;
  sp_transactionId : option string;
  sp_failureReason : option string;
  sp_createdAt : Z;
  sp_updatedAt : Z
}.

(** [response.data] of [GET `${baseUrl}/payouts/${payoutId}`].  A field
    that is missing is [None]; [data_beneficiary] is [None] when the reply
    has no [beneficiary] object and [Some None] when that object has no
    [upi_id].  The two dates are the instants [new Date(...)] makes of the
    reply's [created_at] and [updated_at]. *)
Record StatusData := {
  data_status : option string;
  data_amount : option Q;
  data_beneficiary : option (option string);
  data_transaction_id : option string;
  data_failure_reason : option string;
  data_created_at : Z;
  data_updated_at : Z
}.

Record Env := {
  base : Upi.Env;
  axios_get_payout : string -> outcome StatusData
}.

(** [mockPayoutStatus] *)
Definition mockPayoutStatus (E : Env) (payoutId : string) : UpiPayoutStatus :=
  let random := Upi.Math_random (base E) in
  let now := Upi.Date_now (base E) in
  {| sp_payoutId := payoutId;
     sp_status :=
       Some (if Qlt_le_dec random (7 # 10) then "SUCCESS"
             else if Qlt_le_dec random (9 # 10) then "PENDING" else "FAILED");
     sp_amount := Some (100 # 1);
     sp_merchantUpiId := Some "merchant@upi";
     sp_transactionId := Some ("mock_txn_" +:+ Upi.decimal_of_Z now);
     sp_failureReason :=
       if Qle_bool (9 # 10) random then Some "Insufficient balance" else None;
     sp_createdAt := (now - 60000)%Z;
     sp_updatedAt := now |}.

(** [getPayoutStatus]: [None] is [null]. *)
Definition getPayoutStatus (E : Env) (payoutId : string) : option UpiPayoutStatus :=
  if Upi.use_mock (base E) then Some (mockPayoutStatus E payoutId)
  else
    match axios_get_payout E payoutId with
    | Threw _ => None
    | Ok data =>
        match data_beneficiary data with
        | None => None     (* reading upi_id of undefined throws, caught *)
        | Some upi_id =>
            Some {| sp_payoutId := payoutId;
                    sp_status := data_status data;
                    sp_amount := data_amount data;
                    sp_merchantUpiId := upi_id;
                    sp_transactionId := data_transaction_id data;
                    sp_failureReason := data_failure_reason data;
                    sp_createdAt := data_created_at data;
                    sp_updatedAt := data_updated_at data |}
        end
    end.

(** [UpiController.getUpiPayoutStatus] *)
Definition getUpiPayoutStatus (E : Env) (payoutId : string) : outcome UpiPayoutStatus :=
  match getPayoutStatus E payoutId with
  | None => Threw (HttpError "Payout not found" 404)
  | Some payoutStatus => Ok payoutStatus
  end.

End UpiQuery.

(** ** PaymentService.ts against the table [payments] of the schema *)

Module Pg.
Import Ledger.

(** The statements [PaymentService] sends through [db.query]. *)
Inductive statement :=
| INSERT_payment     (* createPayment *)
| SELECT_payment     (* getPaymentById *)
| UPDATE_status      (* updatePaymentStatus *)
| UPDATE_payout.     (* updatePaymentPayout *)

(** The database during one request.  The schema of the repository (the
    SQL of the AptPay database schema, kept with TESTING_GUIDE.md)
    declares, for table [payments], [id UUID PRIMARY KEY], [merchant_id UUID
    REFERENCES merchants(id)], [amount_inr DECIMAL(15,2)],
    [stablecoin_amount DECIMAL(20,8)], [exchange_rate DECIMAL(10,4)],
    [wallet_address], [merchant_upi_id] and [aptos_transaction_hash]
    VARCHAR(255), [upi_payout_id UUID], and a trigger that sets [updated_at]
    to CURRENT_TIMESTAMP before every UPDATE of a row.

    How the server reads a value into a column of one of these types is not
    fixed here: [uuid_in], [numeric_in precision scale] and [varchar_in n]
    answer [None] when the server refuses the value, and otherwise the value
    it stores (the canonical text of the uuid, the rounded number, the
    text).  [answers st] is false when the query of statement [st] is
    rejected before the server has run it: no connection, a time-out.  A
    connection lost between the server running a statement and its answer
    is outside this model. *)
Record Server := {
  uuid_in : string -> option string;
  numeric_in : nat -> nat -> Q -> option Q;
  varchar_in : nat -> string -> option string;
  CURRENT_TIMESTAMP : Z;
  answers : statement -> bool
}.

(** What the promise of [db.query] is rejected with.  Whether it is an
    error of the server or of the pool, and its message, are not
    modelled. *)
Definition db_error : error := Failure "db.query".

(** The row the server makes of the VALUES list of [createPayment]; the
    four status texts fit VARCHAR(20). *)
Definition read_row (S : Server) (new_id : string) (now : Z) (data : CreatePaymentData)
    : option Payment :=
  match uuid_in S new_id, uuid_in S (cp_merchantId data) with
  | Some k, Some m =>
      match numeric_in S 15 2 (cp_amountINR data),
            numeric_in S 20 8 (cp_stablecoinAmount data),
            numeric_in S 10 4 (cp_exchangeRate data) with
      | Some a, Some s, Some r =>
          match varchar_in S 255 (cp_walletAddress data),
                varchar_in S 255 (cp_merchantUpiId data) with
          | Some wa, Some mu =>
              Some {| id := k; merchantId := m; amountINR := a;
                      stablecoinAmount := s; exchangeRate := r;
                      walletAddress := wa; merchantUpiId := mu;
                      status := cp_status data;
                      aptosTransactionHash := None; upiPayoutId := None;
                      createdAt := now; updatedAt := now |}
          | _, _ => None
          end
      | _, _, _ => None
      end
  | _, _ => None
  end.

(** [createPayment]: [new_id] is the value drawn from [uuidv4()], [now] the
    value of [new Date()], [merchants] the ids of table [merchants].  The
    INSERT is refused when a value is, when the merchant is not in
    [merchants] (foreign key) and when the id is taken (primary key). *)
Definition createPayment (S : Server) (new_id : string) (now : Z)
    (data : CreatePaymentData) (merchants : gset string) (db : gmap string Payment)
    : outcome Payment * gmap string Payment :=
  if negb (answers S INSERT_payment) then (Threw db_error, db)
  else
    match read_row S new_id now data with
    | None => (Threw db_error, db)
    | Some row =>
        if negb (bool_decide (merchantId row ∈ merchants)) then (Threw db_error, db)
        else
          match db !! id row with
          | Some _ => (Threw db_error, db)
          | None => (Ok row, <[id row := row]> db)
          end
    end.

(** [getPaymentById]: [Ok None] is [null]. *)
Definition getPaymentById (S : Server) (key : string) (db : gmap string Payment)
    : outcome (option Payment) :=
  if negb (answers S SELECT_payment) then Threw db_error
  else
    match uuid_in S key with
    | None => Threw db_error
    | Some k => Ok (db !! k)
    end.

(** The value of [aptos_transaction_hash] the UPDATE sets, if it sets one:
    [None] when the server refuses the hash. *)
Definition read_hash (S : Server) (hash : option string) : option (option string) :=
  match hash with
  | Some h => if String.eqb h "" then Some None else Some <$> varchar_in S 255 h
  | None => Some None
  end.

(** [updatePaymentStatus(id, status, aptosTransactionHash?)]; an [id] that
    is [undefined] is sent as NULL, and [WHERE id = NULL] matches no row.
    When no row matches, [result.rows[0]] is undefined and [mapRowToPayment]
    throws.  The trigger replaces the [updated_at] of the statement. *)
Definition updatePaymentStatus (S : Server) (key : option string) (s : PaymentStatus)
    (hash : option string) (db : gmap string Payment)
    : outcome Payment * gmap string Payment :=
  if negb (answers S UPDATE_status) then (Threw db_error, db)
  else
    match read_hash S hash with
    | None => (Threw db_error, db)
    | Some stored =>
        match key with
        | None => (Threw TypeError, db)
        | Some text =>
            match uuid_in S text with
            | None => (Threw db_error, db)
            | Some k =>
                match db !! k with
                | None => (Threw TypeError, db)
                | Some p =>
                    let p1 := set_status s (CURRENT_TIMESTAMP S) p in
                    let p2 := match stored with
                              | Some h => set_hash h p1
                              | None => p1
                              end in
                    (Ok p2, <[k := p2]> db)
                end
            end
        end
    end.

(** [updatePaymentPayout(id, upiPayoutId)] *)
Definition updatePaymentPayout (S : Server) (key : string) (payout : string)
    (db : gmap string Payment) : outcome Payment * gmap string Payment :=
  if negb (answers S UPDATE_payout) then (Threw db_error, db)
  else
    match uuid_in S payout, uuid_in S key with
    | Some c, Some k =>
        match db !! k with
        | None => (Threw TypeError, db)
        | Some p =>
            let p' := set_payout c (CURRENT_TIMESTAMP S) p in
            (Ok p', <[k := p']> db)
        end
    | _, _ => (Threw db_error, db)
    end.

(** A server that reads every value as it is and runs every statement. *)
Definition transparent (timestamp : Z) : Server :=
  {| uuid_in := Some; numeric_in := fun _ _ q => Some q;
     varchar_in := fun _ text => Some text;
     CURRENT_TIMESTAMP := timestamp; answers := fun _ => true |}.

End Pg.

(** ** PaymentController.ts and UpiController.ts over [Pg] *)

Module Backend.
Import Ledger Controllers.

(** Everything a request can change, and table [merchants], which no
    handler writes.  [PaymentController] owns its [OracleService], hence a
    rate cache of its own. *)
Record World := {
  core : Controllers.World;
  merchants : gset string;
  rates : gmap string Oracle.CacheEntry
}.

(** What surrounds a handler during one request.  [divide a b] is the
    number [a / b] of the runtime for [b] other than 0: the quotient, rounded
    to a double. *)
Record Env := {
  coreEnv : Controllers.Env;
  server : Pg.Server;
  oracleEnv : Oracle.Env;
  divide : Q -> Q -> Q;
  APTOS_ESCROW_ADDRESS : option string   (* process.env.APTOS_ESCROW_ADDRESS *)
}.

Definition with_core (c : Controllers.World) (w : World) : World :=
  {| core := c; merchants := merchants w; rates := rates w |}.

Definition with_rates (c : gmap string Oracle.CacheEntry) (w : World) : World :=
  {| core := core w; merchants := merchants w; rates := c |}.

(** *** POST /api/payment/initiate *)

Record InitiateBody := {
  in_merchantId : option string;
  in_amountINR : option Q;
  in_walletAddress : option string;
  in_merchantUpiId : option string
}.

Record InitiateReply := {
  ir_transactionId : string;
  ir_amountINR : Q;
  ir_stablecoinAmount : Q;
  ir_exchangeRate : Q;
  ir_escrowAddress : option string
}.

(** [initiatePayment].  The identifier [createPayment] takes from
    [uuidv4()] is drawn here.  The reply carries the numbers of the
    request, not those of the stored row. *)
Definition initiatePayment (E : Env) (body : InitiateBody) (w : World)
    : outcome InitiateReply * World :=
  if negb (truthy_str (in_merchantId body)) || negb (truthy_num (in_amountINR body))
     || negb (truthy_str (in_walletAddress body))
     || negb (truthy_str (in_merchantUpiId body))
  then (Threw (HttpError "Missing required fields" 400), w)
  else
    match in_merchantId body, in_amountINR body,
          in_walletAddress body, in_merchantUpiId body with
    | Some mid, Some amountINR, Some wallet, Some mupi =>
        let R := Oracle.getExchangeRate (oracleEnv E) "USDC" "INR" (rates w) in
        let w0 := with_rates (Oracle.cache R) w in
        match Oracle.value R with
        | Threw e => (Threw e, w0)
        | Ok exchangeRate =>
            let stablecoinAmount := divide E amountINR exchangeRate in
            let '(new_id, st) := Upi.draw_uuid (upiEnv (coreEnv E)) (upi (core w)) in
            match Pg.createPayment (server E) new_id (now (coreEnv E))
                    {| cp_merchantId := mid; cp_amountINR := amountINR;
                       cp_stablecoinAmount := stablecoinAmount;
                       cp_exchangeRate := exchangeRate;
                       cp_walletAddress := wallet; cp_merchantUpiId := mupi;
                       cp_status := pending |}
                    (merchants w) (payments (core w)) with
            | (Threw e, db) => (Threw e, with_core {| payments := db; upi := st |} w0)
            | (Ok payment, db) =>
                (Ok {| ir_transactionId := Ledger.id payment;
                       ir_amountINR := amountINR;
                       ir_stablecoinAmount := stablecoinAmount;
                       ir_exchangeRate := exchangeRate;
                       ir_escrowAddress := APTOS_ESCROW_ADDRESS E |},
                 with_core {| payments := db; upi := st |} w0)
            end
        end
    | _, _, _, _ => (Threw (HttpError "Missing required fields" 400), w)
    end.

(** *** GET /api/payment/status/:transactionId *)

Definition getPaymentStatus (E : Env) (transactionId : string) (w : World)
    : outcome Payment :=
  match Pg.getPaymentById (server E) transactionId (payments (core w)) with
  | Threw e => Threw e
  | Ok None => Threw (HttpError "Payment not found" 404)
  | Ok (Some payment) => Ok payment
  end.

(** *** POST /api/payment/confirm *)

Definition confirmPayment (E : Env) (body : ConfirmBody) (w : World)
    : outcome Payment * World :=
  if negb (truthy_str (cf_transactionId body))
     || negb (truthy_str (cf_aptosTransactionHash body))
  then (Threw (HttpError "Missing required fields" 400), w)
  else
    match cf_transactionId body, cf_aptosTransactionHash body with
    | Some tid, Some hash =>
        match verifyTransaction (coreEnv E) hash with
        | Threw e => (Threw e, w)
        | Ok false => (Threw (HttpError "Invalid transaction" 400), w)
        | Ok true =>
            match Pg.updatePaymentStatus (server E) (Some tid) confirmed (Some hash)
                    (payments (core w)) with
            | (Ok p, db) => (Ok p, with_core (with_payments db (core w)) w)
            | (Threw e, db) => (Threw e, with_core (with_payments db (core w)) w)
            end
        end
    | _, _ => (Threw (HttpError "Missing required fields" 400), w)
    end.

(** *** POST /api/upi/payout *)

(** The amount and the UPI id of the payout are those of the request; the
    stored payment is read for its status only. *)
Definition initiateUpiPayout (E : Env) (body : PayoutBody) (w : World)
    : outcome PayoutReply * World :=
  if negb (truthy_str (po_transactionId body))
     || negb (truthy_str (po_merchantUpiId body))
     || negb (truthy_num (po_amountINR body))
  then (Threw (HttpError "Missing required fields" 400), w)
  else
    match po_transactionId body, po_merchantUpiId body, po_amountINR body with
    | Some tid, Some mupi, Some amt =>
        match Pg.getPaymentById (server E) tid (payments (core w)) with
        | Threw e => (Threw e, w)
        | Ok None => (Threw (HttpError "Payment not found" 404), w)
        | Ok (Some payment) =>
            if negb (status_eqb (Ledger.status payment) confirmed)
            then (Threw (HttpError "Payment not confirmed yet" 400), w)
            else
              let request :=
                {| Upi.transactionId := tid; Upi.merchantUpiId := mupi;
                   Upi.amount := amt; Upi.currency := "INR" |} in
              match Upi.initiatePayout (upiEnv (coreEnv E)) request (upi (core w)) with
              | (Threw e, st) => (Threw e, with_core (with_upi st (core w)) w)
              | (Ok payout, st) =>
                  let c1 := with_upi st (core w) in
                  match Pg.updatePaymentPayout (server E) tid (Upi.payoutId payout)
                          (payments c1) with
                  | (Threw e, db) => (Threw e, with_core (with_payments db c1) w)
                  | (Ok _, db) =>
                      (Ok {| pr_payoutId := Upi.payoutId payout;
                             pr_status := Upi.status payout;
                             pr_message := "UPI payout initiated successfully" |},
                       with_core (with_payments db c1) w)
                  end
              end
        end
    | _, _, _ => (Threw (HttpError "Missing required fields" 400), w)
    end.

(** *** POST /api/upi/webhook *)

Definition handleUpiWebhook (E : Env) (req : WebhookRequest) (w : World)
    : outcome unit * World :=
  let paymentStatus := webhook_paymentStatus (wh_status req) in
  match Pg.updatePaymentStatus (server E) (wh_transactionId req) paymentStatus None
          (payments (core w)) with
  | (Ok _, db) => (Ok tt, with_core (with_payments db (core w)) w)
  | (Threw e, db) => (Threw e, with_core (with_payments db (core w)) w)
  end.

(** *** Requests to the three handlers that update a payment *)

(** What a request is answered with: [None] is [res.json], [Some e] is
    [next(e)]. *)
Definition answer {A} (o : outcome A) : option error :=
  match o with
  | Ok _ => None
  | Threw e => Some e
  end.

Definition serve (E : Env) (rq : Run.request) (w : World) : option error * World :=
  match rq with
  | Run.Payout body =>
      let '(o, w') := initiateUpiPayout E body w in (answer o, w')
  | Run.Webhook req =>
      let '(o, w') := handleUpiWebhook E req w in (answer o, w')
  | Run.Confirm body =>
      let '(o, w') := confirmPayment E body w in (answer o, w')
  end.

Fixpoint run (trace : list (Env * Run.request)) (w : World) : World :=
  match trace with
  | [] => w
  | (E, rq) :: rest => run rest (snd (serve E rq w))
  end.

(** The row a request names, as the server reads the id. *)
Definition target_row (E : Env) (rq : Run.request) : option string :=
  match Run.target rq with
  | Some tid => Pg.uuid_in (server E) tid
  | None => None
  end.

End Backend.

(** ** OracleService : the remaining operations *)

Module OracleOps.
Import Oracle.

(** [convertAmount] *)
Definition convertAmount (amount : Q) (fromCurrency toCurrency : string) (rate : Q) : Q :=
  if String.eqb fromCurrency toCurrency then amount else (amount * rate)%Q.

Record Conversion := { convertedAmount : Q; conv_rate : Q }.

(** [convertAmountWithCurrentRate]: the conversion, and the cache afterwards. *)
Definition convertAmountWithCurrentRate (E : Env) (amount : Q)
    (fromCurrency toCurrency : string) (c : gmap string CacheEntry)
    : outcome Conversion * gmap string CacheEntry :=
  let R := getExchangeRate E fromCurrency toCurrency c in
  match value R with
  | Threw e => (Threw e, cache R)
  | Ok rate =>
      (Ok {| convertedAmount := convertAmount amount fromCurrency toCurrency rate;
             conv_rate := rate |}, cache R)
  end.

(** [getCacheStats().size] *)
Definition cache_size (c : gmap string CacheEntry) : nat := size c.

(** Calls of [getExchangeRate] one after the other on the same service. *)
Fixpoint run (calls : list (Env * (string * string))) (c : gmap string CacheEntry)
    : gmap string CacheEntry :=
  match calls with
  | [] => c
  | (E, (f, t)) :: rest => run rest (cache (getExchangeRate E f t c))
  end.

(** Every cached key is one of the two supported pairs. *)
Definition supported_keys (c : gmap string CacheEntry) : Prop :=
  forall k, is_Some (c !! k) -> k = "USDC-INR" \/ k = "INR-USDC".

(** No cached rate is zero. *)
Definition nonzero_rates (c : gmap string CacheEntry) : Prop :=
  forall k e, c !! k = Some e -> Qeq_bool (rate e) 0 = false.

Definition supported (f t : string) : bool :=
  (String.eqb f "USDC" && String.eqb t "INR")
  || (String.eqb f "INR" && String.eqb t "USDC").

End OracleOps.

(** ** aptosService.ts : address helpers of the client *)

Module Aptos.
Import Scanner.

(** [s.slice(0, n)] *)
Fixpoint take (n : nat) (s : string) : string :=
  match n, s with
  | S n', String c r => String c (take n' r)
  | _, _ => EmptyString
  end.

(** [s.slice(-n)] *)
Definition take_last (n : nat) (s : string) : string :=
  drop (String.length s - n) s.

(** [AptosService.formatAddress] *)
Definition formatAddress (address : string) : string :=
  if (String.length address <=? 10)%nat then address
  else take 6 address +:+ "..." +:+ take_last 4 address.

(** [formatAddress] of WalletConnect.tsx; [None] is a missing address. *)
Definition WalletConnect_formatAddress (address : option string) : string :=
  match address with
  | Some a =>
      if String.eqb a "" then "Unknown"
      else take 6 a +:+ "..." +:+ take_last 4 a
  | None => "Unknown"
  end.

Definition is_hex (c : ascii) : bool :=
  match hex_value c with Some _ => true | None => false end.

(** [/^[0-9a-fA-F]{1,64}$/.test(s)] *)
Definition hex_1_64 (s : string) : bool :=
  all_chars is_hex s && (1 <=? String.length s)%nat && (String.length s <=? 64)%nat.

(** [AptosService.isValidAddress] *)
Definition isValidAddress (address : string) : bool :=
  let cleanAddress := if startsWith address "0x" then drop 2 address else address in
  hex_1_64 cleanAddress.

End Aptos.

(** ** More concrete scenarios *)

Module Scenario2.
Import Ledger Controllers Scenario.

(** Mock mode, with a random draw of 0.95. *)
Definition mock_upiEnv : Upi.Env :=
  {| Upi.uuidv4 := sample_uuid;
     Upi.use_mock := true;
     Upi.Math_random := 95 # 100;
     Upi.Date_now := 5000;
     Upi.axios_post_payouts := fun _ => Threw (Failure "ECONNREFUSED");
     Upi.secretKey := "demo_secret_key";
     Upi.hmac_sha256_hex := fun key payload => key +:+ payload |}.

Definition mock_query : UpiQuery.Env :=
  {| UpiQuery.base := mock_upiEnv;
     UpiQuery.axios_get_payout := fun _ => Threw (Failure "ECONNREFUSED") |}.

Definition live_query : UpiQuery.Env :=
  {| UpiQuery.base := sample_upiEnv;
     UpiQuery.axios_get_payout := fun _ => Threw (Failure "ECONNREFUSED") |}.

(** A server that takes a uuid written in the canonical form, in either
    case, rounds a number half away from zero to the scale of the column
    and takes a text that fits. *)
Fixpoint uuid_shape (i : nat) (s : string) : bool :=
  match s with
  | EmptyString => (i =? 36)%nat
  | String c r =>
      (if (i =? 8)%nat || (i =? 13)%nat || (i =? 18)%nat || (i =? 23)%nat
       then Ascii.eqb c "-" else Aptos.is_hex c)
      && uuid_shape (S i) r
  end.

Definition canonical_uuid (s : string) : option string :=
  if uuid_shape 0 s then Some (Scanner.toLowerCase s) else None.

Definition round_half_away (scale : nat) (q : Q) : Q :=
  let unit := inject_Z (10 ^ Z.of_nat scale) in
  let n := Qfloor (Qabs q * unit + (1 # 2)) in
  Qred (inject_Z (Z.sgn (Qnum q) * n) / unit).

Definition decimal (precision scale : nat) (q : Q) : option Q :=
  let r := round_half_away scale q in
  if Qle_bool (inject_Z (10 ^ Z.of_nat (precision - scale))) (Qabs r) then None
  else Some r.

Definition fits (n : nat) (s : string) : option string :=
  if (String.length s <=? n)%nat then Some s else None.

Definition sample_server (up : Pg.statement -> bool) : Pg.Server :=
  {| Pg.uuid_in := canonical_uuid; Pg.numeric_in := decimal; Pg.varchar_in := fits;
     Pg.CURRENT_TIMESTAMP := 5001; Pg.answers := up |}.

Definition always (st : Pg.statement) : bool := true.


Definition id_a : string := "3f2b8c1e-5a4d-4e6f-8a9b-0c1d2e3f4a5b".
Definition id_b : string := "7c9e6679-7425-40de-944b-e07fc1f90ae7".
Definition id_unknown : string := "0e37df36-f698-41d4-a716-446655440000".
Definition merchant_a : string := "1b4e28ba-2fa1-41d2-883f-0016d3cca427".

Definition uuid4_supply (n : nat) : string :=
  nth n ["a1a2a3a4-b1b2-4c1c-8d1d-e1e2e3e4e5e6";
         "f47ac10b-58cc-4372-a567-0e02b2c3d479";
         "9b2e5f6a-7c8d-4e0f-9a1b-2c3d4e5f6a7b"]
        "ffffffff-ffff-4fff-bfff-ffffffffffff".

(** The provider is unreachable. *)
Definition uuid4_upiEnv : Upi.Env :=
  {| Upi.uuidv4 := uuid4_supply;
     Upi.use_mock := false;
     Upi.Math_random := 1 # 2;
     Upi.Date_now := 5000;
     Upi.axios_post_payouts := fun _ => Threw (Failure "ECONNREFUSED");
     Upi.secretKey := "demo_secret_key";
     Upi.hmac_sha256_hex := fun key payload => key +:+ payload |}.

(** CoinGecko answers 83.123456. *)
Definition coingecko_up : Oracle.Env :=
  {| Oracle.Date_now := 5000; Oracle.new_Date := 5000;
     Oracle.coingecko := Some (83123456 # 1000000);
     Oracle.exchangerate_api := None |}.

Definition backend_env (up : Pg.statement -> bool) (rate_sources : Oracle.Env)
    : Backend.Env :=
  {| Backend.coreEnv := {| upiEnv := uuid4_upiEnv; now := 5000;
                           verifyTransaction := fun _ => Ok true |};
     Backend.server := sample_server up;
     Backend.oracleEnv := rate_sources;
     Backend.divide := Qdiv;
     Backend.APTOS_ESCROW_ADDRESS := Some "0xe5c" |}.

Definition row (key : string) (s : PaymentStatus) : Payment :=
  {| id := key; merchantId := merchant_a;
     amountINR := 840 # 1; stablecoinAmount := 10 # 1; exchangeRate := 84 # 1;
     walletAddress := "0xabc"; merchantUpiId := "shop@upi";
     status := s; aptosTransactionHash := None; upiPayoutId := None;
     createdAt := 1000; updatedAt := 1000 |}.

(** Two payments of one merchant, the first with status [s]. *)
Definition two_payments (s : PaymentStatus) : Backend.World :=
  {| Backend.core :=
       {| payments := <[id_a := row id_a s]> {[ id_b := row id_b pending ]};
          upi := {| Upi.uuid_calls := 0; Upi.provider_log := [] |} |};
     Backend.merchants := {[ merchant_a ]};
     Backend.rates := ∅ |}.

(** One merchant and no payment yet. *)
Definition no_payment : Backend.World :=
  {| Backend.core := {| payments := ∅;
                        upi := {| Upi.uuid_calls := 0; Upi.provider_log := [] |} |};
     Backend.merchants := {[ merchant_a ]};
     Backend.rates := ∅ |}.

Definition initiate_body : Backend.InitiateBody :=
  {| Backend.in_merchantId := Some merchant_a;
     Backend.in_amountINR := Some (840 # 1);
     Backend.in_walletAddress := Some "0xabc";
     Backend.in_merchantUpiId := Some "shop@upi" |}.

Definition payout_of (tid : string) : PayoutBody :=
  {| po_transactionId := Some tid; po_merchantUpiId := Some "shop@upi";
     po_amountINR := Some (840 # 1) |}.

Definition confirm_of (tid h : string) : ConfirmBody :=
  {| cf_transactionId := Some tid; cf_aptosTransactionHash := Some h |}.

Definition webhook_of (tid st : string) : WebhookRequest :=
  {| wh_payoutId := None; wh_status := Some st; wh_transactionId := Some tid;
     wh_rawBody := "{}"; wh_signature := None |}.

End Scenario2.

(** ** Shapes of parsed values *)

Module Shape.
Import Scanner.

(** The string matches [/^\d+(\.\d+)?$/]. *)
Definition is_decimal (m : string) : bool :=
  match span_digits m with
  | (EmptyString, _) => false
  | (_, EmptyString) => true
  | (_, String c r) =>
      Ascii.eqb c "." &&
      match span_digits r with
      | (EmptyString, _) => false
      | (_, EmptyString) => true
      | (_, String _ _) => false
      end
  end.

End Shape.

(** ** UPIQRScanner.tsx : the JSON dialect *)

Module Json.

Local Unset Elimination Schemes.

(** A value produced by [JSON.parse]. *)
Inductive jsval :=
| JNull
| JBool (b : bool)
| JNum (q : Q)
| JStr (s : string)
| JArr (items : list jsval)
| JObj (fields : list (string * jsval)).

Local Set Elimination Schemes.

(** Truthiness; [None] is [undefined]. *)
Definition truthy (v : option jsval) : bool :=
  match v with
  | None | Some JNull => false
  | Some (JBool b) => b
  | Some (JNum q) => negb (Qeq_bool q 0)
  | Some (JStr s) => negb (String.eqb s "")
  | Some (JArr _) | Some (JObj _) => true
  end.

Fixpoint lookup (fields : list (string * jsval)) (key : string) : option jsval :=
  match fields with
  | [] => None
  | (k, v) :: rest => if String.eqb k key then Some v else lookup rest key
  end.

(** [v.key] for a value [v] other than [null]: only objects have the keys
    the parser reads. *)
Definition prop (v : jsval) (key : string) : option jsval :=
  match v with
  | JObj fields => lookup fields key
  | _ => None
  end.

(** [a || b] where [b] is not [undefined]. *)
Definition or_value (a : option jsval) (b : jsval) : jsval :=
  match a with
  | Some v => if truthy (Some v) then v else b
  | None => b
  end.

(** The functions of the runtime: [JSON.parse] ([None] when it throws),
    [JSON.stringify], and [toString()] on a value that is not a string. *)
Record Runtime := {
  JSON_parse : string -> option jsval;
  JSON_stringify : jsval -> string;
  value_toString : jsval -> outcome string
}.

Definition to_string (rt : Runtime) (v : jsval) : outcome string :=
  match v with
  | JStr s => Ok s
  | _ => value_toString rt v
  end.

(** The object [parseJSONUPIFormat] returns: the fields copied from the
    JSON data keep the type they have there. *)
Record JsonUPIData := {
  j_payeeAddress : jsval;
  j_payeeName : jsval;
  j_amount : string;
  j_transactionNote : jsval;
  j_merchantCode : jsval;
  j_transactionRef : string;
  j_rawData : string
}.

(** [parseJSONUPIFormat] *)
Definition parseJSONUPIFormat (rt : Runtime) (jsonData : jsval) : option JsonUPIData :=
  match jsonData with
  | JNull => None     (* reading a key of null throws, caught *)
  | _ =>
      let payeeAddress :=
        or_value (prop jsonData "upi")
          (or_value (prop jsonData "vpa")
             (or_value (prop jsonData "payeeAddress") (JStr ""))) in
      let payeeName :=
        or_value (prop jsonData "name")
          (or_value (prop jsonData "merchantName")
             (or_value (prop jsonData "payeeName") (JStr "Unknown Merchant"))) in
      let amount :=
        or_value (prop jsonData "amount") (or_value (prop jsonData "am") (JStr "")) in
      let transactionNote :=
        or_value (prop jsonData "note")
          (or_value (prop jsonData "tn")
             (or_value (prop jsonData "description") (JStr ""))) in
      let merchantCode :=
        or_value (prop jsonData "merchantCode")
          (or_value (prop jsonData "mc")
             (or_value (prop jsonData "mid") (JStr ""))) in
      if negb (truthy (Some payeeAddress)) then None
      else
        match to_string rt amount with
        | Threw _ => None
        | Ok amount_text =>
            Some {| j_payeeAddress := payeeAddress;
                    j_payeeName := payeeName;
                    j_amount := amount_text;
                    j_transactionNote := transactionNote;
                    j_merchantCode := merchantCode;
                    j_transactionRef := "";
                    j_rawData := JSON_stringify rt jsonData |}
        end
  end.

(** The JSON branch of [parseUPIQRCode]. *)
Definition json_branch (rt : Runtime) (data : string) : option JsonUPIData :=
  match JSON_parse rt data with
  | None => None
  | Some JNull => None   (* reading a key of null throws, caught *)
  | Some jsonData =>
      if truthy (Some (or_value (prop jsonData "upi")
                         (or_value (prop jsonData "vpa")
                            (or_value (prop jsonData "payeeAddress") JNull))))
      then parseJSONUPIFormat rt jsonData
      else None
  end.

Definition quoted (s : string) : string := String "034" s +:+ String "034" "".

(** The text of the object with key vpa, value a@b, and key amount,
    value 50. *)
Definition vpa_text : string :=
  "{" +:+ quoted "vpa" +:+ ":" +:+ quoted "a@b" +:+ ","
      +:+ quoted "amount" +:+ ":50}".

(** A runtime that reads [vpa_text] as that object and prints the number 50
    as the text 50. *)
Definition vpa_runtime : Runtime :=
  {| JSON_parse := fun s =>
       if String.eqb s vpa_text
       then Some (JObj [("vpa", JStr "a@b"); ("amount", JNum (50 # 1))])
       else None;
     JSON_stringify := fun _ => vpa_text;
     value_toString := fun v =>
       match v with
       | JNum q => if Qeq_bool q (50 # 1) then Ok "50" else Threw TypeError
       | _ => Threw TypeError
       end |}.

End Json.

(** ** UPIQRScanner.tsx : the four dialects together *)

Module Dialects.

(** What [parseUPIQRCode] returns: an intent whose fields are strings, or,
    out of the JSON dialect, one whose fields keep their JSON types. *)
Inductive Intent :=
| Textual (r : Scanner.UPIData)
| OfJson (r : Json.JsonUPIData).

(** [parseUPIQRCode], with its JSON branch.  For a text that begins with
    upi://pay, [Scanner.parseUPIQRCode] is the inline branch. *)
Definition parseUPIQRCode (P : Scanner.Platform) (rt : Json.Runtime) (data : string)
    : option Intent :=
  if Scanner.startsWith data "upi://pay" then
    Textual <$> Scanner.parseUPIQRCode P data
  else if Scanner.includes (Scanner.toLowerCase data) "upi://pay?"
          || Scanner.includes (Scanner.toLowerCase data) "upiqr" then
    Textual <$> Scanner.parseUPIURL P data
  else if Scanner.includes data "@" &&
          (Scanner.includes data "paytm" || Scanner.includes data "phonepe"
           || Scanner.includes data "gpay" || Scanner.includes data "ybl") then
    Textual <$> Scanner.parseAlternativeUPIFormat data
  else OfJson <$> Json.json_branch rt data.

End Dialects.

(** ** TestQRCode.tsx : the generator of the test QR code *)

Module TestQR.
Import Scanner.

(** Bytes that [URLSearchParams.prototype.toString] leaves as they are. *)
Definition is_unreserved (c : ascii) : bool :=
  is_alpha c || is_digit c || Ascii.eqb c "*" || Ascii.eqb c "-"
  || Ascii.eqb c "." || Ascii.eqb c "_".

Definition hex_digit (n : N) : ascii :=
  if (n <? 10)%N then ascii_of_N (48 + n) else ascii_of_N (55 + n).

Definition serialize_byte (c : ascii) : string :=
  if is_unreserved c then String c EmptyString
  else if Ascii.eqb c " " then "+"
  else String "%" (String (hex_digit (code c / 16))
                     (String (hex_digit (code c mod 16)) EmptyString)).

Fixpoint urlencode (s : string) : string :=
  match s with
  | EmptyString => EmptyString
  | String c r => serialize_byte c +:+ urlencode r
  end.

Fixpoint join_amp (segments : list string) : string :=
  match segments with
  | [] => EmptyString
  | [x] => x
  | x :: rest => x +:+ "&" +:+ join_amp rest
  end.

Definition serialize_pair (kv : string * string) : string :=
  urlencode (fst kv) +:+ "=" +:+ urlencode (snd kv).

(** [new URLSearchParams(pairs).toString()] *)
Definition URLSearchParams_toString (pairs : list (string * string)) : string :=
  join_amp (map serialize_pair pairs).

(** [generateRealUPIQR]; [Date_now] is the value of [Date.now()], an
    integer that [+] prints in decimal. *)
Definition generateRealUPIQR (Date_now : Z) : string :=
  "upi://pay?" +:+
  URLSearchParams_toString
    [("pa", "testcoffeeshop@paytm"); ("pn", "Test Coffee Shop");
     ("am", "100.00"); ("tn", "Coffee and Snacks"); ("mc", "COFFEE001");
     ("tr", "TXN" +:+ Upi.decimal_of_Z Date_now)].

(** The characters a serialized query is made of. *)
Definition is_query_char (c : ascii) : bool :=
  is_unreserved c || Ascii.eqb c "+" || Ascii.eqb c "%"
  || Ascii.eqb c "=" || Ascii.eqb c "&".

Definition is_value_char (c : ascii) : bool :=
  is_unreserved c || Ascii.eqb c "+" || Ascii.eqb c "%".

End TestQR.

(** * Properties *)

Import Ledger Controllers Scenario.

(** ** Ledger *)

Lemma set_hash_same (h : string) (p : Payment) :
  aptosTransactionHash p = Some h -> set_hash h p = p.
Proof. destruct p; simpl; intros ->; reflexivity. Qed.

Lemma updatePaymentStatus_found key s hash now db p :
  db !! key = Some p ->
  exists p', updatePaymentStatus key s hash now db = (Ok p', <[key := p']> db)
             /\ Ledger.status p' = s /\ updatedAt p' = now
             /\ upiPayoutId p' = upiPayoutId p.
Proof.
  intros Hp. unfold updatePaymentStatus. rewrite Hp.
  destruct hash as [h|]; simpl.
  - destruct (String.eqb h ""); simpl; eexists; split; eauto.
  - eexists; split; eauto.
Qed.

Lemma updatePaymentStatus_missing key s hash now db :
  db !! key = None -> updatePaymentStatus key s hash now db = (Threw TypeError, db).
Proof. intros Hp. unfold updatePaymentStatus. by rewrite Hp. Qed.

Lemma truthy_str_Some (s : string) : s <> "" -> truthy_str (Some s) = true.
Proof.
  intros Hs. simpl. destruct (String.eqb_spec s ""); [contradiction | reflexivity].
Qed.

Lemma webhook_paymentStatus_other (st : option string) :
  st <> Some "SUCCESS" -> st <> Some "FAILED" -> webhook_paymentStatus st = pending.
Proof.
  intros H1 H2. destruct st as [s|]; simpl; [|reflexivity].
  destruct (String.eqb_spec s "SUCCESS") as [->|_]; [contradiction|].
  destruct (String.eqb_spec s "FAILED") as [->|_]; [contradiction|reflexivity].
Qed.

(** The handler's result does not depend on the raw body or on the
    signature header of the request. *)
Lemma handleUpiWebhook_ignores_signature E req raw sig w :
  handleUpiWebhook E req w =
  handleUpiWebhook E {| wh_payoutId := wh_payoutId req; wh_status := wh_status req;
                        wh_transactionId := wh_transactionId req;
                        wh_rawBody := raw; wh_signature := sig |} w.
Proof. reflexivity. Qed.

Lemma longer_string_differs (d : string) : String.eqb ("x" +:+ d) d = false.
Proof.
  apply String.eqb_neq. intros H.
  apply (f_equal String.length) in H. change ("x" +:+ d) with (String "x" d) in H.
  simpl in H. lia.
Qed.

(** C1.  A webhook whose signature header is not the HMAC-SHA256 digest of
    its raw body is applied all the same: whatever the digest function and
    the raw body, the request carrying a header one character longer than
    the expected digest fails [verifyWebhookSignature], and
    [handleUpiWebhook] moves the pending payment it names to [completed]. *)
Theorem webhook_applied_without_valid_signature :
  forall (E : Env) (raw : string),
    let forged := "x" +:+ Upi.hmac_sha256_hex (upiEnv E) (Upi.secretKey (upiEnv E)) raw in
    let req := {| wh_payoutId := Some "po1"; wh_status := Some "SUCCESS";
                  wh_transactionId := Some "tx1";
                  wh_rawBody := raw; wh_signature := Some forged |} in
    let w := sample_world (sample_payment pending None) in
    Upi.verifyWebhookSignature (upiEnv E) raw forged = false
    /\ fst (handleUpiWebhook E req w) = Ok tt
    /\ status_of "tx1" w = Some pending
    /\ status_of "tx1" (snd (handleUpiWebhook E req w)) = Some completed.
Proof.
  intros E raw forged req w. split; [apply longer_string_differs|].
  repeat split; reflexivity.
Qed.

(** C2, as the specification states it, fails: a webhook whose status is
    neither SUCCESS nor FAILED takes a completed payment back to [pending],
    a confirmation takes a failed payment to [confirmed], and a SUCCESS
    webhook takes a pending payment straight to [completed]. *)
Lemma terminal_statuses_refuted :
  status_of "tx1" (run_op sample_env (OpWebhook (webhook "PENDING"))
                     (sample_world (sample_payment completed (Some "0xh"))))
    = Some pending
  /\ status_of "tx1" (run_op sample_env (OpConfirm (confirm_body "0xh"))
                        (sample_world (sample_payment failed None)))
    = Some confirmed
  /\ status_of "tx1" (run_op sample_env (OpWebhook (webhook "SUCCESS"))
                        (sample_world (sample_payment pending None)))
    = Some completed
  /\ ~ terminal_statuses_spec.
Proof.
  split; [reflexivity|]. split; [reflexivity|]. split; [reflexivity|].
  intros Hspec.
  destruct (Hspec sample_env (OpWebhook (webhook "PENDING"))
                  (sample_world (sample_payment completed (Some "0xh"))) "tx1")
    as [Hterm _].
  specialize (Hterm (or_introl eq_refl)). discriminate Hterm.
Qed.

(** C2, amended.  No status is terminal in the ledger: for a payment that
    exists, whatever its current status, [handleUpiWebhook] stores the
    status that the webhook's status field maps to ([completed] for SUCCESS,
    [failed] for FAILED, [pending] otherwise) and [confirmPayment] with a
    verified hash stores [confirmed]. *)
Theorem ledger_status_is_overwritten :
  forall (E : Env) (w : World) (tid : string) (p : Payment),
    payments w !! tid = Some p ->
    (forall req, wh_transactionId req = Some tid ->
       status_of tid (run_op E (OpWebhook req) w)
       = Some (webhook_paymentStatus (wh_status req)))
    /\ (forall hash, tid <> "" -> hash <> "" ->
          verifyTransaction E hash = Ok true ->
          status_of tid
            (run_op E (OpConfirm {| cf_transactionId := Some tid;
                                    cf_aptosTransactionHash := Some hash |}) w)
          = Some confirmed).
Proof.
  intros E w tid p Hp. split.
  - intros req Htid. unfold run_op, handleUpiWebhook. rewrite Htid.
    destruct (updatePaymentStatus_found tid (webhook_paymentStatus (wh_status req))
                None (now E) (payments w) p Hp) as (p' & -> & Hs & _).
    unfold status_of; simpl. rewrite lookup_insert_eq. simpl. by rewrite Hs.
  - intros hash Ht Hh Hv. unfold run_op, confirmPayment.
    cbn [cf_transactionId cf_aptosTransactionHash].
    rewrite !truthy_str_Some by assumption. simpl. rewrite Hv.
    destruct (updatePaymentStatus_found tid confirmed (Some hash) (now E)
                (payments w) p Hp) as (p' & -> & Hs & _).
    unfold status_of; simpl. rewrite lookup_insert_eq. simpl. by rewrite Hs.
Qed.

Lemma ledger_status_is_overwritten_witness :
  status_of "tx1" (run_op sample_env (OpWebhook (webhook "PENDING"))
                     (sample_world (sample_payment completed (Some "0xh"))))
  = Some (webhook_paymentStatus (Some "PENDING")).
Proof.
  apply (proj1 (ledger_status_is_overwritten sample_env
                  (sample_world (sample_payment completed (Some "0xh"))) "tx1"
                  (sample_payment completed (Some "0xh")) eq_refl)
               (webhook "PENDING")).
  reflexivity.
Defined.

(** C3, as the specification states it, fails: confirming a completed
    payment again with the hash it carries sets it back to [confirmed]. *)
Lemma idempotent_confirmation_refuted :
  status_of "tx1" (snd (confirmPayment sample_env (confirm_body "0xh")
                          (sample_world (sample_payment completed (Some "0xh")))))
    = Some confirmed
  /\ ~ idempotent_confirmation_spec.
Proof.
  split; [reflexivity|]. intros Hspec.
  assert (Ht : "tx1" <> "") by discriminate.
  assert (Hh : "0xh" <> "") by discriminate.
  destruct (Hspec sample_env (sample_world (sample_payment completed (Some "0xh")))
                  "tx1" "0xh" (sample_payment completed (Some "0xh"))
                  eq_refl (or_intror eq_refl) eq_refl Ht Hh eq_refl)
    as (_ & Hst & _).
  discriminate Hst.
Qed.

(** C3, amended.  Confirming again, with the hash it already carries, a
    payment that is [confirmed] or [completed] succeeds, makes no payout call
    and draws no payout identifier, and leaves the payment with status
    [confirmed], the same hash and every other field but [updatedAt] as it
    was; for an already confirmed payment the status is therefore
    unchanged. *)
Theorem reconfirmation_keeps_confirmed :
  forall (E : Env) (w : World) (tid hash : string) (p : Payment),
    payments w !! tid = Some p ->
    Ledger.status p = confirmed \/ Ledger.status p = completed ->
    aptosTransactionHash p = Some hash ->
    tid <> "" -> hash <> "" ->
    verifyTransaction E hash = Ok true ->
    let body := {| cf_transactionId := Some tid;
                   cf_aptosTransactionHash := Some hash |} in
    let p' := set_status confirmed (now E) p in
    confirmPayment E body w
      = (Ok p', with_payments (<[tid := p']> (payments w)) w)
    /\ upi (snd (confirmPayment E body w)) = upi w
    /\ status_of tid (snd (confirmPayment E body w)) = Some confirmed
    /\ (Ledger.status p = confirmed ->
        status_of tid (snd (confirmPayment E body w)) = status_of tid w).
Proof.
  intros E w tid hash p Hp _ Hhash Ht Hh Hv body p'.
  assert (Hrun : confirmPayment E body w
                 = (Ok p', with_payments (<[tid := p']> (payments w)) w)).
  { unfold confirmPayment, body. cbn [cf_transactionId cf_aptosTransactionHash].
    rewrite !truthy_str_Some by assumption. simpl. rewrite Hv.
    unfold updatePaymentStatus. rewrite Hp, truthy_str_Some by assumption.
    rewrite set_hash_same by exact Hhash. reflexivity. }
  rewrite Hrun. split; [reflexivity|]. split; [reflexivity|].
  assert (Hst : status_of tid (with_payments (<[tid := p']> (payments w)) w)
                = Some confirmed).
  { unfold status_of; simpl. by rewrite lookup_insert_eq. }
  split; [exact Hst|].
  intros Hc. simpl. rewrite Hst. unfold status_of. rewrite Hp. simpl. by rewrite Hc.
Qed.

Lemma reconfirmation_keeps_confirmed_witness :
  status_of "tx1" (snd (confirmPayment sample_env (confirm_body "0xh")
                          (sample_world (sample_payment confirmed (Some "0xh")))))
  = Some confirmed.
Proof.
  assert (Hv : verifyTransaction sample_env "0xh" = Ok true) by reflexivity.
  assert (Ht : "tx1" <> "") by discriminate.
  assert (Hh : "0xh" <> "") by discriminate.
  exact (proj1 (proj2 (proj2
    (reconfirmation_keeps_confirmed sample_env
       (sample_world (sample_payment confirmed (Some "0xh"))) "tx1" "0xh"
       (sample_payment confirmed (Some "0xh"))
       eq_refl (or_introl eq_refl) eq_refl Ht Hh Hv)))).
Defined.

Lemma status_eqb_eq (a b : PaymentStatus) : status_eqb a b = true <-> a = b.
Proof. destruct a, b; simpl; split; intros H; try reflexivity; discriminate H. Qed.

(** C6.  [initiateUpiPayout] answers with success only when the request
    names a payment that exists with status [confirmed]; when the payment
    does not exist or has another status it rejects with an error and leaves
    the ledger and the payout state untouched: no request is sent to the
    provider. *)
Theorem initiateUpiPayout_only_when_confirmed :
  forall (E : Env) (body : PayoutBody) (w : World),
    (forall r w', initiateUpiPayout E body w = (Ok r, w') ->
       exists tid p, po_transactionId body = Some tid
                     /\ payments w !! tid = Some p
                     /\ Ledger.status p = confirmed)
    /\ (forall tid, po_transactionId body = Some tid ->
          (payments w !! tid = None
           \/ exists p, payments w !! tid = Some p /\ Ledger.status p <> confirmed) ->
          exists e, initiateUpiPayout E body w = (Threw e, w)
                    /\ Upi.provider_log (upi (snd (initiateUpiPayout E body w)))
                       = Upi.provider_log (upi w)).
Proof.
  intros E body w. split.
  - intros r w'. unfold initiateUpiPayout, getPaymentById.
    destruct (_ || _); [discriminate|].
    destruct (po_transactionId body) as [tid|]; [|discriminate].
    destruct (po_merchantUpiId body) as [mupi|]; [|discriminate].
    destruct (po_amountINR body) as [amt|]; [|discriminate].
    destruct (payments w !! tid) as [p|] eqn:Hp; [|discriminate].
    destruct (status_eqb (Ledger.status p) confirmed) eqn:Hs; [|discriminate].
    intros _. exists tid, p. repeat split; [exact Hp|]. by apply status_eqb_eq.
  - intros tid Htid Hbad.
    assert (Hrej : exists e, initiateUpiPayout E body w = (Threw e, w)).
    { unfold initiateUpiPayout, getPaymentById. rewrite Htid.
      destruct (_ || _); [eauto|].
      destruct (po_merchantUpiId body) as [mupi|]; [|eauto].
      destruct (po_amountINR body) as [amt|]; [|eauto].
      destruct Hbad as [-> | (p & -> & Hne)]; [eauto|].
      destruct (status_eqb (Ledger.status p) confirmed) eqn:Hs; [|eauto].
      apply status_eqb_eq in Hs. contradiction. }
    destruct Hrej as (e & He). exists e. rewrite He. split; reflexivity.
Qed.

Lemma initiateUpiPayout_only_when_confirmed_witness :
  exists e, initiateUpiPayout sample_env payout_body
              (sample_world (sample_payment pending None))
            = (Threw e, sample_world (sample_payment pending None))
            /\ Upi.provider_log
                 (upi (snd (initiateUpiPayout sample_env payout_body
                              (sample_world (sample_payment pending None)))))
               = Upi.provider_log (upi (sample_world (sample_payment pending None))).
Proof.
  apply (proj2 (initiateUpiPayout_only_when_confirmed sample_env payout_body
                  (sample_world (sample_payment pending None))) "tx1").
  - reflexivity.
  - right. exists (sample_payment pending None). split; [reflexivity | discriminate].
Defined.

(** C8.  For a webhook whose status field is neither SUCCESS nor FAILED,
    [handleUpiWebhook] answers with success and stores status [pending] on
    the payment it names, whatever status that payment had. *)
Theorem webhook_other_status_sets_pending :
  forall (E : Env) (req : WebhookRequest) (w : World) (tid : string) (p : Payment),
    wh_transactionId req = Some tid ->
    payments w !! tid = Some p ->
    wh_status req <> Some "SUCCESS" ->
    wh_status req <> Some "FAILED" ->
    handleUpiWebhook E req w
    = (Ok tt, with_payments (<[tid := set_status pending (now E) p]> (payments w)) w)
    /\ status_of tid (snd (handleUpiWebhook E req w)) = Some pending.
Proof.
  intros E req w tid p Htid Hp H1 H2.
  assert (Hrun : handleUpiWebhook E req w
    = (Ok tt, with_payments (<[tid := set_status pending (now E) p]> (payments w)) w)).
  { unfold handleUpiWebhook. rewrite Htid, (webhook_paymentStatus_other _ H1 H2).
    unfold updatePaymentStatus. rewrite Hp. reflexivity. }
  split; [exact Hrun|]. rewrite Hrun. unfold status_of; simpl.
  by rewrite lookup_insert_eq.
Qed.

Lemma webhook_other_status_sets_pending_witness :
  status_of "tx1" (snd (handleUpiWebhook sample_env (webhook "PENDING")
                          (sample_world (sample_payment completed (Some "0xh")))))
  = Some pending.
Proof.
  assert (H1 : wh_status (webhook "PENDING") <> Some "SUCCESS") by discriminate.
  assert (H2 : wh_status (webhook "PENDING") <> Some "FAILED") by discriminate.
  exact (proj2 (webhook_other_status_sets_pending sample_env (webhook "PENDING")
                  (sample_world (sample_payment completed (Some "0xh"))) "tx1"
                  (sample_payment completed (Some "0xh")) eq_refl eq_refl H1 H2)).
Defined.

(** ** Payout provider client *)

Lemma initiatePayout_never_throws (E : Upi.Env) request st :
  exists r st', Upi.initiatePayout E request st = (Ok r, st').
Proof.
  unfold Upi.initiatePayout.
  destruct (Upi.initiatePayout_try E request st) as [[r|e] st']; simpl; eauto.
Qed.






(** ** Exchange-rate oracle *)

Import Oracle OracleSample.

Lemma refresh_never_raises E f t c : exists r, value (refresh E f t c) = Ok r.
Proof.
  unfold refresh. destruct (fetch_rate E f t) as [[r|e] reqs]; simpl; eauto.
  destruct (c !! cacheKey f t); eauto.
Qed.

(** [getExchangeRate] settles to a rate on every input. *)
Lemma getExchangeRate_never_raises E f t c :
  exists r, value (getExchangeRate E f t c) = Ok r.
Proof.
  unfold getExchangeRate. destruct (c !! cacheKey f t) as [e|].
  - destruct (_ <? _)%Z; simpl; eauto using refresh_never_raises.
  - apply refresh_never_raises.
Qed.

Lemma getUSDCToINRRate_outage E :
  truthy_num (coingecko E) = false -> truthy_num (exchangerate_api E) = false ->
  getUSDCToINRRate E = (Ok (84 # 1), [CoinGecko; ExchangeRateApi]).
Proof.
  intros H1 H2. unfold getUSDCToINRRate, getFallbackUSDCToINRRate.
  destruct (coingecko E) as [r1|], (exchangerate_api E) as [r2|];
    simpl in *; rewrite ?H1, ?H2; reflexivity.
Qed.

Lemma getExchangeRate_miss E f t c :
  (forall e, c !! cacheKey f t = Some e -> (cacheTimeout <= Date_now E - timestamp e)%Z) ->
  getExchangeRate E f t c = refresh E f t c.
Proof.
  intros Hmiss. unfold getExchangeRate.
  destruct (c !! cacheKey f t) as [e|]; [|reflexivity].
  specialize (Hmiss e eq_refl).
  destruct (Z.ltb_spec (Date_now E - timestamp e) cacheTimeout); [lia | reflexivity].
Qed.

Lemma getExchangeRate_hit E f t c e :
  c !! cacheKey f t = Some e ->
  (Date_now E - timestamp e < cacheTimeout)%Z ->
  getExchangeRate E f t c = {| value := Ok (rate e); cache := c; requests := [] |}.
Proof.
  intros Hc Hlt. unfold getExchangeRate. rewrite Hc.
  destruct (Z.ltb_spec (Date_now E - timestamp e) cacheTimeout); [reflexivity | lia].
Qed.

(** C7.  With both rate sources failing and an expired entry for USDC-INR
    in the cache, [getExchangeRate] does not return the cached rate: it
    returns the constant 84 that [getFallbackUSDCToINRRate] produced, and
    replaces the cached entry by it. *)
Theorem stale_rate_discarded_on_outage :
  forall r : Q,
    let R := getExchangeRate outage "USDC" "INR" (stale_cache r) in
    stale_cache r !! "USDC-INR" = Some {| rate := r; timestamp := 0 |}
    /\ value R = Ok (84 # 1)
    /\ requests R = [CoinGecko; ExchangeRateApi]
    /\ cache R !! "USDC-INR" = Some {| rate := 84 # 1; timestamp := 70000 |}.
Proof.
  intros r R. split; [reflexivity|].
  assert (HR : R = refresh outage "USDC" "INR" (stale_cache r)).
  { apply getExchangeRate_miss. intros e He.
    change (cacheKey "USDC" "INR") with "USDC-INR" in He.
    unfold stale_cache in He. rewrite lookup_singleton_eq in He.
    injection He as <-. simpl. unfold cacheTimeout. lia. }
  rewrite HR. unfold refresh. simpl. repeat split.
Qed.

(** C10.  When the cache has no fresh entry and the fetch path yields a
    rate, that rate is returned and stored under the pair's key with the
    time of storing, and every call for the same pair less than 60000 ms
    later returns it from the cache without any external request.  This
    includes the constant 84: when both sources fail for USDC to INR the
    fetch path yields 84, which is cached and served in the same way. *)
Theorem fetched_rate_served_from_cache :
  forall (E : Oracle.Env) (f t : string) (c : gmap string CacheEntry),
    (forall e, c !! cacheKey f t = Some e ->
               (cacheTimeout <= Oracle.Date_now E - timestamp e)%Z) ->
    let R := getExchangeRate E f t c in
    (forall r reqs, fetch_rate E f t = (Ok r, reqs) ->
       value R = Ok r
       /\ cache R !! cacheKey f t = Some {| rate := r; timestamp := new_Date E |}
       /\ forall E', (Oracle.Date_now E' - new_Date E < cacheTimeout)%Z ->
            getExchangeRate E' f t (cache R)
            = {| value := Ok r; cache := cache R; requests := [] |})
    /\ (f = "USDC" -> t = "INR" ->
        truthy_num (coingecko E) = false ->
        truthy_num (exchangerate_api E) = false ->
        fetch_rate E f t = (Ok (84 # 1), [CoinGecko; ExchangeRateApi])).
Proof.
  intros E f t c Hmiss R. split.
  - intros r reqs Hfetch.
    assert (HR : R = {| value := Ok r;
                        cache := <[cacheKey f t := {| rate := r; timestamp := new_Date E |}]> c;
                        requests := reqs |}).
    { unfold R. rewrite getExchangeRate_miss by exact Hmiss.
      unfold refresh. rewrite Hfetch. reflexivity. }
    rewrite HR. simpl. split; [reflexivity|].
    split; [by rewrite lookup_insert_eq|].
    intros E' Hlt.
    apply (getExchangeRate_hit E' f t _ {| rate := r; timestamp := new_Date E |});
      [by rewrite lookup_insert_eq | exact Hlt].
  - intros -> -> H1 H2. unfold fetch_rate. simpl.
    apply getUSDCToINRRate_outage; assumption.
Qed.

Lemma fetched_rate_served_from_cache_witness :
  getExchangeRate (later 100000) "USDC" "INR"
    (cache (getExchangeRate outage "USDC" "INR" ∅))
  = {| value := Ok (84 # 1);
       cache := cache (getExchangeRate outage "USDC" "INR" ∅);
       requests := [] |}.
Proof.
  assert (Hmiss : forall e, (∅ : gmap string CacheEntry) !! cacheKey "USDC" "INR" = Some e ->
            (cacheTimeout <= Oracle.Date_now outage - timestamp e)%Z).
  { intros e He. rewrite lookup_empty in He. discriminate He. }
  assert (Hlt : (Oracle.Date_now (later 100000) - new_Date outage < cacheTimeout)%Z)
    by (vm_compute; reflexivity).
  exact (proj2 (proj2
    (proj1 (fetched_rate_served_from_cache outage "USDC" "INR" ∅ Hmiss)
       (84 # 1) [CoinGecko; ExchangeRateApi] eq_refl))
    (later 100000) Hlt).
Defined.

(** ** QR payload parsers *)

Import Scanner ScannerSpec.

(** What the first branch of [parseUPIQRCode] returns, for any runtime. *)
Lemma parseUPIQRCode_standard_branch (P : Platform) data params r :
  startsWith data "upi://pay" = true ->
  URL_searchParams P data = Some params ->
  parseUPIQRCode P data = Some r ->
  payeeAddress r = or_else (get params "pa") ""
  /\ payeeName r = or_else (get params "pn") ""
  /\ amount r = or_else (get params "am") ""
  /\ transactionNote r = or_else (get params "tn") (or_else (get params "tr") "").
Proof.
  intros Hs Hu. unfold parseUPIQRCode. rewrite Hs, Hu.
  destruct (String.eqb _ ""); [discriminate|].
  intros H. injection H as <-. repeat split.
Qed.

(** C4.  On the input upi://pay?pa=shop@upi&amount=5&note=hi, which begins
    with upi://pay and carries a payee address, [parseUPIQRCode] returns an
    intent whose payee name, amount and note are all empty, where
    [parseUPIURL] on the same input answers Unknown Merchant, 5 and hi. *)
Theorem standard_url_branch_drops_defaults :
  forall json : string -> option UPIData,
    startsWith "upi://pay?pa=shop@upi&amount=5&note=hi" "upi://pay" = true
    /\ parseUPIQRCode (runtime json) "upi://pay?pa=shop@upi&amount=5&note=hi"
       = Some {| payeeAddress := "shop@upi"; payeeName := ""; amount := "";
                 transactionNote := ""; merchantCode := ""; transactionRef := "";
                 rawData := "upi://pay?pa=shop@upi&amount=5&note=hi" |}
    /\ parseUPIURL (runtime json) "upi://pay?pa=shop@upi&amount=5&note=hi"
       = Some {| payeeAddress := "shop@upi"; payeeName := "Unknown Merchant";
                 amount := "5"; transactionNote := "hi";
                 merchantCode := ""; transactionRef := "";
                 rawData := "upi://pay?pa=shop@upi&amount=5&note=hi" |}.
Proof. intros json. repeat split. Qed.

Lemma alt_step_name (st : AltState) (line : string) :
  alt_payeeName (alt_step st line)
  = if name_line line then line else alt_payeeName st.
Proof.
  unfold alt_step, name_line, mentions_amount, plain_long_line.
  destruct (includes line "@"); simpl; [reflexivity|].
  destruct (includes (toLowerCase line) "amount" || includes (toLowerCase line) "rs");
    simpl.
  - destruct (match_decimal line); reflexivity.
  - destruct ((3 <? String.length line)%nat && true && negb (has_digit line));
      reflexivity.
Qed.

Lemma last_cons_default {A} (x d : A) (l : list A) :
  List.last (x :: l) d = List.last l x.
Proof.
  revert x d. induction l as [|y l IH]; intros x d; [reflexivity|].
  change (List.last (x :: y :: l) d) with (List.last (y :: l) d).
  rewrite (IH y d), (IH y x). reflexivity.
Qed.

Lemma fold_alt_step_name (lines : list string) (st : AltState) :
  alt_payeeName (fold_left alt_step lines st)
  = List.last (List.filter name_line lines) (alt_payeeName st).
Proof.
  revert st. induction lines as [|line lines IH]; intros st; [reflexivity|].
  simpl. rewrite IH, alt_step_name.
  destruct (name_line line); [|reflexivity].
  symmetry. apply last_cons_default.
Qed.

(** C5, as the specification states it, fails: with two candidate lines
    the parser keeps the second, not the first. *)
Lemma first_name_refuted :
  (payeeName <$> parseAlternativeUPIFormat two_names) = Some "Bravo"
  /\ first_name_line (alt_lines two_names) = "Alpha"
  /\ ~ first_name_spec.
Proof.
  split; [reflexivity|]. split; [reflexivity|].
  intros Hspec.
  destruct (parseAlternativeUPIFormat two_names) as [r|] eqn:Hr; [|discriminate Hr].
  specialize (Hspec two_names r Hr).
  vm_compute in Hr. injection Hr as <-. discriminate Hspec.
Qed.

(** C5, amended.  In the bare-VPA heuristic parser the payee name is the
    LAST trimmed line that contains no '@', mentions neither "amount" nor
    "rs" in any letter case, is longer than 3 and has no digit (Unknown
    Merchant if there is none); the sample input yields payee address
    shop@paytm, payee name Tea Shop and amount 20. *)
Theorem heuristic_name_is_last_candidate :
  (forall (data : string) (r : UPIData),
     parseAlternativeUPIFormat data = Some r ->
     payeeName r = last_name_line (alt_lines data))
  /\ parseAlternativeUPIFormat tea_shop
     = Some {| payeeAddress := "shop@paytm"; payeeName := "Tea Shop"; amount := "20";
               transactionNote := ""; merchantCode := ""; transactionRef := "";
               rawData := tea_shop |}.
Proof.
  split; [|reflexivity].
  intros data r. unfold parseAlternativeUPIFormat.
  destruct (String.eqb _ ""); [discriminate|].
  intros H. injection H as <-. simpl. apply fold_alt_step_name.
Qed.

Lemma heuristic_name_is_last_candidate_witness :
  exists r, parseAlternativeUPIFormat two_names = Some r
            /\ payeeName r = last_name_line (alt_lines two_names)
            /\ last_name_line (alt_lines two_names) = "Bravo".
Proof.
  eexists. split; [reflexivity|]. split; [|reflexivity].
  apply (proj1 heuristic_name_is_last_candidate two_names). reflexivity.
Defined.

(** * Further properties *)

(** ** Handlers over the ledger *)

Import Run.

Lemma with_payments_same (w : World) : with_payments (payments w) w = w.
Proof. destruct w; reflexivity. Qed.

Lemma same_terms_refl (p : Payment) : same_terms p p.
Proof. repeat split. Qed.

Lemma same_terms_trans (p q r : Payment) :
  same_terms p q -> same_terms q r -> same_terms p r.
Proof.
  unfold same_terms. intros (?&?&?&?&?&?&?&?) (?&?&?&?&?&?&?&?).
  repeat split; congruence.
Qed.

Lemma updatePaymentStatus_effect key s hash now db :
  match db !! key with
  | Some p =>
      exists p', updatePaymentStatus key s hash now db = (Ok p', <[key := p']> db)
                 /\ same_terms p p' /\ Ledger.status p' = s
                 /\ upiPayoutId p' = upiPayoutId p
                 /\ aptosTransactionHash p'
                    = (if truthy_str hash then hash else aptosTransactionHash p)
  | None => updatePaymentStatus key s hash now db = (Threw TypeError, db)
  end.
Proof.
  unfold updatePaymentStatus. destruct (db !! key) as [p|]; [|reflexivity].
  destruct hash as [h|]; simpl.
  - destruct (String.eqb h ""); simpl; eexists; repeat split.
  - eexists; repeat split.
Qed.

Lemma updatePaymentPayout_effect key payout now db :
  match db !! key with
  | Some p =>
      updatePaymentPayout key payout now db
      = (Ok (set_payout payout now p), <[key := set_payout payout now p]> db)
  | None => updatePaymentPayout key payout now db = (Threw TypeError, db)
  end.
Proof. unfold updatePaymentPayout. destruct (db !! key); reflexivity. Qed.

Ltac row_replaced :=
  split; [reflexivity|]; split; [eassumption|]; split; [reflexivity|];
  split; [assumption | reflexivity].

(** What one request does to the table: nothing, or one row replaced by a
    row with the same immutable columns. *)
Lemma handle_payments E rq w :
  handle E rq w = w
  \/ exists tid p p',
       target rq = Some tid /\ payments w !! tid = Some p
       /\ payments (handle E rq w) = <[tid := p']> (payments w)
       /\ same_terms p p' /\ rejected E rq w = false.
Proof.
  destruct rq as [body|req|body]; simpl.
  - unfold initiateUpiPayout, getPaymentById.
    destruct (_ || _); [by left|].
    destruct (po_transactionId body) as [tid|]; [|by left].
    destruct (po_merchantUpiId body) as [mupi|]; [|by left].
    destruct (po_amountINR body) as [amt|]; [|by left].
    destruct (payments w !! tid) as [p|] eqn:Hp; [|by left].
    destruct (negb _); [by left|].
    destruct (initiatePayout_never_throws (upiEnv E)
                {| Upi.transactionId := tid; Upi.merchantUpiId := mupi;
                   Upi.amount := amt; Upi.currency := "INR" |} (upi w))
      as (r & st & ->).
    pose proof (updatePaymentPayout_effect tid (Upi.payoutId r) (now E)
                  (payments (with_upi st w))) as Hup.
    simpl in Hup. rewrite Hp in Hup. simpl. rewrite Hup. simpl.
    right. exists tid, p, (set_payout (Upi.payoutId r) (now E) p).
    repeat split. exact Hp.
  - unfold handleUpiWebhook.
    destruct (wh_transactionId req) as [tid|]; [|by left].
    pose proof (updatePaymentStatus_effect tid (webhook_paymentStatus (wh_status req))
                  None (now E) (payments w)) as Hup.
    destruct (payments w !! tid) as [p|] eqn:Hp.
    + destruct Hup as (p' & -> & Hsame & _). simpl.
      right. exists tid, p, p'. row_replaced.
    + rewrite Hup. simpl. left. apply with_payments_same.
  - unfold confirmPayment.
    destruct (_ || _); [by left|].
    destruct (cf_transactionId body) as [tid|]; [|by left].
    destruct (cf_aptosTransactionHash body) as [hash|]; [|by left].
    destruct (verifyTransaction E hash) as [[|]|e]; [|by left|by left].
    pose proof (updatePaymentStatus_effect tid confirmed (Some hash) (now E)
                  (payments w)) as Hup.
    destruct (payments w !! tid) as [p|] eqn:Hp.
    + destruct Hup as (p' & -> & Hsame & _). simpl.
      right. exists tid, p, p'. row_replaced.
    + rewrite Hup. simpl. left. apply with_payments_same.
Qed.

(** X1.  The payout, webhook and confirmation handlers never create and
    never delete a payment: after any sequence of requests the ledger holds
    exactly the payment ids it held before. *)
Theorem handlers_keep_payment_ids :
  forall (trace : list (Controllers.Env * request)) (w : World),
    dom (payments (run trace w)) = dom (payments w).
Proof.
  induction trace as [|[E rq] trace IH]; intros w; [reflexivity|].
  simpl. rewrite IH.
  destruct (handle_payments E rq w) as [-> | (tid & p & p' & _ & Hp & -> & _)];
    [reflexivity|].
  apply dom_insert_lookup_L. by exists p.
Qed.

(** X2.  Whatever requests are served, a payment keeps the columns it was
    created with: id, merchant, INR amount, stablecoin amount, exchange
    rate, wallet address, merchant UPI id and creation time. *)
Theorem handlers_keep_payment_terms :
  forall (trace : list (Controllers.Env * request)) (w : World) (tid : string) (p : Payment),
    payments w !! tid = Some p ->
    exists p', payments (run trace w) !! tid = Some p' /\ same_terms p p'.
Proof.
  induction trace as [|[E rq] trace IH]; intros w tid p Hp.
  - exists p. split; [exact Hp | apply same_terms_refl].
  - simpl.
    assert (Hstep : exists q, payments (handle E rq w) !! tid = Some q /\ same_terms p q).
    { destruct (handle_payments E rq w)
        as [-> | (tid' & q & q' & _ & Hq & -> & Hsame & _)].
      - exists p. split; [exact Hp | apply same_terms_refl].
      - destruct (decide (tid' = tid)) as [->|Hne].
        + rewrite lookup_insert_eq. exists q'. split; [reflexivity|].
          rewrite Hp in Hq. injection Hq as <-. exact Hsame.
        + rewrite lookup_insert_ne by exact Hne.
          exists p. split; [exact Hp | apply same_terms_refl]. }
    destruct Hstep as (q & Hq & Hpq).
    destruct (IH (handle E rq w) tid q Hq) as (r & Hr & Hqr).
    exists r. split; [exact Hr | exact (same_terms_trans _ _ _ Hpq Hqr)].
Qed.

Lemma handlers_keep_payment_terms_witness :
  exists p', payments (run [(sample_env, Confirm (confirm_body "0xh"));
                            (sample_env, Payout payout_body);
                            (sample_env, Webhook (webhook "SUCCESS"))]
                         (sample_world (sample_payment pending None))) !! "tx1"
             = Some p'
             /\ same_terms (sample_payment pending None) p'.
Proof.
  apply (handlers_keep_payment_terms _ (sample_world (sample_payment pending None)) "tx1").
  reflexivity.
Defined.

Lemma truthy_str_inv (v : option string) :
  truthy_str v = true -> exists s, v = Some s /\ s <> "".
Proof.
  destruct v as [s|]; simpl; [|discriminate].
  destruct (String.eqb_spec s ""); [discriminate|]. intros _. eauto.
Qed.

(** X5.  [confirmPayment] answers with success only for a request that
    carries a non-empty hash which [verifyTransaction] accepted and that
    names an existing payment; the payment it returns is the stored one, has
    status [confirmed] and that hash, and keeps its payout id; no payout
    state is touched. *)
Theorem confirmPayment_success_means_verified :
  forall (E : Controllers.Env) (body : ConfirmBody) (w w' : World) (p' : Payment),
    confirmPayment E body w = (Ok p', w') ->
    exists tid hash p,
      cf_transactionId body = Some tid /\ cf_aptosTransactionHash body = Some hash
      /\ hash <> "" /\ verifyTransaction E hash = Ok true
      /\ payments w !! tid = Some p /\ payments w' !! tid = Some p'
      /\ Ledger.status p' = confirmed /\ aptosTransactionHash p' = Some hash
      /\ upiPayoutId p' = upiPayoutId p /\ upi w' = upi w.
Proof.
  intros E body w w' p'. unfold confirmPayment.
  destruct (negb (truthy_str (cf_transactionId body))) eqn:Ht; [discriminate|].
  destruct (negb (truthy_str (cf_aptosTransactionHash body))) eqn:Hh; [discriminate|].
  apply negb_false_iff in Hh. destruct (truthy_str_inv _ Hh) as (hash & Hhash & Hne).
  simpl. destruct (cf_transactionId body) as [tid|]; [|discriminate].
  rewrite Hhash. destruct (verifyTransaction E hash) as [[|]|e] eqn:Hv; try discriminate.
  pose proof (updatePaymentStatus_effect tid confirmed (Some hash) (now E)
                (payments w)) as Hup.
  destruct (payments w !! tid) as [p|] eqn:Hp.
  - destruct Hup as (q & -> & _ & Hs & Hpo & Hah). intros H. injection H as <- <-.
    exists tid, hash, p. rewrite truthy_str_Some in Hah by exact Hne.
    simpl. rewrite lookup_insert_eq. repeat split; assumption.
  - rewrite Hup. discriminate.
Qed.

Lemma confirmPayment_success_means_verified_witness :
  exists tid hash p,
    cf_transactionId (confirm_body "0xh") = Some tid
    /\ cf_aptosTransactionHash (confirm_body "0xh") = Some hash
    /\ hash <> "" /\ verifyTransaction sample_env hash = Ok true
    /\ payments (sample_world (sample_payment pending None)) !! tid = Some p
    /\ payments (snd (confirmPayment sample_env (confirm_body "0xh")
                        (sample_world (sample_payment pending None)))) !! tid
       = Some (set_hash "0xh" (set_status confirmed 5000 (sample_payment pending None)))
    /\ Ledger.status (set_hash "0xh" (set_status confirmed 5000 (sample_payment pending None)))
       = confirmed
    /\ aptosTransactionHash
         (set_hash "0xh" (set_status confirmed 5000 (sample_payment pending None)))
       = Some hash
    /\ upiPayoutId (set_hash "0xh" (set_status confirmed 5000 (sample_payment pending None)))
       = upiPayoutId p
    /\ upi (snd (confirmPayment sample_env (confirm_body "0xh")
                   (sample_world (sample_payment pending None))))
       = upi (sample_world (sample_payment pending None)).
Proof.
  apply (confirmPayment_success_means_verified sample_env (confirm_body "0xh")
           (sample_world (sample_payment pending None))).
  reflexivity.
Defined.

Lemma initiateUpiPayout_confirmed :
  forall (E : Controllers.Env) (w : World) (tid mupi : string) (amt : Q) (p : Payment),
    tid <> "" -> mupi <> "" -> Qeq_bool amt 0 = false ->
    payments w !! tid = Some p -> Ledger.status p = confirmed ->
    exists r w',
      initiateUpiPayout E {| po_transactionId := Some tid;
                             po_merchantUpiId := Some mupi;
                             po_amountINR := Some amt |} w = (Ok r, w')
      /\ pr_message r = "UPI payout initiated successfully"
      /\ payments w' = <[tid := set_payout (pr_payoutId r) (now E) p]> (payments w)
      /\ Ledger.status (set_payout (pr_payoutId r) (now E) p) = confirmed
      /\ upi w' = snd (Upi.initiatePayout (upiEnv E)
                         {| Upi.transactionId := tid; Upi.merchantUpiId := mupi;
                            Upi.amount := amt; Upi.currency := "INR" |} (upi w)).
Proof.
  intros E w tid mupi amt p Ht Hm Ha Hp Hs.
  unfold initiateUpiPayout, getPaymentById.
  cbn [po_transactionId po_merchantUpiId po_amountINR].
  rewrite !truthy_str_Some by assumption. unfold truthy_num. rewrite Ha.
  cbn [negb orb]. rewrite Hp, Hs. cbn [status_eqb negb].
  destruct (initiatePayout_never_throws (upiEnv E)
              {| Upi.transactionId := tid; Upi.merchantUpiId := mupi;
                 Upi.amount := amt; Upi.currency := "INR" |} (upi w))
    as (r & st & ->).
  unfold updatePaymentPayout. cbn [with_upi payments]. rewrite Hp.
  do 2 eexists. split; [reflexivity|]. repeat split. exact Hs.
Qed.

(** ** Payout provider client, continued *)

(** The three ways a call of [initiatePayout] can go. *)
Lemma initiatePayout_cases (E : Upi.Env) request st :
  let n := Upi.uuid_calls st in
  let sent := Upi.make_payoutData request (Upi.uuidv4 E n) in
  (Upi.use_mock E = true
   /\ Upi.initiatePayout E request st
      = (Ok (Upi.mockUpiPayout E request (Upi.uuidv4 E n)),
         {| Upi.uuid_calls := S n; Upi.provider_log := Upi.provider_log st |}))
  \/ (Upi.use_mock E = false
      /\ exists data,
           Upi.axios_post_payouts E sent = Ok data
           /\ Upi.initiatePayout E request st
              = (Ok {| Upi.payoutId := Upi.uuidv4 E n;
                       Upi.status := or_else (Upi.reply_status data) "PENDING";
                       Upi.message := "Payout initiated successfully";
                       Upi.resp_transactionId := Upi.reply_transaction_id data |},
                 {| Upi.uuid_calls := S n;
                    Upi.provider_log := (Upi.provider_log st ++ [sent])%list |}))
  \/ (Upi.use_mock E = false
      /\ exists e,
           Upi.axios_post_payouts E sent = Threw e
           /\ Upi.initiatePayout E request st
              = (Ok {| Upi.payoutId := Upi.uuidv4 E (S n); Upi.status := "FAILED";
                       Upi.message := "Failed to initiate payout";
                       Upi.resp_transactionId := None |},
                 {| Upi.uuid_calls := S (S n);
                    Upi.provider_log := (Upi.provider_log st ++ [sent])%list |})).
Proof.
  intros n sent. unfold Upi.initiatePayout, Upi.initiatePayout_try. simpl.
  destruct (Upi.use_mock E) eqn:Hmock; [left; split; reflexivity|].
  fold n. fold sent.
  destruct (Upi.axios_post_payouts E sent) as [data|e] eqn:Hpost.
  - right; left. split; [reflexivity|]. exists data. split; reflexivity.
  - right; right. split; [reflexivity|]. exists e. split; reflexivity.
Qed.

(** X8.  One call of [UpiService.initiatePayout] sends no request in mock
    mode and exactly one otherwise, whose [payout_id] is the first
    identifier drawn.  It draws a second identifier exactly when that
    request failed, and then the response is FAILED and carries the second
    identifier; in every other case one identifier is drawn and the
    response carries it.  A response whose status is not FAILED therefore
    always carries the identifier that was sent to the provider. *)
Theorem initiatePayout_accounting :
  forall (E : Upi.Env) (request : Upi.UpiPayoutRequest) (st : Upi.State),
    let n := Upi.uuid_calls st in
    let sent := Upi.make_payoutData request (Upi.uuidv4 E n) in
    let request_failed :=
      negb (Upi.use_mock E) && Run.is_error (Upi.axios_post_payouts E sent) in
    exists r st',
      Upi.initiatePayout E request st = (Ok r, st')
      /\ Upi.provider_log st'
         = (if Upi.use_mock E then Upi.provider_log st
            else (Upi.provider_log st ++ [sent])%list)
      /\ Upi.payout_id sent = Upi.uuidv4 E n
      /\ Upi.uuid_calls st' = (if request_failed then S (S n) else S n)
      /\ Upi.payoutId r = Upi.uuidv4 E (if request_failed then S n else n)
      /\ (request_failed = true -> Upi.status r = "FAILED")
      /\ (Upi.status r <> "FAILED" ->
          Upi.payoutId r = Upi.uuidv4 E n /\ Upi.uuid_calls st' = S n).
Proof.
  intros E request st n sent request_failed. unfold request_failed.
  destruct (initiatePayout_cases E request st)
    as [(Hm & ->) | [(Hm & data & Hpost & ->) | (Hm & e & Hpost & ->)]];
    rewrite Hm; try (fold n in Hpost; fold sent in Hpost; rewrite Hpost);
    do 2 eexists; (split; [reflexivity|]); cbn [negb andb Run.is_error];
    cbn [Upi.provider_log Upi.uuid_calls Upi.payoutId Upi.status].
  - repeat split; try discriminate;
      unfold Upi.mockUpiPayout; destruct (Qlt_le_dec _ _); reflexivity.
  - repeat split. discriminate.
  - repeat split; contradiction.
Qed.

Lemma initiatePayout_accounting_witness :
  exists r st',
    Upi.initiatePayout sample_upiEnv
      {| Upi.transactionId := "tx1"; Upi.merchantUpiId := "shop@upi";
         Upi.amount := 840 # 1; Upi.currency := "INR" |}
      {| Upi.uuid_calls := 0; Upi.provider_log := [] |} = (Ok r, st')
    /\ Upi.uuid_calls st' = 2%nat
    /\ Upi.payoutId r = sample_uuid 1
    /\ Upi.status r = "FAILED"
    /\ map Upi.payout_id (Upi.provider_log st') = [sample_uuid 0].
Proof.
  destruct (initiatePayout_accounting sample_upiEnv
              {| Upi.transactionId := "tx1"; Upi.merchantUpiId := "shop@upi";
                 Upi.amount := 840 # 1; Upi.currency := "INR" |}
              {| Upi.uuid_calls := 0; Upi.provider_log := [] |})
    as (r & st' & Hrun & Hlog & _ & Hcalls & Hid & Hfail & _).
  exists r, st'. split; [exact Hrun|]. split; [exact Hcalls|]. split; [exact Hid|].
  split; [exact (Hfail eq_refl)|]. rewrite Hlog. reflexivity.
Defined.

(** X9.  Paying out does not close the payment: after a successful
    [initiateUpiPayout] the payment is still [confirmed], so a second
    request for the same payment is accepted too; outside mock mode the
    provider then receives two payout requests, and the payment keeps only
    the payout id of the second response. *)
Theorem payout_can_be_repeated :
  forall (E1 E2 : Controllers.Env) (w : World) (tid mupi : string) (amt : Q)
         (p : Payment),
    tid <> "" -> mupi <> "" -> Qeq_bool amt 0 = false ->
    payments w !! tid = Some p -> Ledger.status p = confirmed ->
    let body := {| po_transactionId := Some tid; po_merchantUpiId := Some mupi;
                   po_amountINR := Some amt |} in
    exists r1 w1 r2 w2 p2,
      initiateUpiPayout E1 body w = (Ok r1, w1)
      /\ initiateUpiPayout E2 body w1 = (Ok r2, w2)
      /\ payments w2 !! tid = Some p2
      /\ Ledger.status p2 = confirmed
      /\ upiPayoutId p2 = Some (pr_payoutId r2)
      /\ (Upi.use_mock (upiEnv E1) = false -> Upi.use_mock (upiEnv E2) = false ->
          length (Upi.provider_log (upi w2))
          = S (S (length (Upi.provider_log (upi w))))).
Proof.
  intros E1 E2 w tid mupi amt p Ht Hm Ha Hp Hs body.
  destruct (initiateUpiPayout_confirmed E1 w tid mupi amt p Ht Hm Ha Hp Hs)
    as (r1 & w1 & H1 & _ & Hdb1 & Hs1 & Hu1).
  assert (Hp1 : payments w1 !! tid = Some (set_payout (pr_payoutId r1) (now E1) p))
    by (rewrite Hdb1; apply lookup_insert_eq).
  destruct (initiateUpiPayout_confirmed E2 w1 tid mupi amt _ Ht Hm Ha Hp1 Hs1)
    as (r2 & w2 & H2 & _ & Hdb2 & Hs2 & Hu2).
  exists r1, w1, r2, w2, (set_payout (pr_payoutId r2) (now E2)
                            (set_payout (pr_payoutId r1) (now E1) p)).
  split; [exact H1|]. split; [exact H2|].
  split; [rewrite Hdb2; apply lookup_insert_eq|].
  split; [exact Hs2|]. split; [reflexivity|].
  intros Hm1 Hm2. rewrite Hu2, Hu1.
  set (rq := {| Upi.transactionId := tid; Upi.merchantUpiId := mupi;
                Upi.amount := amt; Upi.currency := "INR" |}).
  assert (Hlog : forall E st, Upi.use_mock E = false ->
            length (Upi.provider_log (snd (Upi.initiatePayout E rq st)))
            = S (length (Upi.provider_log st))).
  { intros E st Hmock.
    destruct (initiatePayout_cases E rq st)
      as [(Hc & _) | [(_ & data & _ & ->) | (_ & e & _ & ->)]];
      [congruence | |]; simpl; rewrite length_app; simpl; lia. }
  rewrite Hlog by exact Hm2. rewrite Hlog by exact Hm1. reflexivity.
Qed.

Lemma payout_can_be_repeated_witness :
  exists r1 w1 r2 w2 p2,
    initiateUpiPayout sample_env payout_body
      (sample_world (sample_payment confirmed (Some "0xh"))) = (Ok r1, w1)
    /\ initiateUpiPayout sample_env payout_body w1 = (Ok r2, w2)
    /\ payments w2 !! "tx1" = Some p2
    /\ Ledger.status p2 = confirmed
    /\ upiPayoutId p2 = Some (pr_payoutId r2)
    /\ (Upi.use_mock (upiEnv sample_env) = false ->
        Upi.use_mock (upiEnv sample_env) = false ->
        length (Upi.provider_log (upi w2))
        = S (S (length (Upi.provider_log
                          (upi (sample_world (sample_payment confirmed (Some "0xh")))))))).
Proof.
  assert (Ht : "tx1" <> "") by discriminate.
  assert (Hm : "shop@upi" <> "") by discriminate.
  exact (payout_can_be_repeated sample_env sample_env
           (sample_world (sample_payment confirmed (Some "0xh")))
           "tx1" "shop@upi" (840 # 1) (sample_payment confirmed (Some "0xh"))
           Ht Hm eq_refl eq_refl eq_refl).
Defined.

(** ** Exchange-rate oracle, continued *)

Import OracleOps.

Lemma append_nil_l (s : string) : "" +:+ s = s.
Proof. reflexivity. Qed.

Lemma append_cons (c : ascii) (r s : string) : String c r +:+ s = String c (r +:+ s).
Proof. reflexivity. Qed.

Ltac peel f H :=
  destruct f as [|? f]; rewrite ?append_nil_l, ?append_cons in H;
  [ try discriminate H | first [discriminate H | injection H as ? H; subst] ].

Lemma cacheKey_USDC_INR f t : cacheKey f t = "USDC-INR" -> f = "USDC" /\ t = "INR".
Proof.
  unfold cacheKey. intros H.
  peel f H. peel f H. peel f H. peel f H. peel f H.
  - inversion H; subst. split; reflexivity.
  - peel f H. peel f H. peel f H. peel f H.
Qed.

Lemma cacheKey_INR_USDC f t : cacheKey f t = "INR-USDC" -> f = "INR" /\ t = "USDC".
Proof.
  unfold cacheKey. intros H.
  peel f H. peel f H. peel f H. peel f H.
  - inversion H; subst. split; reflexivity.
  - peel f H. peel f H. peel f H. peel f H. peel f H.
Qed.

Lemma Qinv_nonzero q : Qeq_bool q 0 = false -> Qeq_bool (/ q) 0 = false.
Proof.
  intros H. apply Qeq_bool_neq in H.
  destruct (Qeq_bool (/ q) 0) eqn:Hq; [|reflexivity].
  apply Qeq_bool_iff in Hq. exfalso.
  pose proof (Qmult_inv_r q H) as Hm. rewrite Hq, Qmult_0_r in Hm. discriminate Hm.
Qed.

Lemma truthy_num_nonzero q : truthy_num (Some q) = true -> Qeq_bool q 0 = false.
Proof. simpl. destruct (Qeq_bool q 0); [discriminate | reflexivity]. Qed.

(** The three tiers of [getUSDCToINRRate]. *)
Lemma getUSDCToINRRate_cases (E : Oracle.Env) :
  (exists r, coingecko E = Some r /\ truthy_num (Some r) = true
             /\ getUSDCToINRRate E = (Ok r, [CoinGecko]))
  \/ (truthy_num (coingecko E) = false
      /\ exists r, exchangerate_api E = Some r /\ truthy_num (Some r) = true
                   /\ getUSDCToINRRate E = (Ok r, [CoinGecko; ExchangeRateApi]))
  \/ (truthy_num (coingecko E) = false /\ truthy_num (exchangerate_api E) = false
      /\ getUSDCToINRRate E = (Ok (84 # 1), [CoinGecko; ExchangeRateApi])).
Proof.
  destruct (truthy_num (coingecko E)) eqn:H1.
  - left. destruct (coingecko E) as [r|] eqn:Hc; [|discriminate].
    exists r. repeat split; [exact H1|].
    unfold getUSDCToINRRate. rewrite Hc, H1. reflexivity.
  - right. destruct (truthy_num (exchangerate_api E)) eqn:H2.
    + left. split; [reflexivity|].
      destruct (exchangerate_api E) as [r|] eqn:Ha; [|discriminate].
      exists r. repeat split; [exact H2|].
      unfold getUSDCToINRRate, getFallbackUSDCToINRRate. rewrite Ha, H2.
      destruct (coingecko E) as [r1|]; [rewrite H1|]; reflexivity.
    + right. repeat split. by apply getUSDCToINRRate_outage.
Qed.

Lemma getUSDCToINRRate_nonzero (E : Oracle.Env) :
  exists r reqs, getUSDCToINRRate E = (Ok r, reqs) /\ Qeq_bool r 0 = false.
Proof.
  destruct (getUSDCToINRRate_cases E)
    as [(r & _ & Ht & ->) | [(_ & r & _ & Ht & ->) | (_ & _ & ->)]];
    do 2 eexists; (split; [reflexivity|]); first [by apply truthy_num_nonzero | reflexivity].
Qed.

Lemma fetch_rate_nonzero (E : Oracle.Env) f t r reqs :
  fetch_rate E f t = (Ok r, reqs) -> Qeq_bool r 0 = false.
Proof.
  unfold fetch_rate.
  destruct (getUSDCToINRRate_nonzero E) as (r0 & reqs0 & -> & Hnz).
  destruct (_ && _); [intros H; by injection H as <- _|].
  destruct (_ && _); [|discriminate].
  intros H. injection H as <- _. by apply Qinv_nonzero.
Qed.

Lemma fetch_rate_unsupported (E : Oracle.Env) f t :
  supported f t = false ->
  exists e, fetch_rate E f t = (Threw e, []).
Proof.
  unfold supported, fetch_rate. intros H. apply orb_false_iff in H as [-> ->]. eauto.
Qed.

Lemma fetch_rate_supported (E : Oracle.Env) f t r reqs :
  fetch_rate E f t = (Ok r, reqs) ->
  cacheKey f t = "USDC-INR" \/ cacheKey f t = "INR-USDC".
Proof.
  unfold fetch_rate.
  destruct (String.eqb f "USDC" && String.eqb t "INR") eqn:H1.
  - apply andb_true_iff in H1 as [Hf Ht].
    apply String.eqb_eq in Hf, Ht. subst. by left.
  - destruct (String.eqb f "INR" && String.eqb t "USDC") eqn:H2; [|discriminate].
    apply andb_true_iff in H2 as [Hf Ht].
    apply String.eqb_eq in Hf, Ht. subst. by right.
Qed.

(** X10.  On a cache miss or expiry for USDC to INR the oracle asks
    CoinGecko first and the second source only when CoinGecko gave no usable
    rate: it returns CoinGecko's rate after one request, else the second
    source's rate after two, else 84 after two. *)
Theorem refresh_asks_sources_in_order :
  forall (E : Oracle.Env) (c : gmap string CacheEntry),
    (forall e, c !! "USDC-INR" = Some e ->
               (cacheTimeout <= Oracle.Date_now E - timestamp e)%Z) ->
    let R := getExchangeRate E "USDC" "INR" c in
    (exists r, coingecko E = Some r /\ truthy_num (Some r) = true
               /\ value R = Ok r /\ requests R = [CoinGecko])
    \/ (truthy_num (coingecko E) = false
        /\ exists r, exchangerate_api E = Some r /\ truthy_num (Some r) = true
                     /\ value R = Ok r /\ requests R = [CoinGecko; ExchangeRateApi])
    \/ (truthy_num (coingecko E) = false /\ truthy_num (exchangerate_api E) = false
        /\ value R = Ok (84 # 1) /\ requests R = [CoinGecko; ExchangeRateApi]).
Proof.
  intros E c Hmiss R.
  assert (HR : R = refresh E "USDC" "INR" c) by (apply getExchangeRate_miss; exact Hmiss).
  rewrite HR. unfold refresh, fetch_rate. simpl.
  destruct (getUSDCToINRRate_cases E)
    as [(r & Hc & Ht & ->) | [(H1 & r & Ha & Ht & ->) | (H1 & H2 & ->)]].
  - left. exists r. repeat split; assumption.
  - right; left. split; [exact H1|]. exists r. repeat split; assumption.
  - right; right. repeat split; assumption.
Qed.

Lemma refresh_asks_sources_in_order_witness :
  let R := getExchangeRate (later 100000) "USDC" "INR" (stale_cache (80 # 1)) in
  (exists r, coingecko (later 100000) = Some r /\ truthy_num (Some r) = true
             /\ value R = Ok r /\ requests R = [CoinGecko])
  \/ (truthy_num (coingecko (later 100000)) = false
      /\ exists r, exchangerate_api (later 100000) = Some r /\ truthy_num (Some r) = true
                   /\ value R = Ok r /\ requests R = [CoinGecko; ExchangeRateApi])
  \/ (truthy_num (coingecko (later 100000)) = false
      /\ truthy_num (exchangerate_api (later 100000)) = false
      /\ value R = Ok (84 # 1) /\ requests R = [CoinGecko; ExchangeRateApi]).
Proof.
  apply (refresh_asks_sources_in_order (later 100000) (stale_cache (80 # 1))).
  intros e He. unfold stale_cache in He. rewrite lookup_singleton_eq in He.
  injection He as <-. vm_compute. discriminate.
Defined.

Lemma getExchangeRate_nonzero (E : Oracle.Env) f t c :
  nonzero_rates c ->
  exists r, value (getExchangeRate E f t c) = Ok r /\ Qeq_bool r 0 = false
            /\ nonzero_rates (cache (getExchangeRate E f t c)).
Proof.
  intros Hc. unfold getExchangeRate.
  assert (Hrefresh : exists r, value (refresh E f t c) = Ok r /\ Qeq_bool r 0 = false
                               /\ nonzero_rates (cache (refresh E f t c))).
  { unfold refresh. destruct (fetch_rate E f t) as [[r|e] reqs] eqn:Hf; simpl.
    - pose proof (fetch_rate_nonzero E f t r reqs Hf) as Hr.
      exists r. repeat split; [exact Hr|].
      intros k e. destruct (decide (cacheKey f t = k)) as [<-|Hne].
      + rewrite lookup_insert_eq. intros H. by injection H as <-.
      + rewrite lookup_insert_ne by exact Hne. apply Hc.
    - destruct (c !! cacheKey f t) as [e0|] eqn:He.
      + exists (rate e0). repeat split; [by apply (Hc _ _ He) | exact Hc].
      + eexists. split; [reflexivity|]. split; [|exact Hc].
        destruct (_ && _); reflexivity. }
  destruct (c !! cacheKey f t) as [e0|] eqn:He; [|exact Hrefresh].
  destruct (_ <? _)%Z; [|exact Hrefresh].
  exists (rate e0). repeat split; [by apply (Hc _ _ He) | exact Hc].
Qed.

(** X11.  The USDC to INR rate is never 0: on a service that started with
    an empty cache, after any calls and whatever the sources answer,
    [getExchangeRate] for USDC to INR returns a non-zero rate, so the
    division by it in [initiatePayment] is never a division by zero. *)
Theorem oracle_rate_never_zero :
  forall (calls : list (Oracle.Env * (string * string))) (E : Oracle.Env),
    exists r, value (getExchangeRate E "USDC" "INR" (run calls ∅)) = Ok r
              /\ Qeq_bool r 0 = false.
Proof.
  intros calls E. set (f := "USDC"). set (t := "INR").
  assert (Hinv : forall c, nonzero_rates c -> nonzero_rates (run calls c)).
  { induction calls as [|[E0 [f0 t0]] calls IH]; intros c Hc; [exact Hc|].
    simpl. apply IH. by destruct (getExchangeRate_nonzero E0 f0 t0 c Hc) as (_ & _ & _ & H). }
  assert (H0 : nonzero_rates ∅) by (intros k e He; rewrite lookup_empty in He; discriminate).
  destruct (getExchangeRate_nonzero E f t _ (Hinv ∅ H0)) as (r & Hr & Hnz & _).
  eauto.
Qed.

Lemma getExchangeRate_supported_keys (E : Oracle.Env) f t c :
  supported_keys c -> supported_keys (cache (getExchangeRate E f t c)).
Proof.
  intros Hc. unfold getExchangeRate.
  assert (Hrefresh : supported_keys (cache (refresh E f t c))).
  { unfold refresh. destruct (fetch_rate E f t) as [[r|e] reqs] eqn:Hf; simpl; [|exact Hc].
    intros k. destruct (decide (cacheKey f t = k)) as [<-|Hne].
    - intros _. exact (fetch_rate_supported E f t r reqs Hf).
    - rewrite lookup_insert_ne by exact Hne. apply Hc. }
  destruct (c !! cacheKey f t); [|exact Hrefresh].
  destruct (_ <? _)%Z; [exact Hc | exact Hrefresh].
Qed.

Lemma run_supported_keys calls : supported_keys (run calls ∅).
Proof.
  assert (Hinv : forall c, supported_keys c -> supported_keys (run calls c)).
  { induction calls as [|[E0 [f0 t0]] calls IH]; intros c Hc; [exact Hc|].
    simpl. apply IH. by apply getExchangeRate_supported_keys. }
  apply Hinv. intros k [e He]. rewrite lookup_empty in He. discriminate.
Qed.

Lemma unsupported_key_absent f t c :
  supported_keys c -> supported f t = false -> c !! cacheKey f t = None.
Proof.
  intros Hc Hu. destruct (c !! cacheKey f t) as [e|] eqn:He; [|reflexivity].
  exfalso. destruct (Hc (cacheKey f t) (ex_intro _ e He)) as [H|H].
  - apply cacheKey_USDC_INR in H as [-> ->]. discriminate Hu.
  - apply cacheKey_INR_USDC in H as [-> ->]. discriminate Hu.
Qed.

Lemma getExchangeRate_unsupported (E : Oracle.Env) f t c :
  supported_keys c -> supported f t = false ->
  getExchangeRate E f t c = {| value := Ok (12 # 1000); cache := c; requests := [] |}.
Proof.
  intros Hc Hu. unfold getExchangeRate, refresh.
  rewrite (unsupported_key_absent f t c Hc Hu).
  destruct (fetch_rate_unsupported E f t Hu) as (e & ->).
  unfold supported in Hu. apply orb_false_iff in Hu as [-> _]. reflexivity.
Qed.

(** X12.  For a pair other than USDC to INR or INR to USDC, a service that
    started with an empty cache answers 0.012 at any time: it makes no
    external request and stores nothing. *)
Theorem unsupported_pair_gets_constant :
  forall (calls : list (Oracle.Env * (string * string))) (E : Oracle.Env) (f t : string),
    supported f t = false ->
    getExchangeRate E f t (run calls ∅)
    = {| value := Ok (12 # 1000); cache := run calls ∅; requests := [] |}.
Proof.
  intros calls E f t Hu. apply getExchangeRate_unsupported; [apply run_supported_keys | exact Hu].
Qed.

Lemma unsupported_pair_gets_constant_witness :
  getExchangeRate outage "EUR" "INR" (run [(outage, ("USDC", "INR"))] ∅)
  = {| value := Ok (12 # 1000); cache := run [(outage, ("USDC", "INR"))] ∅;
       requests := [] |}.
Proof.
  apply unsupported_pair_gets_constant. reflexivity.
Defined.

(** X13.  However many rates were requested, for whatever pairs, the cache
    of a service that started empty holds at most two entries. *)
Theorem cache_holds_at_most_two_entries :
  forall calls : list (Oracle.Env * (string * string)),
    (cache_size (run calls ∅) <= 2)%nat.
Proof.
  intros calls. unfold cache_size.
  rewrite <- size_dom.
  assert (Hsub : dom (run calls ∅) ⊆ ({[ "USDC-INR"; "INR-USDC" ]} : gset string)).
  { intros k Hk. apply elem_of_dom in Hk.
    destruct (run_supported_keys calls k Hk) as [-> | ->]; set_solver. }
  apply subseteq_size in Hsub. etransitivity; [exact Hsub|].
  rewrite size_union by set_solver. rewrite !size_singleton. lia.
Qed.

(** X14.  [convertAmountWithCurrentRate] between a currency and itself
    returns the amount unchanged, together with the rate 0.012 of an
    unsupported pair, not 1; it makes no request and changes no cache
    entry. *)
Theorem same_currency_conversion :
  forall (calls : list (Oracle.Env * (string * string))) (E : Oracle.Env)
         (amount : Q) (cur : string),
    convertAmountWithCurrentRate E amount cur cur (run calls ∅)
    = (Ok {| convertedAmount := amount; conv_rate := 12 # 1000 |}, run calls ∅)
    /\ requests (getExchangeRate E cur cur (run calls ∅)) = [].
Proof.
  intros calls E amount cur.
  assert (Hu : supported cur cur = false).
  { unfold supported.
    destruct (String.eqb_spec cur "USDC") as [->|]; [reflexivity|].
    destruct (String.eqb_spec cur "INR") as [->|]; reflexivity. }
  unfold convertAmountWithCurrentRate, convertAmount.
  rewrite (getExchangeRate_unsupported E cur cur _ (run_supported_keys calls) Hu).
  simpl. rewrite String.eqb_refl. split; reflexivity.
Qed.

(** ** Payout status *)

Import Scenario2.

Lemma Qle_bool_false_lt (a b : Q) : (b < a)%Q -> Qle_bool a b = false.
Proof.
  intros Hlt. destruct (Qle_bool a b) eqn:H; [|reflexivity].
  apply Qle_bool_iff in H. exfalso. exact (Qlt_not_le _ _ Hlt H).
Qed.

(** X15.  In mock mode every payout id, issued or not, has a status:
    [getPayoutStatus] returns a record for the id asked, whose status is
    SUCCESS, PENDING or FAILED, whose failure reason is present exactly when
    the status is FAILED, and which was created one minute before its last
    update; [getUpiPayoutStatus] never answers 404. *)
Theorem mock_status_shape :
  forall (E : UpiQuery.Env) (payoutId : string),
    Upi.use_mock (UpiQuery.base E) = true ->
    exists s,
      UpiQuery.getPayoutStatus E payoutId = Some s
      /\ UpiQuery.getUpiPayoutStatus E payoutId = Ok s
      /\ UpiQuery.sp_payoutId s = payoutId
      /\ (UpiQuery.sp_status s = Some "SUCCESS"
          \/ UpiQuery.sp_status s = Some "PENDING"
          \/ UpiQuery.sp_status s = Some "FAILED")
      /\ (UpiQuery.sp_status s = Some "FAILED"
          <-> UpiQuery.sp_failureReason s = Some "Insufficient balance")
      /\ (UpiQuery.sp_status s <> Some "FAILED" -> UpiQuery.sp_failureReason s = None)
      /\ (UpiQuery.sp_updatedAt s - UpiQuery.sp_createdAt s = 60000)%Z.
Proof.
  intros E payoutId Hmock.
  exists (UpiQuery.mockPayoutStatus E payoutId).
  unfold UpiQuery.getUpiPayoutStatus, UpiQuery.getPayoutStatus. rewrite Hmock.
  split; [reflexivity|]. split; [reflexivity|]. split; [reflexivity|].
  unfold UpiQuery.mockPayoutStatus. simpl.
  set (random := Upi.Math_random (UpiQuery.base E)).
  assert (Hdate : forall n : Z, (n - (n - 60000) = 60000)%Z) by (intros; lia).
  destruct (Qlt_le_dec random (7 # 10)) as [H7|H7].
  - rewrite (Qle_bool_false_lt (9 # 10) random)
      by (eapply Qlt_trans; [exact H7 | reflexivity]).
    repeat split; try discriminate; auto.
  - destruct (Qlt_le_dec random (9 # 10)) as [H9|H9].
    + rewrite (Qle_bool_false_lt (9 # 10) random) by exact H9.
      repeat split; try discriminate; auto.
    + apply Qle_bool_iff in H9. rewrite H9.
      repeat split; try discriminate; auto. intros H; contradiction.
Qed.

Lemma mock_status_shape_witness :
  exists s,
    UpiQuery.getPayoutStatus mock_query "never-issued" = Some s
    /\ UpiQuery.getUpiPayoutStatus mock_query "never-issued" = Ok s
    /\ UpiQuery.sp_payoutId s = "never-issued"
    /\ (UpiQuery.sp_status s = Some "SUCCESS"
        \/ UpiQuery.sp_status s = Some "PENDING"
        \/ UpiQuery.sp_status s = Some "FAILED")
    /\ (UpiQuery.sp_status s = Some "FAILED"
        <-> UpiQuery.sp_failureReason s = Some "Insufficient balance")
    /\ (UpiQuery.sp_status s <> Some "FAILED" -> UpiQuery.sp_failureReason s = None)
    /\ (UpiQuery.sp_updatedAt s - UpiQuery.sp_createdAt s = 60000)%Z.
Proof.
  apply (mock_status_shape mock_query "never-issued"). reflexivity.
Defined.

(** X16.  Outside mock mode [getUpiPayoutStatus] answers with the 404 error
    "Payout not found" exactly when the request to the provider fails or its
    reply has no beneficiary; otherwise it answers with a record that
    carries the payout id of the request, whatever id the reply mentions. *)
Theorem live_status_not_found :
  forall (E : UpiQuery.Env) (payoutId : string),
    Upi.use_mock (UpiQuery.base E) = false ->
    (UpiQuery.getUpiPayoutStatus E payoutId = Threw (HttpError "Payout not found" 404)
     <-> ((exists e, UpiQuery.axios_get_payout E payoutId = Threw e)
          \/ exists data, UpiQuery.axios_get_payout E payoutId = Ok data
                          /\ UpiQuery.data_beneficiary data = None))
    /\ (forall s, UpiQuery.getUpiPayoutStatus E payoutId = Ok s ->
                  UpiQuery.sp_payoutId s = payoutId).
Proof.
  intros E payoutId Hmock.
  unfold UpiQuery.getUpiPayoutStatus, UpiQuery.getPayoutStatus. rewrite Hmock.
  destruct (UpiQuery.axios_get_payout E payoutId) as [data|e].
  - destruct (UpiQuery.data_beneficiary data) as [upi_id|] eqn:Hb.
    + split.
      * split; [discriminate|].
        intros [(e & He) | (d & Hd & Hnone)]; [discriminate|].
        injection Hd as <-. congruence.
      * intros s H. injection H as <-. reflexivity.
    + split; [|discriminate]. split; [|reflexivity]. intros _. right. eauto.
  - split; [|discriminate]. split; [|reflexivity]. intros _. left. eauto.
Qed.

Lemma live_status_not_found_witness :
  UpiQuery.getUpiPayoutStatus live_query "po1" = Threw (HttpError "Payout not found" 404).
Proof.
  apply (proj1 (live_status_not_found live_query "po1" eq_refl)).
  left. exists (Failure "ECONNREFUSED"). reflexivity.
Defined.

(** ** The handlers over the database *)

Section OverTheDatabase.
Import Backend.

Lemma with_core_payments_same (w : Backend.World) :
  with_core (with_payments (payments (core w)) (core w)) w = w.
Proof. destruct w as [[db st] ms rs]; reflexivity. Qed.

(** An UPDATE of the status either changes nothing and fails, with an error
    that is not one of [createError], or replaces the row the server reads
    the id as. *)
Lemma Pg_updatePaymentStatus_effect S key s hash db :
  (exists e, Pg.updatePaymentStatus S key s hash db = (Threw e, db)
             /\ (e = Pg.db_error \/ e = TypeError))
  \/ exists text k p p' stored,
       key = Some text /\ Pg.uuid_in S text = Some k /\ db !! k = Some p
       /\ Pg.read_hash S hash = Some stored
       /\ Pg.updatePaymentStatus S key s hash db = (Ok p', <[k := p']> db)
       /\ same_terms p p' /\ Ledger.status p' = s
       /\ upiPayoutId p' = upiPayoutId p
       /\ aptosTransactionHash p'
          = match stored with Some h => Some h | None => aptosTransactionHash p end.
Proof.
  unfold Pg.updatePaymentStatus.
  destruct (Pg.answers S Pg.UPDATE_status); cbn [negb]; [|left; eauto].
  destruct (Pg.read_hash S hash) as [stored|]; [|left; eauto].
  destruct key as [text|]; [|left; eauto].
  destruct (Pg.uuid_in S text) as [k|] eqn:Hk; [|left; eauto].
  destruct (db !! k) as [p|] eqn:Hp; [|left; eauto].
  right. exists text, k, p. destruct stored as [h|]; do 2 eexists;
    repeat split; try reflexivity; eassumption.
Qed.

Lemma Pg_updatePaymentPayout_effect S key payout db :
  (exists e, Pg.updatePaymentPayout S key payout db = (Threw e, db)
             /\ (e = Pg.db_error \/ e = TypeError))
  \/ exists c k p,
       Pg.uuid_in S payout = Some c /\ Pg.uuid_in S key = Some k /\ db !! k = Some p
       /\ Pg.updatePaymentPayout S key payout db
          = (Ok (set_payout c (Pg.CURRENT_TIMESTAMP S) p),
             <[k := set_payout c (Pg.CURRENT_TIMESTAMP S) p]> db).
Proof.
  unfold Pg.updatePaymentPayout.
  destruct (Pg.answers S Pg.UPDATE_payout); cbn [negb]; [|left; eauto].
  destruct (Pg.uuid_in S payout) as [c|] eqn:Hc; [|left; eauto].
  destruct (Pg.uuid_in S key) as [k|] eqn:Hk; [|left; eauto].
  destruct (db !! k) as [p|] eqn:Hp; [|left; eauto].
  right. exists c, k, p. repeat split; assumption.
Qed.

(** What one request does to table [payments]: nothing, or one row, the one
    the server reads the request's id as, replaced. *)
Lemma serve_payments E rq w :
  payments (core (snd (serve E rq w))) = payments (core w)
  \/ exists k p p',
       target_row E rq = Some k /\ payments (core w) !! k = Some p
       /\ payments (core (snd (serve E rq w))) = <[k := p']> (payments (core w))
       /\ same_terms p p'.
Proof.
  destruct rq as [body|req|body]; unfold target_row; cbn [serve Run.target].
  - unfold initiateUpiPayout, Pg.getPaymentById.
    destruct (_ || _); [by left|].
    destruct (po_transactionId body) as [tid|]; [|by left].
    destruct (po_merchantUpiId body) as [mupi|]; [|by left].
    destruct (po_amountINR body) as [amt|]; [|by left].
    destruct (negb (Pg.answers _ _)); [by left|].
    destruct (Pg.uuid_in (server E) tid) as [k|] eqn:Hk; [|by left].
    destruct (payments (core w) !! k) as [p|] eqn:Hp; [|by left].
    destruct (negb _); [by left|].
    destruct (initiatePayout_never_throws (upiEnv (coreEnv E))
                {| Upi.transactionId := tid; Upi.merchantUpiId := mupi;
                   Upi.amount := amt; Upi.currency := "INR" |} (upi (core w)))
      as (r & st & ->).
    destruct (Pg_updatePaymentPayout_effect (server E) tid (Upi.payoutId r)
                (payments (with_upi st (core w))))
      as [(e & -> & _) | (c & k' & p' & _ & Hk' & Hp' & ->)]; [by left|].
    right. rewrite Hk in Hk'. injection Hk' as <-.
    cbn [with_upi payments] in Hp'. rewrite Hp in Hp'. injection Hp' as <-.
    exists k, p, (set_payout c (Pg.CURRENT_TIMESTAMP (server E)) p).
    split; [reflexivity|]. split; [exact Hp|]. split; [reflexivity|].
    repeat split.
  - unfold handleUpiWebhook.
    destruct (Pg_updatePaymentStatus_effect (server E) (wh_transactionId req)
                (webhook_paymentStatus (wh_status req)) None (payments (core w)))
      as [(e & -> & _) | (text & k & p & p' & stored & -> & Hk & Hp & _ & -> & Hsame & _)];
      [by left|].
    right. exists k, p, p'.
    split; [exact Hk|]. split; [exact Hp|]. split; [reflexivity | exact Hsame].
  - unfold confirmPayment.
    destruct (_ || _); [by left|].
    destruct (cf_transactionId body) as [tid|]; [|by left].
    destruct (cf_aptosTransactionHash body) as [hash|]; [|by left].
    destruct (verifyTransaction (coreEnv E) hash) as [[|]|e]; [|by left|by left].
    destruct (Pg_updatePaymentStatus_effect (server E) (Some tid) confirmed (Some hash)
                (payments (core w)))
      as [(e & -> & _) | (text & k & p & p' & stored & Ht & Hk & Hp & _ & -> & Hsame & _)];
      [by left|].
    injection Ht as <-.
    right. exists k, p, p'.
    split; [exact Hk|]. split; [exact Hp|]. split; [reflexivity | exact Hsame].
Qed.

Lemma with_core_same (w : Backend.World) : with_core (core w) w = w.
Proof. destruct w; reflexivity. Qed.

Ltac same_world :=
  cbn [snd];
  first [ reflexivity
        | symmetry; apply with_core_same
        | rewrite with_core_payments_same; symmetry; apply with_core_same ].

(** On a server that reads every value as it is, runs every statement and
    has the clock of the ledger, the handlers are those of [Controllers]. *)
Lemma serve_on_transparent_server (E : Backend.Env) (rq : request) (w : Backend.World) :
  server E = Pg.transparent (now (coreEnv E)) ->
  snd (serve E rq w) = with_core (Run.handle (coreEnv E) rq (core w)) w.
Proof.
  intros HS. destruct rq as [body|req|body]; cbn [serve Run.handle].
  - unfold initiateUpiPayout, Controllers.initiateUpiPayout, Pg.getPaymentById,
      getPaymentById, Pg.updatePaymentPayout, updatePaymentPayout.
    rewrite HS. cbn [Pg.answers Pg.uuid_in Pg.transparent Pg.CURRENT_TIMESTAMP negb].
    destruct (_ || _); [same_world|].
    destruct (po_transactionId body) as [tid|]; [|same_world].
    destruct (po_merchantUpiId body) as [mupi|]; [|same_world].
    destruct (po_amountINR body) as [amt|]; [|same_world].
    destruct (payments (core w) !! tid) as [p|] eqn:Hp;
      [|same_world].
    destruct (negb _); [same_world|].
    destruct (Upi.initiatePayout _ _ _) as [[r|e] st]; [|same_world].
    cbn [with_upi payments]. rewrite Hp. same_world.
  - unfold handleUpiWebhook, Controllers.handleUpiWebhook, Pg.updatePaymentStatus,
      updatePaymentStatus.
    rewrite HS.
    cbn [Pg.answers Pg.uuid_in Pg.transparent Pg.CURRENT_TIMESTAMP Pg.read_hash negb].
    destruct (wh_transactionId req) as [tid|]; [|same_world].
    destruct (payments (core w) !! tid); same_world.
  - unfold confirmPayment, Controllers.confirmPayment, Pg.updatePaymentStatus,
      updatePaymentStatus, Pg.read_hash.
    rewrite HS.
    cbn [Pg.answers Pg.uuid_in Pg.varchar_in Pg.transparent Pg.CURRENT_TIMESTAMP negb].
    destruct (negb (truthy_str (cf_transactionId body))) eqn:Ht;
      [same_world|].
    destruct (negb (truthy_str (cf_aptosTransactionHash body))) eqn:Hh;
      [same_world|].
    cbn [orb].
    destruct (cf_transactionId body) as [tid|]; [|same_world].
    destruct (cf_aptosTransactionHash body) as [hash|];
      [|same_world].
    destruct (verifyTransaction (coreEnv E) hash) as [[|]|e];
      [|same_world|same_world].
    cbn [truthy_str] in Hh |- *. apply negb_false_iff in Hh. rewrite Hh.
    apply negb_true_iff in Hh. rewrite Hh. cbn [fmap option_fmap option_map].
    destruct (payments (core w) !! tid); same_world.
Qed.

(** X3.  A request changes no payment but the one it names: every row
    other than the one the server reads the request's id as, if it reads it
    as one, is after the request as it was before. *)
Theorem handlers_touch_named_payment_only :
  forall (E : Backend.Env) (rq : request) (w : Backend.World) (k : string),
    target_row E rq <> Some k ->
    payments (core (snd (serve E rq w))) !! k = payments (core w) !! k.
Proof.
  intros E rq w k Hne.
  destruct (serve_payments E rq w) as [-> | (k' & p & p' & Hk & _ & -> & _)];
    [reflexivity|].
  apply lookup_insert_ne. intros ->. exact (Hne Hk).
Qed.

Lemma handlers_touch_named_payment_only_witness :
  let rq := Webhook (webhook_of "3F2B8C1E-5A4D-4E6F-8A9B-0C1D2E3F4A5B" "SUCCESS") in
  let w' := snd (serve (backend_env always coingecko_up) rq (two_payments pending)) in
  payments (core w') !! id_b = Some (row id_b pending)
  /\ Ledger.status <$> payments (core w') !! id_a = Some completed.
Proof.
  intros rq w'. split; [|reflexivity].
  unfold w'.
  rewrite (handlers_touch_named_payment_only (backend_env always coingecko_up) rq
             (two_payments pending) id_b);
    [reflexivity | discriminate].
Defined.

(** X4.  A request that is answered with an error of the handler's own
    checks (a [createError]: 400, 404) has changed nothing: no row, no rate
    in the cache, no identifier drawn, nothing sent to the provider. *)
Theorem rejected_request_changes_nothing :
  forall (E : Backend.Env) (w w' : Backend.World) (message : string) (code : Z),
    (forall rq, serve E rq w = (Some (HttpError message code), w') -> w' = w)
    /\ (forall body, initiatePayment E body w = (Threw (HttpError message code), w') ->
          w' = w).
Proof.
  intros E w w' message code. split.
  - intros [body|req|body]; cbn [serve].
    + unfold initiateUpiPayout, Pg.getPaymentById.
      destruct (_ || _); [intros H; by injection H|].
      destruct (po_transactionId body) as [tid|]; [|intros H; by injection H].
      destruct (po_merchantUpiId body) as [mupi|]; [|intros H; by injection H].
      destruct (po_amountINR body) as [amt|]; [|intros H; by injection H].
      destruct (negb (Pg.answers _ _)); [intros H; by injection H|].
      destruct (Pg.uuid_in (server E) tid) as [k|]; [|intros H; by injection H].
      destruct (payments (core w) !! k) as [p|]; [|intros H; by injection H].
      destruct (negb _); [intros H; by injection H|].
      destruct (initiatePayout_never_throws (upiEnv (coreEnv E))
                  {| Upi.transactionId := tid; Upi.merchantUpiId := mupi;
                     Upi.amount := amt; Upi.currency := "INR" |} (upi (core w)))
        as (r & st & ->).
      destruct (Pg_updatePaymentPayout_effect (server E) tid (Upi.payoutId r)
                  (payments (with_upi st (core w))))
        as [(e & -> & [-> | ->]) | (c & k' & p' & _ & _ & _ & ->)];
        cbn [answer]; intros H; discriminate H.
    + unfold handleUpiWebhook.
      destruct (Pg_updatePaymentStatus_effect (server E) (wh_transactionId req)
                  (webhook_paymentStatus (wh_status req)) None (payments (core w)))
        as [(e & -> & [-> | ->]) | (text & k & p & p' & stored & _ & _ & _ & _ & -> & _)];
        cbn [answer]; intros H; discriminate H.
    + unfold confirmPayment.
      destruct (_ || _); [intros H; by injection H|].
      destruct (cf_transactionId body) as [tid|]; [|intros H; by injection H].
      destruct (cf_aptosTransactionHash body) as [hash|]; [|intros H; by injection H].
      destruct (verifyTransaction (coreEnv E) hash) as [[|]|e];
        [|intros H; by injection H|intros H; by injection H].
      destruct (Pg_updatePaymentStatus_effect (server E) (Some tid) confirmed (Some hash)
                  (payments (core w)))
        as [(e & -> & [-> | ->]) | (text & k & p & p' & stored & _ & _ & _ & _ & -> & _)];
        cbn [answer]; intros H; discriminate H.
  - intros body. unfold initiatePayment.
    destruct (_ || _); [intros H; by injection H|].
    destruct (in_merchantId body) as [mid|]; [|intros H; by injection H].
    destruct (in_amountINR body) as [amt|]; [|intros H; by injection H].
    destruct (in_walletAddress body) as [wallet|]; [|intros H; by injection H].
    destruct (in_merchantUpiId body) as [mupi|]; [|intros H; by injection H].
    cbv zeta.
    destruct (getExchangeRate_never_raises (oracleEnv E) "USDC" "INR" (rates w))
      as (rate & ->).
    cbn [Upi.draw_uuid]. unfold Pg.createPayment.
    destruct (negb (Pg.answers _ _)); [intros H; discriminate H|].
    destruct (Pg.read_row _ _ _ _) as [r|]; [|intros H; discriminate H].
    destruct (negb _); [intros H; discriminate H|].
    destruct (payments (core w) !! id r); intros H; discriminate H.
Qed.

Lemma rejected_request_changes_nothing_witness :
  snd (serve (backend_env always coingecko_up) (Payout (payout_of id_a))
         (two_payments pending))
  = two_payments pending.
Proof.
  apply (proj1 (rejected_request_changes_nothing (backend_env always coingecko_up)
                  (two_payments pending) _ "Payment not confirmed yet" 400)
               (Payout (payout_of id_a))).
  reflexivity.
Defined.

(** X6.  For an id that names no payment there are two cases.  When the
    server reads the id as a uuid that no row has, [getPaymentStatus] and
    [initiateUpiPayout] answer with the 404 error "Payment not found",
    whereas [confirmPayment] (hash verified) and [handleUpiWebhook] fail
    with the TypeError of reading the missing row.  When the server does not
    read the id as a uuid, all four pass on the error of the query.  None of
    them changes anything. *)
Theorem unknown_payment_errors :
  forall (E : Backend.Env) (w : Backend.World) (tid mupi hash : string) (amt : Q)
         (req : WebhookRequest),
    tid <> "" -> mupi <> "" -> hash <> "" -> Qeq_bool amt 0 = false ->
    verifyTransaction (coreEnv E) hash = Ok true ->
    wh_transactionId req = Some tid ->
    Pg.answers (server E) Pg.SELECT_payment = true ->
    Pg.answers (server E) Pg.UPDATE_status = true ->
    is_Some (Pg.varchar_in (server E) 255 hash) ->
    let payout := {| po_transactionId := Some tid; po_merchantUpiId := Some mupi;
                     po_amountINR := Some amt |} in
    let confirm := {| cf_transactionId := Some tid;
                      cf_aptosTransactionHash := Some hash |} in
    (forall k, Pg.uuid_in (server E) tid = Some k -> payments (core w) !! k = None ->
       getPaymentStatus E tid w = Threw (HttpError "Payment not found" 404)
       /\ initiateUpiPayout E payout w = (Threw (HttpError "Payment not found" 404), w)
       /\ confirmPayment E confirm w = (Threw TypeError, w)
       /\ handleUpiWebhook E req w = (Threw TypeError, w))
    /\ (Pg.uuid_in (server E) tid = None ->
        getPaymentStatus E tid w = Threw Pg.db_error
        /\ initiateUpiPayout E payout w = (Threw Pg.db_error, w)
        /\ confirmPayment E confirm w = (Threw Pg.db_error, w)
        /\ handleUpiWebhook E req w = (Threw Pg.db_error, w)).
Proof.
  intros E w tid mupi hash amt req Ht Hm Hh Ha Hv Hreq Hsel Hupd [h Hvar] payout confirm.
  assert (Hread : Pg.read_hash (server E) (Some hash) = Some (Some h)).
  { unfold Pg.read_hash. destruct (String.eqb_spec hash ""); [contradiction|].
    by rewrite Hvar. }
  assert (Hconf : confirmPayment E confirm w
    = match Pg.updatePaymentStatus (server E) (Some tid) confirmed (Some hash)
              (payments (core w)) with
      | (Ok p, db) => (Ok p, with_core (with_payments db (core w)) w)
      | (Threw e, db) => (Threw e, with_core (with_payments db (core w)) w)
      end).
  { unfold confirmPayment, confirm. cbn [cf_transactionId cf_aptosTransactionHash].
    rewrite !truthy_str_Some by assumption. cbn [negb orb]. by rewrite Hv. }
  split.
  - intros k Hk Hp. split; [|split; [|split]].
    + unfold getPaymentStatus, Pg.getPaymentById. by rewrite Hsel, Hk, Hp.
    + unfold initiateUpiPayout, Pg.getPaymentById, payout.
      cbn [po_transactionId po_merchantUpiId po_amountINR].
      rewrite !truthy_str_Some by assumption. unfold truthy_num.
      rewrite Ha, Hsel, Hk. cbn [negb orb]. by rewrite Hp.
    + rewrite Hconf. unfold Pg.updatePaymentStatus.
      rewrite Hupd, Hread, Hk, Hp. cbn [negb]. by rewrite with_core_payments_same.
    + unfold handleUpiWebhook, Pg.updatePaymentStatus.
      rewrite Hreq, Hupd, Hk, Hp. cbn [negb Pg.read_hash].
      by rewrite with_core_payments_same.
  - intros Hk. split; [|split; [|split]].
    + unfold getPaymentStatus, Pg.getPaymentById. by rewrite Hsel, Hk.
    + unfold initiateUpiPayout, Pg.getPaymentById, payout.
      cbn [po_transactionId po_merchantUpiId po_amountINR].
      rewrite !truthy_str_Some by assumption. unfold truthy_num.
      by rewrite Ha, Hsel, Hk.
    + rewrite Hconf. unfold Pg.updatePaymentStatus.
      rewrite Hupd, Hread, Hk. cbn [negb]. by rewrite with_core_payments_same.
    + unfold handleUpiWebhook, Pg.updatePaymentStatus.
      rewrite Hreq, Hupd, Hk. cbn [negb Pg.read_hash].
      by rewrite with_core_payments_same.
Qed.

Lemma unknown_payment_errors_witness :
  (getPaymentStatus (backend_env always coingecko_up) id_unknown (two_payments pending)
   = Threw (HttpError "Payment not found" 404)
   /\ confirmPayment (backend_env always coingecko_up) (confirm_of id_unknown "0xh")
        (two_payments pending)
      = (Threw TypeError, two_payments pending))
  /\ (getPaymentStatus (backend_env always coingecko_up) "tx9" (two_payments pending)
      = Threw Pg.db_error
      /\ confirmPayment (backend_env always coingecko_up) (confirm_of "tx9" "0xh")
           (two_payments pending)
         = (Threw Pg.db_error, two_payments pending)).
Proof.
  assert (Hm : "shop@upi" <> "") by discriminate.
  assert (Hh : "0xh" <> "") by discriminate.
  assert (Hvar : is_Some (Pg.varchar_in (Backend.server (backend_env always coingecko_up))
                            255 "0xh")) by (eexists; reflexivity).
  split.
  - assert (Ht : id_unknown <> "") by discriminate.
    destruct (proj1 (unknown_payment_errors (backend_env always coingecko_up)
                       (two_payments pending) id_unknown "shop@upi" "0xh" (840 # 1)
                       (webhook_of id_unknown "SUCCESS")
                       Ht Hm Hh eq_refl eq_refl eq_refl eq_refl eq_refl Hvar)
                    id_unknown eq_refl eq_refl)
      as (H1 & _ & H3 & _).
    split; assumption.
  - assert (Ht : "tx9" <> "") by discriminate.
    destruct (proj2 (unknown_payment_errors (backend_env always coingecko_up)
                       (two_payments pending) "tx9" "shop@upi" "0xh" (840 # 1)
                       (webhook_of "tx9" "SUCCESS")
                       Ht Hm Hh eq_refl eq_refl eq_refl eq_refl eq_refl Hvar)
                    eq_refl)
      as (H1 & _ & H3 & _).
    split; assumption.
Defined.

(** A payout request for a confirmed payment goes past the checks of the
    handler: what is left is the UPDATE, after the payout service has
    answered. *)
Lemma Backend_initiateUpiPayout_past_checks (E : Backend.Env) (w : Backend.World)
      (tid mupi : string) (amt : Q) (k : string) (p : Payment) r st' :
  tid <> "" -> mupi <> "" -> Qeq_bool amt 0 = false ->
  Pg.answers (server E) Pg.SELECT_payment = true ->
  Pg.uuid_in (server E) tid = Some k ->
  payments (core w) !! k = Some p -> Ledger.status p = confirmed ->
  Upi.initiatePayout (upiEnv (coreEnv E))
    {| Upi.transactionId := tid; Upi.merchantUpiId := mupi;
       Upi.amount := amt; Upi.currency := "INR" |} (upi (core w)) = (Ok r, st') ->
  initiateUpiPayout E {| po_transactionId := Some tid; po_merchantUpiId := Some mupi;
                         po_amountINR := Some amt |} w
  = match Pg.updatePaymentPayout (server E) tid (Upi.payoutId r)
            (payments (core w)) with
    | (Threw e, db) =>
        (Threw e, with_core (with_payments db (with_upi st' (core w))) w)
    | (Ok _, db) =>
        (Ok {| pr_payoutId := Upi.payoutId r; pr_status := Upi.status r;
               pr_message := "UPI payout initiated successfully" |},
         with_core (with_payments db (with_upi st' (core w))) w)
    end.
Proof.
  intros Ht Hm Ha Hsel Hk Hp Hs Hrun. unfold initiateUpiPayout, Pg.getPaymentById.
  cbn [po_transactionId po_merchantUpiId po_amountINR].
  rewrite !truthy_str_Some by assumption. unfold truthy_num. rewrite Ha, Hsel, Hk.
  cbn [negb orb]. rewrite Hp, Hs. cbn [status_eqb negb].
  rewrite Hrun. reflexivity.
Qed.



Lemma Pg_read_row_values S new_id now data k m a s r wa mu :
  Pg.uuid_in S new_id = Some k ->
  Pg.uuid_in S (cp_merchantId data) = Some m ->
  Pg.numeric_in S 15 2 (cp_amountINR data) = Some a ->
  Pg.numeric_in S 20 8 (cp_stablecoinAmount data) = Some s ->
  Pg.numeric_in S 10 4 (cp_exchangeRate data) = Some r ->
  Pg.varchar_in S 255 (cp_walletAddress data) = Some wa ->
  Pg.varchar_in S 255 (cp_merchantUpiId data) = Some mu ->
  Pg.read_row S new_id now data
  = Some {| id := k; merchantId := m; amountINR := a; stablecoinAmount := s;
            exchangeRate := r; walletAddress := wa; merchantUpiId := mu;
            status := cp_status data;
            aptosTransactionHash := None; upiPayoutId := None;
            createdAt := now; updatedAt := now |}.
Proof.
  intros Hk Hm Ha Hs Hr Hwa Hmu. unfold Pg.read_row.
  by rewrite Hk, Hm, Ha, Hs, Hr, Hwa, Hmu.
Qed.

Lemma Pg_createPayment_accepted S new_id now data ms db row :
  Pg.answers S Pg.INSERT_payment = true ->
  Pg.read_row S new_id now data = Some row ->
  merchantId row ∈ ms ->
  db !! id row = None ->
  Pg.createPayment S new_id now data ms db = (Ok row, <[id row := row]> db).
Proof.
  intros Ha Hr Hm Hd. unfold Pg.createPayment. rewrite Ha, Hr. cbn [negb].
  rewrite bool_decide_true by exact Hm. cbn [negb]. by rewrite Hd.
Qed.

Lemma Pg_createPayment_error S new_id now data ms db e db' :
  Pg.createPayment S new_id now data ms db = (Threw e, db') -> e = Pg.db_error.
Proof.
  unfold Pg.createPayment.
  destruct (negb (Pg.answers _ _)); [intros H; by injection H as <- _|].
  destruct (Pg.read_row _ _ _ _) as [row|]; [|intros H; by injection H as <- _].
  destruct (negb _); [intros H; by injection H as <- _|].
  destruct (db !! id row); [intros H; by injection H as <- _ | discriminate].
Qed.

(** A request with its four fields goes past the check of
    [initiatePayment]: what is left, once the oracle has returned a rate, is
    the INSERT. *)
Lemma Backend_initiatePayment_past_checks (E : Backend.Env) (w : Backend.World)
      (mid wallet mupi : string) (amt rate : Q) :
  mid <> "" -> wallet <> "" -> mupi <> "" -> Qeq_bool amt 0 = false ->
  value (getExchangeRate (oracleEnv E) "USDC" "INR" (rates w)) = Ok rate ->
  let n := Upi.uuid_calls (upi (core w)) in
  let R := getExchangeRate (oracleEnv E) "USDC" "INR" (rates w) in
  let after db :=
    with_core {| payments := db;
                 upi := {| Upi.uuid_calls := S n;
                           Upi.provider_log := Upi.provider_log (upi (core w)) |} |}
              (with_rates (cache R) w) in
  initiatePayment E {| in_merchantId := Some mid; in_amountINR := Some amt;
                       in_walletAddress := Some wallet;
                       in_merchantUpiId := Some mupi |} w
  = match Pg.createPayment (server E) (Upi.uuidv4 (upiEnv (coreEnv E)) n)
            (now (coreEnv E))
            {| cp_merchantId := mid; cp_amountINR := amt;
               cp_stablecoinAmount := divide E amt rate; cp_exchangeRate := rate;
               cp_walletAddress := wallet; cp_merchantUpiId := mupi;
               cp_status := pending |}
            (merchants w) (payments (core w)) with
    | (Threw e, db) => (Threw e, after db)
    | (Ok payment, db) =>
        (Ok {| ir_transactionId := Ledger.id payment; ir_amountINR := amt;
               ir_stablecoinAmount := divide E amt rate; ir_exchangeRate := rate;
               ir_escrowAddress := APTOS_ESCROW_ADDRESS E |}, after db)
    end.
Proof.
  intros Hm Hw Hu Ha Hrate n R after. unfold initiatePayment.
  cbn [in_merchantId in_amountINR in_walletAddress in_merchantUpiId].
  rewrite !truthy_str_Some by assumption. unfold truthy_num. rewrite Ha.
  cbn [negb orb]. cbv zeta. rewrite Hrate. reflexivity.
Qed.

(** X17.  [initiatePayment] is never blocked by the rate oracle: when the
    four fields of the request are present the oracle returns a rate,
    whatever the rate sources answer, not zero when the cache holds no zero,
    and the only error the handler can answer with is that of the INSERT.
    When the server runs the INSERT, the handler answers with success.  The
    reply carries the id as the server reads it and the numbers as they
    were computed: the amount of the request, the rate of the oracle and
    their quotient as the runtime rounds it.  The row is [pending], has
    neither a transaction hash nor a payout id, and holds the numbers as the
    server reads them into its DECIMAL columns.  No other row changes and
    nothing is sent to the payout provider. *)
Theorem initiatePayment_never_blocked :
  forall (E : Backend.Env) (w : Backend.World) (mid wallet mupi : string) (amt : Q),
    mid <> "" -> wallet <> "" -> mupi <> "" -> Qeq_bool amt 0 = false ->
    nonzero_rates (rates w) ->
    let body := {| in_merchantId := Some mid; in_amountINR := Some amt;
                   in_walletAddress := Some wallet; in_merchantUpiId := Some mupi |} in
    let n := Upi.uuid_calls (upi (core w)) in
    let new_id := Upi.uuidv4 (upiEnv (coreEnv E)) n in
    let R := getExchangeRate (oracleEnv E) "USDC" "INR" (rates w) in
    exists rate,
      value R = Ok rate /\ Qeq_bool rate 0 = false
      /\ (forall e w', initiatePayment E body w = (Threw e, w') -> e = Pg.db_error)
      /\ (forall k m a s r wa mu,
            Pg.answers (server E) Pg.INSERT_payment = true ->
            Pg.uuid_in (server E) new_id = Some k ->
            Pg.uuid_in (server E) mid = Some m ->
            Pg.numeric_in (server E) 15 2 amt = Some a ->
            Pg.numeric_in (server E) 20 8 (divide E amt rate) = Some s ->
            Pg.numeric_in (server E) 10 4 rate = Some r ->
            Pg.varchar_in (server E) 255 wallet = Some wa ->
            Pg.varchar_in (server E) 255 mupi = Some mu ->
            m ∈ merchants w ->
            payments (core w) !! k = None ->
            initiatePayment E body w
            = (Ok {| ir_transactionId := k; ir_amountINR := amt;
                     ir_stablecoinAmount := divide E amt rate; ir_exchangeRate := rate;
                     ir_escrowAddress := APTOS_ESCROW_ADDRESS E |},
               {| core :=
                    {| payments :=
                         <[k := {| id := k; merchantId := m; amountINR := a;
                                   stablecoinAmount := s; exchangeRate := r;
                                   walletAddress := wa; merchantUpiId := mu;
                                   status := pending;
                                   aptosTransactionHash := None; upiPayoutId := None;
                                   createdAt := now (coreEnv E);
                                   updatedAt := now (coreEnv E) |}]>
                           (payments (core w));
                       upi := {| Upi.uuid_calls := S n;
                                 Upi.provider_log := Upi.provider_log (upi (core w)) |} |};
                  merchants := merchants w;
                  rates := cache R |})).
Proof.
  intros E w mid wallet mupi amt Hm Hw Hu Ha Hnz body n new_id R.
  destruct (getExchangeRate_nonzero (oracleEnv E) "USDC" "INR" (rates w) Hnz)
    as (rate & Hrate & Hrnz & _).
  exists rate. split; [exact Hrate|]. split; [exact Hrnz|].
  pose proof (Backend_initiatePayment_past_checks E w mid wallet mupi amt rate
                Hm Hw Hu Ha Hrate) as Hpre.
  cbv zeta in Hpre. fold body n new_id R in Hpre.
  split.
  - intros e w'. rewrite Hpre.
    destruct (Pg.createPayment _ _ _ _ _ _) as [[payment|e0] db] eqn:Hcp;
      [discriminate|].
    intros H. injection H as <- _. exact (Pg_createPayment_error _ _ _ _ _ _ _ _ Hcp).
  - intros k m a s r wa mu Hans Hk Hmid Hna Hns Hnr Hwa Hmu Hin Hfree.
    rewrite Hpre.
    pose proof (Pg_read_row_values (server E) new_id (now (coreEnv E))
                  {| cp_merchantId := mid; cp_amountINR := amt;
                     cp_stablecoinAmount := divide E amt rate; cp_exchangeRate := rate;
                     cp_walletAddress := wallet; cp_merchantUpiId := mupi;
                     cp_status := pending |}
                  k m a s r wa mu Hk Hmid Hna Hns Hnr Hwa Hmu) as Hrow.
    rewrite (Pg_createPayment_accepted _ _ _ _ _ _ _ Hans Hrow Hin Hfree).
    reflexivity.
Qed.

Lemma nonzero_rates_empty : nonzero_rates ∅.
Proof. intros k e He. rewrite lookup_empty in He. discriminate He. Qed.

Lemma initiatePayment_never_blocked_witness :
  exists reply w' p,
    initiatePayment (backend_env always coingecko_up) initiate_body no_payment
    = (Ok reply, w')
    /\ ir_transactionId reply = uuid4_supply 0
    /\ ir_amountINR reply = 840 # 1
    /\ ir_exchangeRate reply = 83123456 # 1000000
    /\ payments (core w') !! uuid4_supply 0 = Some p
    /\ amountINR p = 840 # 1
    /\ exchangeRate p = 166247 # 2000
    /\ Ledger.status p = pending /\ upiPayoutId p = None.
Proof.
  assert (Hm : merchant_a <> "") by discriminate.
  assert (Hw : "0xabc" <> "") by discriminate.
  assert (Hu : "shop@upi" <> "") by discriminate.
  destruct (initiatePayment_never_blocked (backend_env always coingecko_up) no_payment
              merchant_a "0xabc" "shop@upi" (840 # 1) Hm Hw Hu eq_refl nonzero_rates_empty)
    as (rate & Hrate & _ & _ & Hok).
  vm_compute in Hrate. injection Hrate as <-.
  do 3 eexists. split.
  - apply Hok; vm_compute; reflexivity.
  - cbn [ir_transactionId ir_amountINR ir_exchangeRate core payments].
    rewrite lookup_insert_eq. repeat split.
Defined.

Lemma Backend_confirmPayment_step (E : Backend.Env) (w : Backend.World) tid hash h k p :
  tid <> "" -> hash <> "" ->
  verifyTransaction (coreEnv E) hash = Ok true ->
  Pg.answers (server E) Pg.UPDATE_status = true ->
  Pg.varchar_in (server E) 255 hash = Some h ->
  Pg.uuid_in (server E) tid = Some k ->
  payments (core w) !! k = Some p ->
  confirmPayment E {| cf_transactionId := Some tid;
                      cf_aptosTransactionHash := Some hash |} w
  = (Ok (set_hash h (set_status confirmed (Pg.CURRENT_TIMESTAMP (server E)) p)),
     with_core
       (with_payments
          (<[k := set_hash h (set_status confirmed (Pg.CURRENT_TIMESTAMP (server E)) p)]>
             (payments (core w))) (core w)) w).
Proof.
  intros Ht Hh Hv Hans Hvar Hk Hp. unfold confirmPayment.
  cbn [cf_transactionId cf_aptosTransactionHash].
  rewrite !truthy_str_Some by assumption. cbn [negb orb]. rewrite Hv.
  unfold Pg.updatePaymentStatus, Pg.read_hash. rewrite Hans. cbn [negb].
  destruct (String.eqb_spec hash ""); [contradiction|].
  rewrite Hvar. cbn [fmap option_fmap option_map]. by rewrite Hk, Hp.
Qed.

Lemma Backend_handleUpiWebhook_step (E : Backend.Env) (w : Backend.World) req tid k p :
  wh_transactionId req = Some tid ->
  Pg.answers (server E) Pg.UPDATE_status = true ->
  Pg.uuid_in (server E) tid = Some k ->
  payments (core w) !! k = Some p ->
  handleUpiWebhook E req w
  = (Ok tt,
     with_core
       (with_payments
          (<[k := set_status (webhook_paymentStatus (wh_status req))
                    (Pg.CURRENT_TIMESTAMP (server E)) p]> (payments (core w)))
          (core w)) w).
Proof.
  intros Ht Hans Hk Hp. unfold handleUpiWebhook, Pg.updatePaymentStatus.
  rewrite Ht, Hans. cbn [negb Pg.read_hash]. by rewrite Hk, Hp.
Qed.

Lemma initiatePayout_payoutId_drawn (E : Upi.Env) request st r st' :
  Upi.initiatePayout E request st = (Ok r, st') ->
  exists i, Upi.payoutId r = Upi.uuidv4 E i.
Proof.
  destruct (initiatePayout_cases E request st)
    as [(_ & ->) | [(_ & data & _ & ->) | (_ & e & _ & ->)]];
    intros H; injection H as <- _; [|eauto ..].
  unfold Upi.mockUpiPayout. destruct (Qlt_le_dec _ _); eauto.
Qed.

(** X18.  The intended flow goes through when the server runs every
    statement.  A payment just created by [initiatePayment] is refused a
    payout ("Payment not confirmed yet"); after [confirmPayment] with a
    verified hash, [initiateUpiPayout] and a SUCCESS webhook, in this order
    and each naming the payment by the id of the first reply, the payment is
    [completed], carries that hash and the identifier of the payout
    response, and still has the merchant, the wallet, the UPI id and the
    numbers the server stored when it was created: the amount, the
    stablecoin amount and the rate as read into the DECIMAL columns. *)
Theorem payment_flow_completes :
  forall (E Ec Ep Ew : Backend.Env) (w : Backend.World)
         (mid wallet mupi hash : string) (amt rate : Q) (wh : WebhookRequest)
         (k m : string) (a s r : Q) (wa mu h : string),
    mid <> "" -> wallet <> "" -> mupi <> "" -> Qeq_bool amt 0 = false -> hash <> "" ->
    nonzero_rates (rates w) ->
    let n := Upi.uuid_calls (upi (core w)) in
    let new_id := Upi.uuidv4 (upiEnv (coreEnv E)) n in
    value (getExchangeRate (oracleEnv E) "USDC" "INR" (rates w)) = Ok rate ->
    Pg.answers (server E) Pg.INSERT_payment = true ->
    Pg.uuid_in (server E) new_id = Some k ->
    Pg.uuid_in (server E) mid = Some m ->
    Pg.numeric_in (server E) 15 2 amt = Some a ->
    Pg.numeric_in (server E) 20 8 (divide E amt rate) = Some s ->
    Pg.numeric_in (server E) 10 4 rate = Some r ->
    Pg.varchar_in (server E) 255 wallet = Some wa ->
    Pg.varchar_in (server E) 255 mupi = Some mu ->
    m ∈ merchants w ->
    payments (core w) !! k = None ->
    k <> "" ->
    Pg.uuid_in (server Ec) k = Some k ->
    Pg.uuid_in (server Ep) k = Some k ->
    Pg.uuid_in (server Ew) k = Some k ->
    Pg.answers (server Ec) Pg.UPDATE_status = true ->
    Pg.answers (server Ep) Pg.SELECT_payment = true ->
    Pg.answers (server Ep) Pg.UPDATE_payout = true ->
    Pg.answers (server Ew) Pg.UPDATE_status = true ->
    verifyTransaction (coreEnv Ec) hash = Ok true ->
    Pg.varchar_in (server Ec) 255 hash = Some h ->
    (forall i, is_Some (Pg.uuid_in (server Ep) (Upi.uuidv4 (upiEnv (coreEnv Ep)) i))) ->
    wh_transactionId wh = Some k -> wh_status wh = Some "SUCCESS" ->
    let payout := {| po_transactionId := Some k; po_merchantUpiId := Some mupi;
                     po_amountINR := Some amt |} in
    exists reply w1,
      initiatePayment E {| in_merchantId := Some mid; in_amountINR := Some amt;
                           in_walletAddress := Some wallet;
                           in_merchantUpiId := Some mupi |} w = (Ok reply, w1)
      /\ ir_transactionId reply = k
      /\ initiateUpiPayout Ep payout w1
         = (Threw (HttpError "Payment not confirmed yet" 400), w1)
      /\ exists p response st c,
           payments (core (Backend.run
                             [(Ec, Confirm {| cf_transactionId := Some k;
                                              cf_aptosTransactionHash := Some hash |});
                              (Ep, Payout payout);
                              (Ew, Webhook wh)] w1)) !! k = Some p
           /\ Ledger.status p = completed
           /\ aptosTransactionHash p = Some h
           /\ Upi.initiatePayout (upiEnv (coreEnv Ep))
                {| Upi.transactionId := k; Upi.merchantUpiId := mupi;
                   Upi.amount := amt; Upi.currency := "INR" |} (upi (core w1))
              = (Ok response, st)
           /\ Pg.uuid_in (server Ep) (Upi.payoutId response) = Some c
           /\ upiPayoutId p = Some c
           /\ Ledger.id p = k /\ merchantId p = m
           /\ amountINR p = a /\ stablecoinAmount p = s /\ exchangeRate p = r
           /\ walletAddress p = wa /\ merchantUpiId p = mu.
Proof.
  intros E Ec Ep Ew w mid wallet mupi hash amt rate wh k m a s r wa mu h
         Hm Hw Hu Ha Hh Hnz n new_id Hrate Hins Hk Hmid Hna Hns Hnr Hwa Hmu Hin Hfree
         Hkne Hkc Hkp Hkw Hac Hsp Hup Haw Hv Hvar Hids Hwt Hws payout.
  set (p0 := {| id := k; merchantId := m; amountINR := a; stablecoinAmount := s;
                exchangeRate := r; walletAddress := wa; merchantUpiId := mu;
                status := pending; aptosTransactionHash := None; upiPayoutId := None;
                createdAt := now (coreEnv E); updatedAt := now (coreEnv E) |}).
  pose proof (Pg_read_row_values (server E) new_id (now (coreEnv E))
                {| cp_merchantId := mid; cp_amountINR := amt;
                   cp_stablecoinAmount := divide E amt rate; cp_exchangeRate := rate;
                   cp_walletAddress := wallet; cp_merchantUpiId := mupi;
                   cp_status := pending |}
                k m a s r wa mu Hk Hmid Hna Hns Hnr Hwa Hmu) as Hrow.
  fold p0 in Hrow.
  pose proof (Backend_initiatePayment_past_checks E w mid wallet mupi amt rate
                Hm Hw Hu Ha Hrate) as Hok.
  cbv zeta in Hok. fold n new_id in Hok.
  rewrite (Pg_createPayment_accepted _ _ _ _ _ _ _ Hins Hrow Hin Hfree) in Hok.
  cbn [Ledger.id p0] in Hok.
  do 2 eexists. split; [exact Hok|]. split; [reflexivity|].
  set (w1 := with_core _ _).
  assert (Hp0 : payments (core w1) !! k = Some p0) by apply lookup_insert_eq.
  split.
  - unfold initiateUpiPayout, Pg.getPaymentById, payout.
    cbn [po_transactionId po_merchantUpiId po_amountINR].
    rewrite !truthy_str_Some by assumption. unfold truthy_num. rewrite Ha, Hsp, Hkp.
    cbn [negb orb]. rewrite Hp0. reflexivity.
  - cbn [Backend.run serve].
    rewrite (Backend_confirmPayment_step Ec w1 k hash h k p0 Hkne Hh Hv Hac Hvar Hkc Hp0).
    cbn [snd answer].
    set (p1 := set_hash h (set_status confirmed _ p0)).
    set (w2 := with_core _ w1).
    assert (Hp1 : payments (core w2) !! k = Some p1) by apply lookup_insert_eq.
    destruct (initiatePayout_never_throws (upiEnv (coreEnv Ep))
                {| Upi.transactionId := k; Upi.merchantUpiId := mupi;
                   Upi.amount := amt; Upi.currency := "INR" |} (upi (core w2)))
      as (response & st & Hrun).
    destruct (initiatePayout_payoutId_drawn _ _ _ _ _ Hrun) as (i & Hi).
    destruct (Hids i) as (c & Hc). rewrite <- Hi in Hc.
    pose proof (Backend_initiateUpiPayout_past_checks Ep w2 k mupi amt k p1 response st
                  Hkne Hu Ha Hsp Hkp Hp1 eq_refl Hrun) as H3.
    unfold Pg.updatePaymentPayout in H3. rewrite Hup, Hc, Hkp, Hp1 in H3.
    cbn [negb] in H3. fold payout in H3. rewrite H3. cbn [snd answer].
    set (p3 := set_payout c _ p1).
    set (w3 := with_core _ w2).
    assert (Hp3 : payments (core w3) !! k = Some p3) by apply lookup_insert_eq.
    rewrite (Backend_handleUpiWebhook_step Ew w3 wh k k p3 Hwt Haw Hkw Hp3).
    cbn [snd answer]. rewrite Hws.
    exists (set_status (webhook_paymentStatus (Some "SUCCESS"))
              (Pg.CURRENT_TIMESTAMP (server Ew)) p3), response, st, c.
    split; [apply lookup_insert_eq|].
    split; [reflexivity|]. split; [reflexivity|]. split; [exact Hrun|].
    split; [exact Hc|]. repeat split.
Qed.

Lemma payment_flow_completes_witness :
  exists reply w1 p,
    initiatePayment (backend_env always coingecko_up) initiate_body no_payment
    = (Ok reply, w1)
    /\ ir_transactionId reply = uuid4_supply 0
    /\ payments (core (Backend.run
                         [(backend_env always coingecko_up,
                           Confirm (confirm_of (uuid4_supply 0) "0xh"));
                          (backend_env always coingecko_up,
                           Payout (payout_of (uuid4_supply 0)));
                          (backend_env always coingecko_up,
                           Webhook (webhook_of (uuid4_supply 0) "SUCCESS"))] w1))
         !! uuid4_supply 0 = Some p
    /\ Ledger.status p = completed
    /\ aptosTransactionHash p = Some "0xh"
    /\ upiPayoutId p = Some (uuid4_supply 2)
    /\ amountINR p = 840 # 1
    /\ exchangeRate p = 166247 # 2000.
Proof.
  assert (Hm : merchant_a <> "") by discriminate.
  assert (Hw : "0xabc" <> "") by discriminate.
  assert (Hu : "shop@upi" <> "") by discriminate.
  assert (Hh : "0xh" <> "") by discriminate.
  assert (Hk : uuid4_supply 0 <> "") by discriminate.
  assert (Hids : forall i, is_Some (canonical_uuid (uuid4_supply i))).
  { intros [|[|[|[|i]]]]; eexists; reflexivity. }
  destruct (payment_flow_completes
              (backend_env always coingecko_up) (backend_env always coingecko_up)
              (backend_env always coingecko_up) (backend_env always coingecko_up)
              no_payment merchant_a "0xabc" "shop@upi" "0xh" (840 # 1)
              (83123456 # 1000000) (webhook_of (uuid4_supply 0) "SUCCESS")
              (uuid4_supply 0) merchant_a (840 # 1) _
              (166247 # 2000) "0xabc" "shop@upi" "0xh"
              Hm Hw Hu eq_refl Hh nonzero_rates_empty
              eq_refl eq_refl eq_refl eq_refl eq_refl eq_refl eq_refl eq_refl eq_refl
              ltac:(vm_compute; reflexivity) eq_refl Hk
              eq_refl eq_refl eq_refl eq_refl eq_refl eq_refl eq_refl eq_refl eq_refl
              Hids eq_refl eq_refl)
    as (reply & w1 & Hrun & Hid & _ & p & response & st & c & Hp & Hst & Hhash
        & Hpay & Hc & Hpo & _ & _ & Ha & _ & Hr & _).
  exists reply, w1, p.
  vm_compute in Hrun. injection Hrun as <- <-.
  vm_compute in Hpay. injection Hpay as <- <-.
  vm_compute in Hc. injection Hc as <-.
  repeat split; assumption.
Defined.


End OverTheDatabase.

(** ** QR payload parsers, continued *)

Import Shape.

Lemma prefix_empty (s : string) : String.prefix "" s = true.
Proof. destruct s; reflexivity. Qed.

Lemma includes_at_cons (c : ascii) (r : string) :
  includes (String c r) "@" = Ascii.eqb c "@" || includes r "@".
Proof.
  cbn [includes]. f_equal. cbn [String.prefix].
  destruct (ascii_dec "@" c) as [<-|Hne]; [apply prefix_empty|].
  symmetry. apply Ascii.eqb_neq. congruence.
Qed.

Lemma includes_at_empty : includes "" "@" = false.
Proof. reflexivity. Qed.

Lemma split_nonempty (sep : ascii) (s : string) : split sep s <> [].
Proof.
  destruct s as [|c r]; simpl; [discriminate|].
  destruct (Ascii.eqb c sep); [discriminate|].
  destruct (split sep r); discriminate.
Qed.

Lemma includes_at_split (s : string) :
  includes s "@" = existsb (fun l => includes l "@") (split "010" s).
Proof.
  induction s as [|c r IH]; [reflexivity|].
  rewrite includes_at_cons. cbn [split].
  destruct (Ascii.eqb_spec c "010") as [->|Hne].
  - cbn [existsb]. rewrite includes_at_empty, <- IH. reflexivity.
  - pose proof (split_nonempty "010" r) as Hs.
    destruct (split "010" r) as [|h t]; [contradiction|].
    cbn [existsb] in *. rewrite includes_at_cons, IH. by rewrite orb_assoc.
Qed.

Lemma space_is_not_at (c : ascii) : is_space c = true -> Ascii.eqb c "@" = false.
Proof.
  intros Hs. destruct (Ascii.eqb_spec c "@") as [->|]; [discriminate Hs | reflexivity].
Qed.

Lemma includes_at_strip_start (s : string) :
  includes (strip_start is_space s) "@" = includes s "@".
Proof.
  induction s as [|c r IH]; [reflexivity|].
  cbn [strip_start]. destruct (is_space c) eqn:Hs; [|reflexivity].
  by rewrite includes_at_cons, (space_is_not_at c Hs), IH.
Qed.

Lemma includes_at_strip_end (s : string) :
  includes (strip_end is_space s) "@" = includes s "@".
Proof.
  induction s as [|c r IH]; [reflexivity|].
  cbn [strip_end]. rewrite includes_at_cons, <- IH.
  destruct (strip_end is_space r) as [|c' r'].
  - destruct (is_space c) eqn:Hs.
    + by rewrite (space_is_not_at c Hs).
    + by rewrite includes_at_cons.
  - by rewrite includes_at_cons.
Qed.

Lemma includes_at_trim (s : string) : includes (trim s) "@" = includes s "@".
Proof. unfold trim. by rewrite includes_at_strip_end, includes_at_strip_start. Qed.

Lemma includes_at_lines (data : string) :
  includes data "@" = existsb (fun l => includes l "@") (alt_lines data).
Proof.
  unfold alt_lines. rewrite includes_at_split.
  induction (split "010" data) as [|l ls IH]; [reflexivity|].
  cbn [map existsb]. by rewrite includes_at_trim, IH.
Qed.

Lemma alt_step_address (st : AltState) (line : string) :
  alt_payeeAddress (alt_step st line)
  = if includes line "@" then line else alt_payeeAddress st.
Proof.
  unfold alt_step. destruct (includes line "@"); [reflexivity|].
  destruct (_ || _).
  - destruct (match_decimal line); reflexivity.
  - destruct (_ && _); reflexivity.
Qed.

Lemma fold_alt_step_address (lines : list string) (st : AltState) :
  alt_payeeAddress (fold_left alt_step lines st)
  = List.last (List.filter (fun l => includes l "@") lines) (alt_payeeAddress st).
Proof.
  revert st. induction lines as [|line lines IH]; intros st; [reflexivity|].
  simpl. rewrite IH, alt_step_address.
  destruct (includes line "@"); [|reflexivity].
  symmetry. apply last_cons_default.
Qed.

(** The last element that passes a test has every property that the
    default and all passing elements have. *)
Lemma last_filter_ind {A} (f : A -> bool) (P : A -> Prop) (l : list A) (d : A) :
  P d -> (forall x, f x = true -> P x) -> P (List.last (List.filter f l) d).
Proof.
  intros Hd Hf. revert d Hd. induction l as [|x l IH]; intros d Hd; [exact Hd|].
  cbn [List.filter]. destruct (f x) eqn:Hx; [|by apply IH].
  rewrite last_cons_default. apply IH. by apply Hf.
Qed.

Lemma last_filter_exists {A} (f : A -> bool) (l : list A) (d : A) :
  existsb f l = true -> f (List.last (List.filter f l) d) = true.
Proof.
  revert d. induction l as [|x l IH]; intros d; [discriminate|].
  cbn [List.filter existsb]. destruct (f x) eqn:Hx; cbn [orb].
  - intros _. rewrite last_cons_default.
    apply (last_filter_ind f (fun y => f y = true)); auto.
  - apply IH.
Qed.

Lemma last_filter_none {A} (f : A -> bool) (l : list A) (d : A) :
  existsb f l = false -> List.last (List.filter f l) d = d.
Proof.
  induction l as [|x l IH]; [reflexivity|].
  cbn [List.filter existsb]. destruct (f x); [discriminate|]. exact IH.
Qed.

(** X19.  The bare-VPA heuristic parser returns null exactly when the text
    contains no '@'; so it never returns null where [parseUPIQRCode] calls
    it, which is only on texts that contain one. *)
Theorem heuristic_null_iff_no_at :
  forall data : string,
    parseAlternativeUPIFormat data = None <-> includes data "@" = false.
Proof.
  intros data. unfold parseAlternativeUPIFormat.
  rewrite fold_alt_step_address, includes_at_lines. cbn [alt_init alt_payeeAddress].
  destruct (existsb (fun l => includes l "@") (alt_lines data)) eqn:Hex.
  - pose proof (last_filter_exists _ _ "" Hex) as Hat.
    destruct (List.last _ "") as [|c r]; [discriminate Hat|].
    cbn [String.eqb]. split; discriminate.
  - rewrite (last_filter_none _ _ "" Hex). split; reflexivity.
Qed.

Lemma span_digits_spec (s : string) :
  all_chars is_digit (fst (span_digits s)) = true
  /\ s = fst (span_digits s) +:+ snd (span_digits s)
  /\ match snd (span_digits s) with
     | String c _ => is_digit c = false
     | EmptyString => True
     end.
Proof.
  induction s as [|c r (IH1 & IH2 & IH3)]; [repeat split|].
  cbn [span_digits]. destruct (is_digit c) eqn:Hc.
  - destruct (span_digits r) as [d rest]. cbn [fst snd] in *.
    split; [cbn [all_chars]; by rewrite Hc, IH1|].
    split; [by rewrite append_cons, <- IH2 | exact IH3].
  - cbn [fst snd all_chars]. repeat split. exact Hc.
Qed.

Lemma span_digits_app (d rest : string) :
  all_chars is_digit d = true ->
  match rest with String c _ => is_digit c = false | EmptyString => True end ->
  span_digits (d +:+ rest) = (d, rest).
Proof.
  intros Hd Hrest. induction d as [|c d IH].
  - rewrite append_nil_l. destruct rest as [|c r]; [reflexivity|].
    cbn [span_digits]. by rewrite Hrest.
  - cbn [all_chars] in Hd. apply andb_true_iff in Hd as [Hc Hd].
    rewrite append_cons. cbn [span_digits]. by rewrite Hc, (IH Hd).
Qed.

Lemma span_digits_all (d : string) :
  all_chars is_digit d = true -> span_digits d = (d, "").
Proof.
  intros Hd. pose proof (span_digits_app d "" Hd I) as H.
  replace (d +:+ "") with d in H; [exact H|].
  clear. induction d as [|c d IH]; [reflexivity|]. by rewrite append_cons, <- IH.
Qed.

(** The regular expression, read with a test on the character after the
    integer part. *)
Lemma match_decimal_digit (c : ascii) (r : string) :
  is_digit c = true ->
  match_decimal (String c r)
  = match snd (span_digits (String c r)) with
    | String x r2 =>
        if Ascii.eqb x "." then
          match fst (span_digits r2) with
          | EmptyString => Some (fst (span_digits (String c r)))
          | frac => Some (fst (span_digits (String c r)) +:+ "." +:+ frac)
          end
        else Some (fst (span_digits (String c r)))
    | EmptyString => Some (fst (span_digits (String c r)))
    end.
Proof.
  intros Hc. cbn [match_decimal]. rewrite Hc.
  destruct (span_digits (String c r)) as [int rest]. cbn [fst snd].
  destruct rest as [|x r2]; [reflexivity|].
  destruct (span_digits r2) as [frac rest2]. cbn [fst].
  destruct x as [[] [] [] [] [] [] [] []]; destruct frac; reflexivity.
Qed.

Lemma is_decimal_int (int : string) :
  int <> "" -> all_chars is_digit int = true -> is_decimal int = true.
Proof.
  intros Hne Hd. unfold is_decimal. rewrite (span_digits_all int Hd).
  destruct int; [contradiction | reflexivity].
Qed.

Lemma is_decimal_frac (int frac : string) :
  int <> "" -> frac <> "" ->
  all_chars is_digit int = true -> all_chars is_digit frac = true ->
  is_decimal (int +:+ "." +:+ frac) = true.
Proof.
  intros Hi Hf Hdi Hdf. unfold is_decimal.
  rewrite (span_digits_app int ("." +:+ frac) Hdi) by reflexivity.
  destruct int; [contradiction|]. rewrite append_cons, append_nil_l.
  rewrite (span_digits_all frac Hdf). destruct frac; [contradiction | reflexivity].
Qed.

Lemma match_decimal_shape (s m : string) :
  match_decimal s = Some m -> is_decimal m = true.
Proof.
  induction s as [|c r IH]; [discriminate|].
  destruct (is_digit c) eqn:Hc.
  - rewrite (match_decimal_digit c r Hc).
    destruct (span_digits_spec (String c r)) as (Hint & _ & _).
    assert (Hne : fst (span_digits (String c r)) <> "").
    { cbn [span_digits]. rewrite Hc. destruct (span_digits r). discriminate. }
    set (int := fst (span_digits (String c r))) in *.
    destruct (snd (span_digits (String c r))) as [|x r2].
    + intros H. injection H as <-. by apply is_decimal_int.
    + destruct (Ascii.eqb x ".").
      * destruct (span_digits_spec r2) as (Hfrac & _ & _).
        destruct (fst (span_digits r2)) as [|f0 frac] eqn:Hf.
        -- intros H. injection H as <-. by apply is_decimal_int.
        -- intros H. injection H as <-. by apply is_decimal_frac.
      * intros H. injection H as <-. by apply is_decimal_int.
  - cbn [match_decimal]. rewrite Hc. exact IH.
Qed.

Lemma alt_step_amount (st : AltState) (line : string) :
  alt_amount (alt_step st line) = alt_amount st
  \/ match_decimal line = Some (alt_amount (alt_step st line)).
Proof.
  unfold alt_step. destruct (includes line "@"); [by left|].
  destruct (_ || _).
  - destruct (match_decimal line); [by right | by left].
  - destruct (_ && _); by left.
Qed.

Lemma fold_alt_step_amount (lines : list string) (st : AltState) :
  alt_amount st = "" \/ is_decimal (alt_amount st) = true ->
  alt_amount (fold_left alt_step lines st) = ""
  \/ is_decimal (alt_amount (fold_left alt_step lines st)) = true.
Proof.
  revert st. induction lines as [|line lines IH]; intros st Hst; [exact Hst|].
  cbn [fold_left]. apply IH.
  destruct (alt_step_amount st line) as [-> | Hm]; [exact Hst|].
  right. exact (match_decimal_shape _ _ Hm).
Qed.

Lemma long_line_nonempty (line : string) : plain_long_line line = true -> line <> "".
Proof. intros H ->. discriminate H. Qed.

Lemma parseAlternativeUPIFormat_shape :
  forall (data : string) (r : UPIData),
    parseAlternativeUPIFormat data = Some r ->
    includes (payeeAddress r) "@" = true
    /\ payeeName r <> ""
    /\ (amount r = "" \/ is_decimal (amount r) = true)
    /\ transactionNote r = "" /\ merchantCode r = "" /\ transactionRef r = ""
    /\ rawData r = data.
Proof.
  intros data r. unfold parseAlternativeUPIFormat.
  destruct (String.eqb_spec (alt_payeeAddress (fold_left alt_step (alt_lines data) alt_init)) "")
    as [|Hne]; [discriminate|].
  intros H. injection H as <-. cbn [payeeAddress payeeName amount transactionNote
                                     merchantCode transactionRef rawData].
  split; [|split; [|split; [|repeat split]]].
  - rewrite fold_alt_step_address in *.
    revert Hne. apply (last_filter_ind (fun l => includes l "@")
      (fun a => a <> "" -> includes a "@" = true)); [contradiction | auto].
  - rewrite fold_alt_step_name.
    apply (last_filter_ind name_line (fun n => n <> "")); [discriminate|].
    intros x Hx. unfold name_line in Hx. apply andb_true_iff in Hx as [_ Hx].
    by apply long_line_nonempty.
  - apply fold_alt_step_amount. by left.
Qed.

(** X20.  Every intent the bare-VPA heuristic parser returns has a payee
    address that contains '@', a non-empty payee name, an amount that is
    empty or a decimal numeral (digits, optionally followed by a dot and
    digits), empty note, merchant code and reference, and the raw text. *)
Theorem heuristic_intent_shape :
  forall (data : string) (r : UPIData),
    parseAlternativeUPIFormat data = Some r ->
    includes (payeeAddress r) "@" = true
    /\ payeeName r <> ""
    /\ (amount r = "" \/ is_decimal (amount r) = true)
    /\ transactionNote r = "" /\ merchantCode r = "" /\ transactionRef r = ""
    /\ rawData r = data.
Proof. exact parseAlternativeUPIFormat_shape. Qed.

Lemma heuristic_intent_shape_witness :
  exists r, parseAlternativeUPIFormat tea_shop = Some r
            /\ includes (payeeAddress r) "@" = true
            /\ payeeName r <> ""
            /\ (amount r = "" \/ is_decimal (amount r) = true)
            /\ transactionNote r = "" /\ merchantCode r = "" /\ transactionRef r = ""
            /\ rawData r = tea_shop.
Proof.
  eexists. split; [reflexivity|].
  apply (heuristic_intent_shape tea_shop). reflexivity.
Defined.

Lemma or_else_nonempty (a : option string) (b : string) : b <> "" -> or_else a b <> "".
Proof.
  intros Hb. destruct a as [s|]; simpl; [|exact Hb].
  destruct (String.eqb_spec s ""); assumption.
Qed.

(** ** Address helpers of the client *)

Import Aptos.

Lemma length_append (a b : string) :
  String.length (a +:+ b) = (String.length a + String.length b)%nat.
Proof.
  induction a as [|c a IH]; [reflexivity|].
  rewrite append_cons. cbn [String.length]. by rewrite IH.
Qed.

Lemma length_take (n : nat) (s : string) :
  String.length (take n s) = Nat.min n (String.length s).
Proof.
  revert s. induction n as [|n IH]; intros [|c r]; cbn [take String.length Nat.min];
    first [reflexivity | by rewrite IH].
Qed.

Lemma length_drop (n : nat) (s : string) :
  String.length (drop n s) = (String.length s - n)%nat.
Proof.
  revert s. induction n as [|n IH]; intros [|c r]; cbn [drop String.length];
    first [reflexivity | lia | by rewrite IH].
Qed.

(** X22.  [formatAddress] returns an address of at most 10 characters
    unchanged, and shortens any longer one to exactly 13 characters: its
    first six, three dots and its last four; on those longer addresses the
    [formatAddress] of WalletConnect gives the same text. *)
Theorem formatAddress_shape :
  forall address : string,
    ((String.length address <= 10)%nat -> formatAddress address = address)
    /\ ((10 < String.length address)%nat ->
        String.length (formatAddress address) = 13%nat
        /\ take 6 (formatAddress address) = take 6 address
        /\ take_last 4 (formatAddress address) = take_last 4 address
        /\ WalletConnect_formatAddress (Some address) = formatAddress address).
Proof.
  intros address. unfold formatAddress. split; intros Hlen.
  - apply Nat.leb_le in Hlen. by rewrite Hlen.
  - assert (Hleb : (String.length address <=? 10)%nat = false) by (apply Nat.leb_gt; lia).
    rewrite Hleb.
    assert (H6 : String.length (take 6 address) = 6%nat) by (rewrite length_take; lia).
    assert (H4 : String.length (take_last 4 address) = 4%nat)
      by (unfold take_last; rewrite length_drop; lia).
    split; [rewrite !length_append, H6, H4; reflexivity|].
    split; [|split].
    + destruct (take 6 address) as [|c1 [|c2 [|c3 [|c4 [|c5 [|c6 [|c7 r]]]]]]];
        try discriminate H6. reflexivity.
    + unfold take_last at 1. rewrite !length_append, H6, H4.
      destruct (take 6 address) as [|c1 [|c2 [|c3 [|c4 [|c5 [|c6 [|c7 r]]]]]]];
        try discriminate H6. reflexivity.
    + unfold WalletConnect_formatAddress.
      destruct address as [|c r]; [cbn in Hlen; lia | reflexivity].
Qed.

Lemma formatAddress_shape_witness :
  String.length (formatAddress "0x742d35Cc6634C0532925a3b8D400E4C0C0C0C0C0") = 13%nat
  /\ take 6 (formatAddress "0x742d35Cc6634C0532925a3b8D400E4C0C0C0C0C0")
     = take 6 "0x742d35Cc6634C0532925a3b8D400E4C0C0C0C0C0"
  /\ take_last 4 (formatAddress "0x742d35Cc6634C0532925a3b8D400E4C0C0C0C0C0")
     = take_last 4 "0x742d35Cc6634C0532925a3b8D400E4C0C0C0C0C0"
  /\ WalletConnect_formatAddress (Some "0x742d35Cc6634C0532925a3b8D400E4C0C0C0C0C0")
     = formatAddress "0x742d35Cc6634C0532925a3b8D400E4C0C0C0C0C0".
Proof.
  apply (proj2 (formatAddress_shape "0x742d35Cc6634C0532925a3b8D400E4C0C0C0C0C0")).
  vm_compute. lia.
Defined.

Lemma hex_not_0x (h : string) : all_chars is_hex h = true -> startsWith h "0x" = false.
Proof.
  unfold startsWith. destruct h as [|c1 [|c2 r]]; [reflexivity | |].
  - intros _. cbn [String.prefix]. destruct (ascii_dec "0" c1); reflexivity.
  - cbn [all_chars]. intros H.
    apply andb_true_iff in H as [H1 H]. apply andb_true_iff in H as [H2 _].
    cbn [String.prefix].
    destruct (ascii_dec "0" c1) as [<-|]; [|reflexivity].
    destruct (ascii_dec "x" c2) as [<-|]; [discriminate H2 | reflexivity].
Qed.

(** X23.  [isValidAddress] accepts exactly the strings made of 1 to 64
    hexadecimal digits, with or without a leading 0x. *)
Theorem isValidAddress_exactly :
  forall address : string,
    isValidAddress address = true
    <-> exists h, hex_1_64 h = true /\ (address = h \/ address = "0x" +:+ h).
Proof.
  intros address. unfold isValidAddress. split.
  - destruct (startsWith address "0x") eqn:Hp; intros Hv.
    + exists (drop 2 address). split; [exact Hv|]. right.
      unfold startsWith in Hp.
      destruct address as [|c1 [|c2 r]]; cbn [String.prefix] in Hp.
      * discriminate Hp.
      * destruct (ascii_dec "0" c1); discriminate Hp.
      * destruct (ascii_dec "0" c1) as [<-|]; [|discriminate Hp].
        destruct (ascii_dec "x" c2) as [<-|]; [|discriminate Hp]. reflexivity.
    + exists address. split; [exact Hv | by left].
  - intros (h & Hh & [-> | ->]).
    + assert (Hx : all_chars is_hex h = true).
      { unfold hex_1_64 in Hh. apply andb_true_iff in Hh as [Hh _].
        apply andb_true_iff in Hh as [Hh _]. exact Hh. }
      by rewrite (hex_not_0x h Hx).
    + rewrite !append_cons, append_nil_l.
      unfold startsWith. cbn [String.prefix].
      destruct (ascii_dec "0" "0"); [|contradiction].
      destruct (ascii_dec "x" "x"); [|contradiction].
      rewrite prefix_empty. exact Hh.
Qed.

(** ** The JSON dialect *)

Import Json.

Lemma or_value_truthy (a : option jsval) (b : jsval) :
  truthy a = true -> Some (or_value a b) = a.
Proof.
  destruct a as [v|]; [|discriminate]. intros H. unfold or_value. by rewrite H.
Qed.

Lemma or_value_falsy (a : option jsval) (b : jsval) :
  truthy a = false -> or_value a b = b.
Proof.
  destruct a as [v|]; [|reflexivity]. intros H. unfold or_value. by rewrite H.
Qed.

Lemma or_value_is_truthy (a : option jsval) (b : jsval) :
  truthy (Some (or_value a b)) = truthy a || truthy (Some b).
Proof.
  destruct (truthy a) eqn:Ha.
  - by rewrite (or_value_truthy a b Ha), Ha.
  - by rewrite (or_value_falsy a b Ha).
Qed.

(** The body of [parseJSONUPIFormat] on a value that is not [null]. *)
Lemma parseJSONUPIFormat_result (rt : Runtime) (v : jsval) (r : JsonUPIData) :
  parseJSONUPIFormat rt v = Some r ->
  truthy (Some (j_payeeAddress r)) = true
  /\ j_payeeAddress r
     = or_value (prop v "upi")
         (or_value (prop v "vpa") (or_value (prop v "payeeAddress") (JStr "")))
  /\ j_payeeName r
     = or_value (prop v "name")
         (or_value (prop v "merchantName")
            (or_value (prop v "payeeName") (JStr "Unknown Merchant")))
  /\ to_string rt (or_value (prop v "amount") (or_value (prop v "am") (JStr "")))
     = Ok (j_amount r)
  /\ j_transactionRef r = ""
  /\ j_rawData r = JSON_stringify rt v.
Proof.
  unfold parseJSONUPIFormat.
  set (addr := or_value (prop v "upi") _).
  set (amt := or_value (prop v "amount") _).
  assert (Hbody :
    (if negb (truthy (Some addr)) then None
     else match to_string rt amt with
          | Threw _ => None
          | Ok amount_text =>
              Some {| j_payeeAddress := addr;
                      j_payeeName :=
                        or_value (prop v "name")
                          (or_value (prop v "merchantName")
                             (or_value (prop v "payeeName") (JStr "Unknown Merchant")));
                      j_amount := amount_text;
                      j_transactionNote :=
                        or_value (prop v "note")
                          (or_value (prop v "tn")
                             (or_value (prop v "description") (JStr "")));
                      j_merchantCode :=
                        or_value (prop v "merchantCode")
                          (or_value (prop v "mc") (or_value (prop v "mid") (JStr "")));
                      j_transactionRef := "";
                      j_rawData := JSON_stringify rt v |}
          end) = Some r ->
    truthy (Some (j_payeeAddress r)) = true /\ j_payeeAddress r = addr
    /\ j_payeeName r
       = or_value (prop v "name")
           (or_value (prop v "merchantName")
              (or_value (prop v "payeeName") (JStr "Unknown Merchant")))
    /\ to_string rt amt = Ok (j_amount r)
    /\ j_transactionRef r = "" /\ j_rawData r = JSON_stringify rt v).
  { destruct (truthy (Some addr)) eqn:Ha; [|discriminate]. cbn [negb].
    destruct (to_string rt amt) as [a|e]; [|discriminate].
    intros H. injection H as <-. repeat split. exact Ha. }
  destruct v; [discriminate | exact Hbody ..].
Qed.

(** X24.  An intent out of the JSON dialect always has a truthy payee
    address, taken from the key upi when it is truthy, else from vpa, else
    from payeeAddress; a truthy payee name, Unknown Merchant when none of
    name, merchantName and payeeName is truthy; an empty transaction
    reference, whatever keys the JSON has; and as raw data the JSON value
    printed again. *)
Theorem json_intent_fields :
  forall (rt : Runtime) (data : string) (r : JsonUPIData),
    json_branch rt data = Some r ->
    exists v,
      JSON_parse rt data = Some v
      /\ truthy (Some (j_payeeAddress r)) = true
      /\ (truthy (prop v "upi") = true -> Some (j_payeeAddress r) = prop v "upi")
      /\ (truthy (prop v "upi") = false -> truthy (prop v "vpa") = true ->
          Some (j_payeeAddress r) = prop v "vpa")
      /\ (truthy (prop v "upi") = false -> truthy (prop v "vpa") = false ->
          Some (j_payeeAddress r) = prop v "payeeAddress")
      /\ truthy (Some (j_payeeName r)) = true
      /\ (truthy (prop v "name") = false -> truthy (prop v "merchantName") = false ->
          truthy (prop v "payeeName") = false ->
          j_payeeName r = JStr "Unknown Merchant")
      /\ j_transactionRef r = ""
      /\ j_rawData r = JSON_stringify rt v.
Proof.
  intros rt data r. unfold json_branch.
  destruct (JSON_parse rt data) as [v|]; [|discriminate].
  intros H. exists v. split; [reflexivity|].
  assert (Hr : parseJSONUPIFormat rt v = Some r).
  { destruct v; try discriminate H;
      match type of H with
      | (if ?c then _ else _) = _ => destruct c; [exact H | discriminate H]
      end. }
  destruct (parseJSONUPIFormat_result rt v r Hr) as (Ht & Ha & Hn & _ & Href & Hraw).
  split; [exact Ht|].
  split; [intros H1; rewrite Ha; by apply or_value_truthy|].
  split; [intros H1 H2; rewrite Ha, (or_value_falsy _ _ H1); by apply or_value_truthy|].
  split.
  { intros H1 H2. rewrite Ha, (or_value_falsy _ _ H1), (or_value_falsy _ _ H2).
    rewrite Ha, (or_value_falsy _ _ H1), (or_value_falsy _ _ H2) in Ht.
    rewrite or_value_is_truthy in Ht. cbn [truthy String.eqb negb] in Ht.
    rewrite orb_false_r in Ht. by apply or_value_truthy. }
  split; [rewrite Hn, !or_value_is_truthy; cbn; by rewrite !orb_true_r|].
  split; [intros H1 H2 H3; by rewrite Hn, !or_value_falsy|].
  split; assumption.
Qed.

Lemma json_intent_fields_witness :
  exists r v,
    json_branch vpa_runtime vpa_text = Some r
    /\ JSON_parse vpa_runtime vpa_text = Some v
    /\ j_payeeAddress r = JStr "a@b" /\ j_amount r = "50"
    /\ j_payeeName r = JStr "Unknown Merchant"
    /\ truthy (Some (j_payeeAddress r)) = true
    /\ j_transactionRef r = "".
Proof.
  destruct (json_branch vpa_runtime vpa_text) as [r|] eqn:Hr; [|discriminate Hr].
  destruct (json_intent_fields vpa_runtime vpa_text r Hr)
    as (v & Hv & Ht & _ & _ & _ & _ & _ & Href & _).
  exists r, v. vm_compute in Hr. injection Hr as <-.
  repeat split; first [exact Hv | reflexivity].
Defined.

(** X25.  In the JSON dialect the amount is made of the value of the key
    amount when it is truthy, else of the value of the key am.  A string is
    copied as it is, numeral or not; any other value (a number, true, an
    array, an object) is replaced by what its [toString()] returns, and when
    that call throws no intent is returned at all.  When neither key is
    truthy (absent, null, false, 0 or the empty string) the amount is the
    empty string. *)
Theorem json_amount :
  forall (rt : Runtime) (v : jsval),
    let chosen := or_value (prop v "amount") (or_value (prop v "am") (JStr "")) in
    (truthy (prop v "amount") = true -> Some chosen = prop v "amount")
    /\ (truthy (prop v "amount") = false -> truthy (prop v "am") = true ->
        Some chosen = prop v "am")
    /\ (truthy (prop v "amount") = false -> truthy (prop v "am") = false ->
        chosen = JStr "")
    /\ (forall r, parseJSONUPIFormat rt v = Some r ->
          (forall s, chosen = JStr s -> j_amount r = s)
          /\ ((forall s, chosen <> JStr s) ->
              value_toString rt chosen = Ok (j_amount r)))
    /\ ((forall s, chosen <> JStr s) ->
        (exists e, value_toString rt chosen = Threw e) ->
        parseJSONUPIFormat rt v = None).
Proof.
  intros rt v chosen.
  split; [intros H; by apply or_value_truthy|].
  split; [intros H1 H2; unfold chosen; rewrite (or_value_falsy _ _ H1);
          by apply or_value_truthy|].
  split; [intros H1 H2; unfold chosen;
          by rewrite (or_value_falsy _ _ H1), (or_value_falsy _ _ H2)|].
  split.
  - intros r Hr.
    destruct (parseJSONUPIFormat_result rt v r Hr) as (_ & _ & _ & Hamt & _).
    fold chosen in Hamt. split.
    + intros s Hs. rewrite Hs in Hamt. cbn [to_string] in Hamt. by injection Hamt.
    + intros Hns. destruct chosen as [| | |s| |]; cbn [to_string] in Hamt;
        try exact Hamt. by destruct (Hns s).
  - intros Hns (e & He).
    destruct (parseJSONUPIFormat rt v) as [r|] eqn:Hr; [|reflexivity].
    destruct (parseJSONUPIFormat_result rt v r Hr) as (_ & _ & _ & Hamt & _).
    fold chosen in Hamt.
    destruct chosen as [| | |s| |]; cbn [to_string] in Hamt;
      try (rewrite He in Hamt; discriminate Hamt).
    by destruct (Hns s).
Qed.

Lemma json_amount_witness :
  exists r, parseJSONUPIFormat vpa_runtime
              (JObj [("vpa", JStr "a@b"); ("amount", JNum 0); ("am", JNum (50 # 1))])
            = Some r
            /\ j_amount r = "50"
            /\ value_toString vpa_runtime (JNum (50 # 1)) = Ok "50".
Proof.
  eexists. split; [reflexivity|].
  destruct (json_amount vpa_runtime
              (JObj [("vpa", JStr "a@b"); ("amount", JNum 0); ("am", JNum (50 # 1))]))
    as (_ & _ & _ & Htext & _).
  destruct (Htext _ eq_refl) as (_ & Hnum).
  split; [reflexivity|]. apply Hnum. intros s. discriminate.
Defined.

(** ** The four dialects together *)

Lemma json_branch_parsed (rt : Runtime) (data : string) (r : JsonUPIData) :
  json_branch rt data = Some r ->
  exists v, JSON_parse rt data = Some v /\ parseJSONUPIFormat rt v = Some r.
Proof.
  unfold json_branch. destruct (JSON_parse rt data) as [v|]; [|discriminate].
  intros H. exists v. split; [reflexivity|].
  destruct v; try discriminate H;
    match type of H with
    | (if ?c then _ else _) = _ => destruct c; [exact H | discriminate H]
    end.
Qed.

Lemma truthy_not_empty (v : jsval) : truthy (Some v) = true -> v <> JStr "".
Proof. intros H ->. discriminate H. Qed.

(** Outside the JSON branch [Dialects.parseUPIQRCode] is
    [Scanner.parseUPIQRCode], whatever JSON branch that one is given; in the
    JSON branch the latter returns what its JSON branch does. *)
Lemma Dialects_agrees_with_Scanner (P : Platform) (rt : Runtime) (data : string) :
  match Dialects.parseUPIQRCode P rt data with
  | Some (Dialects.Textual r) => parseUPIQRCode P data = Some r
  | Some (Dialects.OfJson _) => parseUPIQRCode P data = JSON_form P data
  | None => True
  end.
Proof.
  unfold Dialects.parseUPIQRCode.
  destruct (startsWith data "upi://pay") eqn:Hstart.
  - destruct (parseUPIQRCode P data); reflexivity.
  - unfold parseUPIQRCode. rewrite Hstart.
    destruct (_ || _); [destruct (parseUPIURL P data); reflexivity|].
    destruct (_ && _); [destruct (parseAlternativeUPIFormat data); reflexivity|].
    destruct (json_branch rt data); [reflexivity | exact I].
Qed.

(** X21.  [parseUPIQRCode] never returns an intent without a payee
    address, whatever the dialect.  Out of the three dialects whose fields
    are strings the payee address is not empty, and outside the inline
    branch for texts beginning with upi://pay the payee name is not empty
    either.  Out of the JSON dialect the payee address and the payee name
    are truthy values, hence not the empty string, though not always
    strings. *)
Theorem parsed_intent_has_address :
  forall (P : Platform) (rt : Runtime) (data : string) (i : Dialects.Intent),
    Dialects.parseUPIQRCode P rt data = Some i ->
    match i with
    | Dialects.Textual r =>
        payeeAddress r <> ""
        /\ (startsWith data "upi://pay" = false -> payeeName r <> "")
    | Dialects.OfJson r =>
        truthy (Some (j_payeeAddress r)) = true /\ j_payeeAddress r <> JStr ""
        /\ truthy (Some (j_payeeName r)) = true /\ j_payeeName r <> JStr ""
    end.
Proof.
  intros P rt data i. unfold Dialects.parseUPIQRCode.
  destruct (startsWith data "upi://pay") eqn:Hstart.
  - unfold parseUPIQRCode. rewrite Hstart.
    destruct (URL_searchParams P data) as [params|]; [|discriminate].
    destruct (String.eqb_spec (or_else (get params "pa") "") ""); [discriminate|].
    intros H. injection H as <-. split; [assumption | discriminate].
  - destruct (_ || _).
    + unfold parseUPIURL.
      destruct (URL_searchParams P _) as [params|]; [|discriminate].
      destruct (String.eqb_spec (or_else (get params "pa") "") ""); [discriminate|].
      intros H. injection H as <-. split; [assumption|].
      intros _. by apply or_else_nonempty.
    + destruct (_ && _).
      * destruct (parseAlternativeUPIFormat data) as [r|] eqn:Hr; [|discriminate].
        intros H. injection H as <-.
        destruct (parseAlternativeUPIFormat_shape data r Hr) as (Hat & Hname & _).
        split; [|auto]. intros Heq. rewrite Heq in Hat. discriminate Hat.
      * destruct (json_branch rt data) as [r|] eqn:Hr; [|discriminate].
        intros H. injection H as <-.
        destruct (json_branch_parsed rt data r Hr) as (v & _ & Hv).
        destruct (parseJSONUPIFormat_result rt v r Hv) as (Ht & _ & Hn & _).
        assert (Hname : truthy (Some (j_payeeName r)) = true).
        { rewrite Hn, !or_value_is_truthy. cbn. by rewrite !orb_true_r. }
        split; [exact Ht|]. split; [by apply truthy_not_empty|].
        split; [exact Hname | by apply truthy_not_empty].
Qed.

Lemma parsed_intent_has_address_witness :
  exists r, Dialects.parseUPIQRCode (runtime (fun _ => None)) vpa_runtime vpa_text
            = Some (Dialects.OfJson r)
            /\ j_payeeAddress r = JStr "a@b"
            /\ j_payeeAddress r <> JStr ""
            /\ j_payeeName r <> JStr "".
Proof.
  eexists. split; [reflexivity|]. split; [reflexivity|].
  pose proof (parsed_intent_has_address (runtime (fun _ => None)) vpa_runtime vpa_text
                _ eq_refl) as (_ & Ha & _ & Hn).
  split; assumption.
Defined.

(** ** The test QR code, scanned *)

Import TestQR.

Lemma append_assoc (a b c : string) : (a +:+ b) +:+ c = a +:+ (b +:+ c).
Proof.
  induction a as [|x a IH]; [reflexivity|]. by rewrite !append_cons, IH.
Qed.

Lemma all_chars_app (f : ascii -> bool) (a b : string) :
  all_chars f (a +:+ b) = all_chars f a && all_chars f b.
Proof.
  induction a as [|x a IH]; [reflexivity|].
  rewrite append_cons. cbn [all_chars]. by rewrite IH, andb_assoc.
Qed.

Lemma all_chars_impl (f g : ascii -> bool) (s : string) :
  (forall c, f c = true -> g c = true) -> all_chars f s = true -> all_chars g s = true.
Proof.
  intros Hfg. induction s as [|c r IH]; [reflexivity|]. cbn [all_chars].
  intros H. apply andb_true_iff in H as [Hc Hr]. by rewrite (Hfg c Hc), (IH Hr).
Qed.

Ltac each_byte c := destruct c as [[] [] [] [] [] [] [] []].

Lemma decode_serialize_byte (c : ascii) (rest : string) :
  form_decode (serialize_byte c +:+ rest) = String c (form_decode rest).
Proof. each_byte c; reflexivity. Qed.

Lemma form_decode_urlencode (s : string) : form_decode (urlencode s) = s.
Proof.
  induction s as [|c r IH]; [reflexivity|].
  cbn [urlencode]. by rewrite decode_serialize_byte, IH.
Qed.

Lemma serialize_byte_chars (c : ascii) : all_chars is_value_char (serialize_byte c) = true.
Proof. each_byte c; reflexivity. Qed.

Lemma urlencode_chars (s : string) : all_chars is_value_char (urlencode s) = true.
Proof.
  induction s as [|c r IH]; [reflexivity|].
  cbn [urlencode]. by rewrite all_chars_app, serialize_byte_chars, IH.
Qed.

Lemma value_char_not (sep : ascii) :
  is_value_char sep = false ->
  forall c, is_value_char c = true -> negb (Ascii.eqb c sep) = true.
Proof.
  intros Hsep c Hc. destruct (Ascii.eqb_spec c sep) as [->|]; [congruence | reflexivity].
Qed.

Lemma break_app (sep : ascii) (a b : string) :
  all_chars (fun c => negb (Ascii.eqb c sep)) a = true ->
  break sep (a +:+ String sep b) = (a, Some b).
Proof.
  induction a as [|x a IH]; intros Ha.
  - rewrite append_nil_l. cbn [break]. by rewrite Ascii.eqb_refl.
  - cbn [all_chars] in Ha. apply andb_true_iff in Ha as [Hx Ha].
    rewrite append_cons. cbn [break].
    apply negb_true_iff in Hx. by rewrite Hx, (IH Ha).
Qed.

Lemma break_none (sep : ascii) (a : string) :
  all_chars (fun c => negb (Ascii.eqb c sep)) a = true ->
  break sep a = (a, None).
Proof.
  induction a as [|x a IH]; intros Ha; [reflexivity|].
  cbn [all_chars] in Ha. apply andb_true_iff in Ha as [Hx Ha].
  cbn [break]. apply negb_true_iff in Hx. by rewrite Hx, (IH Ha).
Qed.

Lemma split_none (sep : ascii) (a : string) :
  all_chars (fun c => negb (Ascii.eqb c sep)) a = true -> split sep a = [a].
Proof.
  induction a as [|x a IH]; intros Ha; [reflexivity|].
  cbn [all_chars] in Ha. apply andb_true_iff in Ha as [Hx Ha].
  cbn [split]. apply negb_true_iff in Hx. by rewrite Hx, (IH Ha).
Qed.

Lemma split_app (sep : ascii) (a b : string) :
  all_chars (fun c => negb (Ascii.eqb c sep)) a = true ->
  split sep (a +:+ String sep b) = a :: split sep b.
Proof.
  induction a as [|x a IH]; intros Ha.
  - rewrite append_nil_l. cbn [split]. by rewrite Ascii.eqb_refl.
  - cbn [all_chars] in Ha. apply andb_true_iff in Ha as [Hx Ha].
    rewrite append_cons. cbn [split].
    apply negb_true_iff in Hx. by rewrite Hx, (IH Ha).
Qed.

Lemma serialize_pair_no_amp (kv : string * string) :
  all_chars (fun c => negb (Ascii.eqb c "&")) (serialize_pair kv) = true.
Proof.
  unfold serialize_pair. rewrite !all_chars_app.
  rewrite (all_chars_impl is_value_char _ (urlencode (fst kv))
             (value_char_not "&" eq_refl) (urlencode_chars _)).
  rewrite (all_chars_impl is_value_char _ (urlencode (snd kv))
             (value_char_not "&" eq_refl) (urlencode_chars _)).
  reflexivity.
Qed.

Lemma urlencoded_pair_serialize (kv : string * string) :
  urlencoded_pair (serialize_pair kv) = kv.
Proof.
  destruct kv as [k v]. unfold urlencoded_pair, serialize_pair. cbn [fst snd].
  change ("=" +:+ urlencode v) with (String "=" (urlencode v)).
  rewrite break_app
    by (apply (all_chars_impl is_value_char _ _ (value_char_not "=" eq_refl)),
          urlencode_chars).
  cbv beta iota delta [default from_option Datatypes.id].
  by rewrite !form_decode_urlencode.
Qed.

Lemma serialize_pair_nonempty (kv : string * string) :
  negb (String.eqb (serialize_pair kv) "") = true.
Proof.
  unfold serialize_pair. destruct (urlencode (fst kv)); reflexivity.
Qed.

Lemma split_join_amp (segments : list string) :
  segments <> [] ->
  Forall (fun s => all_chars (fun c => negb (Ascii.eqb c "&")) s = true) segments ->
  split "&" (join_amp segments) = segments.
Proof.
  induction segments as [|x rest IH]; [contradiction|].
  intros _ Hall. inversion Hall as [|? ? Hx Hrest]; subst.
  destruct rest as [|y rest'].
  - cbn [join_amp]. by apply split_none.
  - change (join_amp (x :: y :: rest')) with (x +:+ String "&" (join_amp (y :: rest'))).
    rewrite (split_app "&" x _ Hx). f_equal. apply IH; [discriminate | exact Hrest].
Qed.

(** Parsing a serialized query gives the pairs back. *)
Lemma urlencoded_parse_serialize (pairs : list (string * string)) :
  urlencoded_parse (URLSearchParams_toString pairs) = pairs.
Proof.
  unfold urlencoded_parse, URLSearchParams_toString.
  destruct pairs as [|kv pairs]; [reflexivity|].
  rewrite split_join_amp.
  - generalize (kv :: pairs). intros l. induction l as [|p l IH]; [reflexivity|].
    cbn [map List.filter]. rewrite serialize_pair_nonempty. cbn [map].
    by rewrite urlencoded_pair_serialize, IH.
  - discriminate.
  - apply Forall_forall. intros s Hs. apply list_elem_of_In, in_map_iff in Hs as (p & <- & _).
    apply serialize_pair_no_amp.
Qed.

Lemma join_amp_chars (segments : list string) :
  Forall (fun s => all_chars is_query_char s = true) segments ->
  all_chars is_query_char (join_amp segments) = true.
Proof.
  induction segments as [|x rest IH]; [reflexivity|].
  intros Hall. inversion Hall as [|? ? Hx Hrest]; subst.
  destruct rest as [|y rest']; [exact Hx|].
  change (join_amp (x :: y :: rest')) with (x +:+ String "&" (join_amp (y :: rest'))).
  rewrite all_chars_app. cbn [all_chars]. rewrite Hx, (IH Hrest). reflexivity.
Qed.

Lemma value_char_is_query_char (c : ascii) : is_value_char c = true -> is_query_char c = true.
Proof.
  unfold is_value_char, is_query_char. intros ->. reflexivity.
Qed.

Lemma toString_chars (pairs : list (string * string)) :
  all_chars is_query_char (URLSearchParams_toString pairs) = true.
Proof.
  unfold URLSearchParams_toString. apply join_amp_chars.
  apply Forall_forall. intros s Hs. apply list_elem_of_In, in_map_iff in Hs as (p & <- & _).
  unfold serialize_pair. rewrite !all_chars_app.
  rewrite (all_chars_impl is_value_char is_query_char (urlencode (fst p))
             value_char_is_query_char (urlencode_chars _)).
  rewrite (all_chars_impl is_value_char is_query_char (urlencode (snd p))
             value_char_is_query_char (urlencode_chars _)).
  reflexivity.
Qed.

Lemma strip_end_id (f : ascii -> bool) (s : string) :
  all_chars (fun c => negb (f c)) s = true -> strip_end f s = s.
Proof.
  induction s as [|c r IH]; intros Hs; [reflexivity|].
  cbn [all_chars] in Hs. apply andb_true_iff in Hs as [Hc Hr].
  cbn [strip_end]. rewrite (IH Hr). apply negb_true_iff in Hc. rewrite Hc.
  destruct r; reflexivity.
Qed.

Lemma remove_chars_id (f : ascii -> bool) (s : string) :
  all_chars (fun c => negb (f c)) s = true -> remove_chars f s = s.
Proof.
  induction s as [|c r IH]; intros Hs; [reflexivity|].
  cbn [all_chars] in Hs. apply andb_true_iff in Hs as [Hc Hr].
  cbn [remove_chars]. apply negb_true_iff in Hc. by rewrite Hc, (IH Hr).
Qed.

Lemma query_char_plain (c : ascii) :
  is_query_char c = true ->
  negb (is_c0_or_space c) = true /\ negb (is_tab_or_newline c) = true
  /\ negb (Ascii.eqb c "#") = true.
Proof. each_byte c; intros H; first [discriminate H | repeat split]. Qed.

(** The URL model reads back the pairs of a serialized query. *)
Lemma searchParams_of_serialized (pairs : list (string * string)) :
  whatwg_searchParams ("upi://pay?" +:+ URLSearchParams_toString pairs) = Some pairs.
Proof.
  pose proof (toString_chars pairs) as Hq.
  set (q := URLSearchParams_toString pairs) in *.
  assert (H1 : all_chars (fun c => negb (is_c0_or_space c)) q = true)
    by (revert Hq; apply all_chars_impl; intros c Hc; apply (query_char_plain c Hc)).
  assert (H2 : all_chars (fun c => negb (is_tab_or_newline c)) q = true)
    by (revert Hq; apply all_chars_impl; intros c Hc; apply (query_char_plain c Hc)).
  assert (H3 : all_chars (fun c => negb (Ascii.eqb c "#")) q = true)
    by (revert Hq; apply all_chars_impl; intros c Hc; apply (query_char_plain c Hc)).
  unfold whatwg_searchParams.
  change (strip_start is_c0_or_space ("upi://pay?" +:+ q)) with ("upi://pay?" +:+ q).
  rewrite strip_end_id by (rewrite all_chars_app, H1; reflexivity).
  rewrite remove_chars_id by (rewrite all_chars_app, H2; reflexivity).
  change (break ":" ("upi://pay?" +:+ q)) with ("upi", Some ("//pay?" +:+ q)).
  cbv iota beta.
  change (is_alpha "u" && all_chars is_scheme_char "upi") with true. cbv iota.
  rewrite (break_none "#" ("//pay?" +:+ q)) by (rewrite all_chars_app, H3; reflexivity).
  change (break "?" ("//pay?" +:+ q)) with ("//pay", Some q).
  cbv beta iota delta [default from_option Datatypes.id].
  unfold q. by rewrite urlencoded_parse_serialize.
Qed.

(** X26.  The QR code that TestQRCode generates scans back to what it
    shows: whatever the clock says, [parseUPIQRCode] reads from it the payee
    address testcoffeeshop@paytm, the name Test Coffee Shop, the amount
    100.00, the note Coffee and Snacks, the merchant code COFFEE001 and the
    reference TXN followed by the time. *)
Theorem test_qr_scans_back :
  forall (json : string -> option UPIData) (Date_now : Z),
    parseUPIQRCode (runtime json) (generateRealUPIQR Date_now)
    = Some {| payeeAddress := "testcoffeeshop@paytm";
              payeeName := "Test Coffee Shop";
              amount := "100.00";
              transactionNote := "Coffee and Snacks";
              merchantCode := "COFFEE001";
              transactionRef := "TXN" +:+ Upi.decimal_of_Z Date_now;
              rawData := generateRealUPIQR Date_now |}.
Proof.
  intros json Date_now. unfold parseUPIQRCode.
  assert (Hs : startsWith (generateRealUPIQR Date_now) "upi://pay" = true) by reflexivity.
  rewrite Hs. unfold runtime. cbn [URL_searchParams].
  unfold generateRealUPIQR at 1. rewrite searchParams_of_serialized. reflexivity.
Qed.
